(** * The boot splash decoder of src/boot/efi/splash.c

    A shallow embedding of [bmp_parse_header], [pixel_blend], [bmp_to_blt]
    and [graphics_splash], and the properties of the specification that
    were checked against them.

    Conventions.  The build modelled is the 64-bit one: [UINTN] and
    [size_t] are 64 bits wide, [uint32_t] arithmetic wraps at 2^32, and the
    machine is little-endian.  Fixed-width integers are values of [Z] with
    the wrap-around written where the C expression has it.  Pointers into
    the image are offsets from [bmp] (so [bmp] itself is address 0) and
    are plain integers. *)

From Stdlib Require Import ZArith List Lia Bool ZifyBool.
From coqutil Require Import Byte Z.bitblast.
Import ListNotations.
Local Open Scope Z_scope.

(** ** Machine integers *)

Definition uint8 (z : Z) : Z := z mod 2 ^ 8.
Definition uint16 (z : Z) : Z := z mod 2 ^ 16.
Definition uint32 (z : Z) : Z := z mod 2 ^ 32.
Definition UINTN (z : Z) : Z := z mod 2 ^ 64.

(** ** Memory

    The address space seen from [bmp]: the image occupies the addresses
    [0 .. size-1]; what lies around it is whatever the firmware left
    there.  Every byte has a value, so that the decoder is a total
    function; which addresses the converter reads through its pointers
    [in] and [map] is recorded separately (see the [cur_reads] field of
    the cursor below). *)

Definition memory : Type := Z -> byte.

Definition rd8 (m : memory) (a : Z) : Z := byte.unsigned (m a).

Definition rd16 (m : memory) (a : Z) : Z :=
  rd8 m a + 2 ^ 8 * rd8 m (a + 1).

Definition rd32 (m : memory) (a : Z) : Z :=
  rd8 m a + 2 ^ 8 * rd8 m (a + 1) + 2 ^ 16 * rd8 m (a + 2) + 2 ^ 24 * rd8 m (a + 3).

(** The memory that holds the bytes [bs] at address 0 and zeroes elsewhere;
    used for concrete images only. *)
Definition load (bs : list Z) : memory :=
  fun a => if a <? 0 then byte.of_Z 0 else byte.of_Z (nth (Z.to_nat a) bs 0).

(** ** The packed structures *)

(** [struct bmp_file], 14 bytes. *)
Record bmp_file : Type := {
  file_signature0 : Z;
  file_signature1 : Z;
  file_size : Z;
  file_reserved0 : Z;
  file_reserved1 : Z;
  file_offset : Z
}.

Definition sizeof_bmp_file : Z := 14.

Definition bmp_file_at (m : memory) (a : Z) : bmp_file :=
  {| file_signature0 := rd8 m a;
     file_signature1 := rd8 m (a + 1);
     file_size := rd32 m (a + 2);
     file_reserved0 := rd16 m (a + 6);
     file_reserved1 := rd16 m (a + 8);
     file_offset := rd32 m (a + 10) |}.

(** [struct bmp_dib], 40 bytes.  The two pixel densities are signed in C;
    no code reads them and they are kept as raw words. *)
Record bmp_dib : Type := {
  dib_size : Z;
  dib_x : Z;
  dib_y : Z;
  dib_planes : Z;
  dib_depth : Z;
  dib_compression : Z;
  dib_image_size : Z;
  dib_x_pixel_meter : Z;
  dib_y_pixel_meter : Z;
  dib_colors_used : Z;
  dib_colors_important : Z
}.

Definition sizeof_bmp_dib : Z := 40.

Definition bmp_dib_at (m : memory) (a : Z) : bmp_dib :=
  {| dib_size := rd32 m a;
     dib_x := rd32 m (a + 4);
     dib_y := rd32 m (a + 8);
     dib_planes := rd16 m (a + 12);
     dib_depth := rd16 m (a + 14);
     dib_compression := rd32 m (a + 16);
     dib_image_size := rd32 m (a + 20);
     dib_x_pixel_meter := rd32 m (a + 24);
     dib_y_pixel_meter := rd32 m (a + 28);
     dib_colors_used := rd32 m (a + 32);
     dib_colors_important := rd32 m (a + 36) |}.

(** [struct bmp_map], 4 bytes: blue, green, red, reserved. *)
Definition sizeof_bmp_map : Z := 4.
Definition map_blue (map i : Z) : Z := map + sizeof_bmp_map * i.
Definition map_green (map i : Z) : Z := map + sizeof_bmp_map * i + 1.
Definition map_red (map i : Z) : Z := map + sizeof_bmp_map * i + 2.

(** ** Status codes *)

Inductive EFI_STATUS : Type :=
  | EFI_SUCCESS
  | EFI_INVALID_PARAMETER
  | EFI_UNSUPPORTED
  | EFI_NOT_FOUND
  | EFI_DEVICE_ERROR.

Definition EFI_STATUS_eq_dec (a b : EFI_STATUS) : {a = b} + {a <> b}.
Proof. decide equality. Defined.

(** ** bmp_parse_header

    The C function returns a status and, on success, stores three
    pointers; here the three pointers are the payload of [Parsed]. *)

Inductive parsed : Type :=
  | Parsed (dib : bmp_dib) (map : Z) (pixmap : Z)
  | Rejected (err : EFI_STATUS).

Definition row_sizeof (dib : bmp_dib) : Z :=
  UINTN (UINTN (UINTN (UINTN (dib_depth dib * dib_x dib) + 31) / 32) * 4).

(** The [switch] on the depth, lines 74-93: [true] when the depth and
    compression pair is let through. *)
Definition depth_switch (dib : bmp_dib) : bool :=
  if (dib_depth dib =? 1) || (dib_depth dib =? 4) || (dib_depth dib =? 8) || (dib_depth dib =? 24) then
    dib_compression dib =? 0
  else if (dib_depth dib =? 16) || (dib_depth dib =? 32) then
    (dib_compression dib =? 0) || (dib_compression dib =? 3)
  else false.

(** Lines 110-124. *)
Definition map_count_of (dib : bmp_dib) : Z :=
  if negb (dib_colors_used dib =? 0) then dib_colors_used dib
  else if (dib_depth dib =? 1) || (dib_depth dib =? 4) || (dib_depth dib =? 8)
       then uint32 (Z.shiftl 1 (dib_depth dib))
       else 0.

Definition bmp_parse_header (bmp : memory) (size : Z) : parsed :=
  if size <? sizeof_bmp_file + sizeof_bmp_dib then Rejected EFI_INVALID_PARAMETER else
  (* check file header *)
  let file := bmp_file_at bmp 0 in
  if negb (file_signature0 file =? 66) || negb (file_signature1 file =? 77)
  then Rejected EFI_INVALID_PARAMETER else
  if negb (file_size file =? size) then Rejected EFI_INVALID_PARAMETER else
  if file_size file <? file_offset file then Rejected EFI_INVALID_PARAMETER else
  (* check device-independent bitmap *)
  let dib := bmp_dib_at bmp sizeof_bmp_file in
  if dib_size dib <? sizeof_bmp_dib then Rejected EFI_UNSUPPORTED else
  if negb (depth_switch dib) then Rejected EFI_UNSUPPORTED else
  let row_size := row_sizeof dib in
  if uint32 (file_size file - file_offset file) <? UINTN (dib_y dib * row_size)
  then Rejected EFI_INVALID_PARAMETER else
  if UINTN (row_size * dib_y dib) >? 64 * 1024 * 1024
  then Rejected EFI_INVALID_PARAMETER else
  (* check color table *)
  let map := sizeof_bmp_file + dib_size dib in
  if file_offset file <? UINTN (sizeof_bmp_file + dib_size dib)
  then Rejected EFI_INVALID_PARAMETER else
  if (file_offset file >? UINTN (sizeof_bmp_file + dib_size dib))
     && negb (UINTN (file_offset file - UINTN (sizeof_bmp_file + dib_size dib))
              =? UINTN (sizeof_bmp_map * map_count_of dib))
  then Rejected EFI_INVALID_PARAMETER
  else Parsed dib map (file_offset file).

(** ** Concrete images *)

Definition le16 (v : Z) : list Z := [v mod 256; v / 2 ^ 8 mod 256].
Definition le32 (v : Z) : list Z :=
  [v mod 256; v / 2 ^ 8 mod 256; v / 2 ^ 16 mod 256; v / 2 ^ 24 mod 256].

(** A file header and a 40-byte DIB header followed by [body] (colour
    table and pixel rows). *)
Definition bmp_bytes (sig0 sig1 fsize off w h bpp compr used : Z) (body : list Z) : list Z :=
  [sig0; sig1] ++ le32 fsize ++ le16 0 ++ le16 0 ++ le32 off
  ++ le32 40 ++ le32 w ++ le32 h ++ le16 1 ++ le16 bpp ++ le32 compr
  ++ le32 0 ++ le32 0 ++ le32 0 ++ le32 used ++ le32 0
  ++ body.

(** ** EFI_GRAPHICS_OUTPUT_BLT_PIXEL

    Four bytes in memory order blue, green, red, reserved.  [bmp_to_blt]
    also looks at a pixel through a pointer to [uint32_t]; on a little-endian
    machine that word is [pixel_word]. *)

Record EFI_GRAPHICS_OUTPUT_BLT_PIXEL : Type := {
  Blue : byte;
  Green : byte;
  Red : byte;
  Reserved : byte
}.

Definition pixel_word (p : EFI_GRAPHICS_OUTPUT_BLT_PIXEL) : Z :=
  byte.unsigned (Blue p) + 2 ^ 8 * byte.unsigned (Green p)
  + 2 ^ 16 * byte.unsigned (Red p) + 2 ^ 24 * byte.unsigned (Reserved p).

Definition word_pixel (w : Z) : EFI_GRAPHICS_OUTPUT_BLT_PIXEL :=
  {| Blue := byte.of_Z w;
     Green := byte.of_Z (Z.shiftr w 8);
     Red := byte.of_Z (Z.shiftr w 16);
     Reserved := byte.of_Z (Z.shiftr w 24) |}.

(** ** pixel_blend

    [dst] is the word behind the pointer; the result is the word stored
    back through it. *)

Definition pixel_blend (dst : Z) (source : Z) : Z :=
  let alpha := Z.land source 0xff in
  (* convert src from RGBA to XRGB *)
  let src := Z.shiftr source 8 in
  (* decompose into RB and G components *)
  let src_rb := Z.land src 0xff00ff in
  let src_g := Z.land src 0x00ff00 in
  let dst_rb := Z.land dst 0xff00ff in
  let dst_g := Z.land dst 0x00ff00 in
  (* blend *)
  let rb := Z.land (uint32 (Z.shiftr (uint32 (uint32 (uint32 (src_rb - dst_rb) * alpha)
                                              + 0x800080)) 8 + dst_rb)) 0xff00ff in
  let g := Z.land (uint32 (Z.shiftr (uint32 (uint32 (uint32 (src_g - dst_g) * alpha)
                                             + 0x008000)) 8 + dst_g)) 0x00ff00 in
  Z.lor rb g.

(** ** bmp_to_blt *)

Definition blt_buffer : Type := Z -> EFI_GRAPHICS_OUTPUT_BLT_PIXEL.

(** The variables the loops of [bmp_to_blt] change: the read pointer
    [in], the write pointer [out] (an index into [buf]), the column [x],
    and the buffer.  [cur_reads] is not in the C code: it lists the
    addresses read so far through the pointers [in] and [map], one entry
    for each byte of each load, in the order of the loads, the latest
    first.  The loads of [dib->x], [dib->y] and [dib->depth] in the loop
    tests and in the [switch] are not in it: the header is passed to the
    converter as the value [dib] that the caller has read at [bmp + 14],
    not as a pointer. *)
Record cursor : Type := {
  cur_in : Z;
  cur_out : Z;
  cur_x : Z;
  cur_buf : blt_buffer;
  cur_reads : list Z
}.

Definition set_in (v : Z) (s : cursor) : cursor :=
  {| cur_in := v; cur_out := cur_out s; cur_x := cur_x s;
     cur_buf := cur_buf s; cur_reads := cur_reads s |}.
Definition set_out (v : Z) (s : cursor) : cursor :=
  {| cur_in := cur_in s; cur_out := v; cur_x := cur_x s;
     cur_buf := cur_buf s; cur_reads := cur_reads s |}.
Definition set_x (v : Z) (s : cursor) : cursor :=
  {| cur_in := cur_in s; cur_out := cur_out s; cur_x := v;
     cur_buf := cur_buf s; cur_reads := cur_reads s |}.
Definition touch (a : Z) (s : cursor) : cursor :=
  {| cur_in := cur_in s; cur_out := cur_out s; cur_x := cur_x s;
     cur_buf := cur_buf s; cur_reads := a :: cur_reads s |}.

Definition upd (buf : blt_buffer) (i : Z) (p : EFI_GRAPHICS_OUTPUT_BLT_PIXEL) : blt_buffer :=
  fun j => if j =? i then p else buf j.

(** [out->Red = r], [out->Green = g], [out->Blue = b]: the reserved byte
    of the pixel stays. *)
Definition store_rgb (r g b : Z) (s : cursor) : cursor :=
  {| cur_in := cur_in s; cur_out := cur_out s; cur_x := cur_x s;
     cur_buf := upd (cur_buf s) (cur_out s)
                    {| Blue := byte.of_Z b; Green := byte.of_Z g; Red := byte.of_Z r;
                       Reserved := Reserved (cur_buf s (cur_out s)) |};
     cur_reads := cur_reads s |}.

(** The call of [pixel_blend] on the pixel at [out], seen as one word,
    and the source word [i]. *)
Definition store_blend (i : Z) (s : cursor) : cursor :=
  {| cur_in := cur_in s; cur_out := cur_out s; cur_x := cur_x s;
     cur_buf := upd (cur_buf s) (cur_out s)
                    (word_pixel (pixel_blend (pixel_word (cur_buf s (cur_out s))) i));
     cur_reads := cur_reads s |}.

Section Converter.

Variable bmp : memory.
Variable dib : bmp_dib.
Variable map : Z.
Variable pixmap : Z.

(** The three assignments [out->C = map[e].c] of the cases 1 and 8, where
    the index [e] is an expression in [*in] (lines 186-188 and 216-218):
    each of them reads the byte at [in] and one byte of the colour table.
    [i] is the value of [e]. *)
Definition store_map (i : Z) (s : cursor) : cursor :=
  let s := touch (map_red map i) (touch (cur_in s) s) in
  let s := touch (map_green map i) (touch (cur_in s) s) in
  let s := touch (map_blue map i) (touch (cur_in s) s) in
  store_rgb (rd8 bmp (map_red map i)) (rd8 bmp (map_green map i))
            (rd8 bmp (map_blue map i)) s.

(** Lines 185-191: [for (UINTN i = 0; i < 8 && x < dib->x; i++)]. *)
Fixpoint case_1_loop (fuel : nat) (i : Z) (s : cursor) : cursor :=
  match fuel with
  | O => s
  | S fuel' =>
    if (i <? 8) && (cur_x s <? dib_x dib) then
      let s := store_map (Z.land (Z.shiftr (rd8 bmp (cur_in s)) (UINTN (7 - i))) 1) s in
      let s := set_out (cur_out s + 1) s in
      let s := set_x (UINTN (cur_x s + 1)) s in
      case_1_loop fuel' (UINTN (i + 1)) s
    else s
  end.

Definition case_1 (s : cursor) : cursor :=
  let s := case_1_loop 8 0 s in
  let s := set_out (cur_out s - 1) s in
  set_x (UINTN (cur_x s - 1)) s.

(** The three assignments [out->C = map[i].c] of case 4, where the index
    is in the local [i] (lines 201-203 and 208-210): each of them reads one
    byte of the colour table. *)
Definition store_index (i : Z) (s : cursor) : cursor :=
  let s := touch (map_blue map i) (touch (map_green map i) (touch (map_red map i) s)) in
  store_rgb (rd8 bmp (map_red map i)) (rd8 bmp (map_green map i))
            (rd8 bmp (map_blue map i)) s.

(** Lines 197-213; the byte at [in] is read once for each half. *)
Definition case_4 (s : cursor) : cursor :=
  let i := Z.shiftr (rd8 bmp (cur_in s)) 4 in
  let s := touch (cur_in s) s in
  let s := store_index i s in
  if cur_x s <? uint32 (dib_x dib - 1) then
    let s := set_out (cur_out s + 1) s in
    let s := set_x (UINTN (cur_x s + 1)) s in
    let i := Z.land (rd8 bmp (cur_in s)) 0x0f in
    let s := touch (cur_in s) s in
    store_index i s
  else s.

Definition case_8 (s : cursor) : cursor :=
  store_map (rd8 bmp (cur_in s)) s.

Definition case_16 (s : cursor) : cursor :=
  let i := rd16 bmp (cur_in s) in
  let s := touch (cur_in s + 1) (touch (cur_in s) s) in
  let s := store_rgb (Z.shiftr (Z.land i 0x7c00) 7)
                     (Z.shiftr (Z.land i 0x3e0) 2)
                     (Z.shiftl (Z.land i 0x1f) 3) s in
  set_in (cur_in s + 1) s.

Definition case_24 (s : cursor) : cursor :=
  let s := touch (cur_in s) (touch (cur_in s + 1) (touch (cur_in s + 2) s)) in
  let s := store_rgb (rd8 bmp (cur_in s + 2)) (rd8 bmp (cur_in s + 1))
                     (rd8 bmp (cur_in s)) s in
  set_in (cur_in s + 2) s.

Definition case_32 (s : cursor) : cursor :=
  let i := rd32 bmp (cur_in s) in
  let s := touch (cur_in s + 3) (touch (cur_in s + 2)
             (touch (cur_in s + 1) (touch (cur_in s) s))) in
  let s := store_blend i s in
  set_in (cur_in s + 3) s.

(** The [switch (dib->depth)] of lines 183-246; it has no default. *)
Definition switch_depth (s : cursor) : cursor :=
  if dib_depth dib =? 1 then case_1 s
  else if dib_depth dib =? 4 then case_4 s
  else if dib_depth dib =? 8 then case_8 s
  else if dib_depth dib =? 16 then case_16 s
  else if dib_depth dib =? 24 then case_24 s
  else if dib_depth dib =? 32 then case_32 s
  else s.

(** Line 182: [for (UINTN x = 0; x < dib->x; x++, in++, out++)]. *)
Fixpoint x_loop (fuel : nat) (s : cursor) : cursor :=
  match fuel with
  | O => s
  | S fuel' =>
    if cur_x s <? dib_x dib then
      let s := switch_depth s in
      x_loop fuel' (set_out (cur_out s + 1) (set_in (cur_in s + 1)
                      (set_x (UINTN (cur_x s + 1)) s)))
    else s
  end.

(** The body of the loop over [y], lines 178-251.  A pass of the inner
    loop moves [x] forward by at least one, so [dib->x] passes are
    enough for it to reach its exit ([x_loop_exits] below). *)
Definition y_body (y : Z) (s : cursor) : cursor :=
  let s := set_out (UINTN (UINTN (UINTN (dib_y dib - y) - 1) * dib_x dib)) s in
  let s := x_loop (Z.to_nat (dib_x dib)) (set_x 0 s) in
  (* add row padding; new lines always start at 32 bit boundary *)
  let row_size := UINTN (cur_in s - pixmap) in
  set_in (cur_in s + UINTN (Z.land (UINTN (row_size + 3)) (UINTN (Z.lnot 3)) - row_size)) s.

(** Line 177: [for (UINTN y = 0; y < dib->y; y++)]. *)
Fixpoint y_loop (fuel : nat) (y : Z) (s : cursor) : cursor :=
  match fuel with
  | O => s
  | S fuel' =>
    if y <? dib_y dib then y_loop fuel' (UINTN (y + 1)) (y_body y s) else s
  end.

Definition bmp_to_blt_start (buf : blt_buffer) : cursor :=
  {| cur_in := pixmap; cur_out := 0; cur_x := 0; cur_buf := buf; cur_reads := [] |}.

(** The state of the converter after [n] passes of the loop over [y]. *)
Definition after_rows (n : nat) (buf : blt_buffer) : cursor :=
  y_loop n 0 (bmp_to_blt_start buf).

(** The whole function: the status returned, the buffer as it is left,
    and the addresses read through [in] and [map]. *)
Definition bmp_to_blt (buf : blt_buffer) : EFI_STATUS * blt_buffer * list Z :=
  let s := after_rows (Z.to_nat (dib_y dib)) buf in
  (EFI_SUCCESS, cur_buf s, cur_reads s).

End Converter.

(** ** The display

    [graphics_splash] reaches the display through the firmware's Graphics
    Output Protocol and through [graphics_mode] of graphics.c.  Neither is
    part of splash.c.  What they answer is a parameter ([firmware]); what a
    successful [Blt] does to the screen is the effect the UEFI
    specification gives for the three operations used. *)

Inductive EFI_GRAPHICS_OUTPUT_BLT_OPERATION : Type :=
  | EfiBltVideoFill
  | EfiBltVideoToBltBuffer
  | EfiBltBufferToVideo.

(** A call that reached the display, with the arguments of the C call. *)
Inductive display_call : Type :=
  | CallBlt (op : EFI_GRAPHICS_OUTPUT_BLT_OPERATION)
            (SourceX SourceY DestinationX DestinationY Width Height : Z)
  | CallGraphicsMode.

Record screen : Type := {
  HorizontalResolution : Z;
  VerticalResolution : Z;
  video : Z -> Z -> EFI_GRAPHICS_OUTPUT_BLT_PIXEL;
  graphics : bool;
  calls : list display_call
}.

Record firmware : Type := {
  (* strcaseeq16(u"Apple", ST->FirmwareVendor) *)
  vendor_is_apple : bool;
  (* what BS->LocateProtocol answers for the Graphics Output Protocol *)
  LocateProtocol : EFI_STATUS;
  (* what GraphicsOutput->Blt answers for each operation *)
  Blt_status : EFI_GRAPHICS_OUTPUT_BLT_OPERATION -> EFI_STATUS;
  (* what graphics_mode(TRUE) answers *)
  graphics_mode_status : EFI_STATUS;
  (* the contents of the memory xnew() hands out *)
  pool : blt_buffer
}.

Definition is_error (err : EFI_STATUS) : bool :=
  match err with EFI_SUCCESS => false | _ => true end.

Definition in_rect (i j left top w h : Z) : bool :=
  (left <=? i) && (i <? left + w) && (top <=? j) && (j <? top + h).

Definition record_call (c : display_call) (scr : screen) : screen :=
  {| HorizontalResolution := HorizontalResolution scr;
     VerticalResolution := VerticalResolution scr;
     video := video scr; graphics := graphics scr;
     calls := calls scr ++ [c] |}.

Definition set_video (v : Z -> Z -> EFI_GRAPHICS_OUTPUT_BLT_PIXEL) (scr : screen) : screen :=
  {| HorizontalResolution := HorizontalResolution scr;
     VerticalResolution := VerticalResolution scr;
     video := v; graphics := graphics scr; calls := calls scr |}.

(** [GraphicsOutput->Blt(GraphicsOutput, BltBuffer, op, sx, sy, dx, dy, w, h, 0)].
    The last argument (Delta) is 0 in every call of splash.c: a row of the
    buffer is [w] pixels long.  A call that fails leaves screen and buffer
    as they were. *)
Definition Blt (fw : firmware) (scr : screen) (BltBuffer : blt_buffer)
           (op : EFI_GRAPHICS_OUTPUT_BLT_OPERATION) (sx sy dx dy w h : Z)
  : EFI_STATUS * screen * blt_buffer :=
  let scr := record_call (CallBlt op sx sy dx dy w h) scr in
  if is_error (Blt_status fw op) then (Blt_status fw op, scr, BltBuffer) else
  match op with
  | EfiBltVideoFill =>
      (EFI_SUCCESS,
       set_video (fun i j => if in_rect i j dx dy w h then BltBuffer 0
                             else video scr i j) scr,
       BltBuffer)
  | EfiBltVideoToBltBuffer =>
      (EFI_SUCCESS, scr,
       fun k => if in_rect (k mod w) (k / w) dx dy w h
                then video scr (k mod w - dx + sx) (k / w - dy + sy)
                else BltBuffer k)
  | EfiBltBufferToVideo =>
      (EFI_SUCCESS,
       set_video (fun i j => if in_rect i j dx dy w h
                             then BltBuffer ((j - dy + sy) * w + (i - dx + sx))
                             else video scr i j) scr,
       BltBuffer)
  end.

(** [graphics_mode(TRUE)] of graphics.c, as far as the screen shows it. *)
Definition graphics_mode (fw : firmware) (scr : screen) : EFI_STATUS * screen :=
  let scr := record_call CallGraphicsMode scr in
  if is_error (graphics_mode_status fw) then (graphics_mode_status fw, scr)
  else (EFI_SUCCESS,
        {| HorizontalResolution := HorizontalResolution scr;
           VerticalResolution := VerticalResolution scr;
           video := video scr; graphics := true; calls := calls scr |}).

(** ** graphics_splash *)

Definition black : EFI_GRAPHICS_OUTPUT_BLT_PIXEL := word_pixel 0.
Definition apple_grey : EFI_GRAPHICS_OUTPUT_BLT_PIXEL := word_pixel 0xc0c0c0.

(** Lines 290-293. *)
Definition x_pos_of (scr : screen) (dib : bmp_dib) : Z :=
  if dib_x dib <? HorizontalResolution scr
  then uint32 (HorizontalResolution scr - dib_x dib) / 2 else 0.

Definition y_pos_of (scr : screen) (dib : bmp_dib) : Z :=
  if dib_y dib <? VerticalResolution scr
  then uint32 (VerticalResolution scr - dib_y dib) / 2 else 0.

(** [background] is a pointer that may be NULL.  The buffer [blt] is a
    function on all indices here; the C code allocates room for
    [dib->x * dib->y] pixels, the product taken in 32 bits. *)
Definition graphics_splash (fw : firmware) (scr : screen)
           (content : memory) (len : Z)
           (background : option EFI_GRAPHICS_OUTPUT_BLT_PIXEL)
  : EFI_STATUS * screen :=
  if len =? 0 then (EFI_SUCCESS, scr) else
  let background :=
    match background with
    | Some p => p
    | None => if vendor_is_apple fw then apple_grey else black
    end in
  if is_error (LocateProtocol fw) then (LocateProtocol fw, scr) else
  match bmp_parse_header content len with
  | Rejected err => (err, scr)
  | Parsed dib map pixmap =>
    let x_pos := x_pos_of scr dib in
    let y_pos := y_pos_of scr dib in
    let '(err, scr, _) :=
      Blt fw scr (fun _ => background) EfiBltVideoFill 0 0 0 0
          (HorizontalResolution scr) (VerticalResolution scr) in
    if is_error err then (err, scr) else
    (* EFI buffer *)
    let blt := pool fw in
    let '(err, scr, blt) :=
      Blt fw scr blt EfiBltVideoToBltBuffer x_pos y_pos 0 0 (dib_x dib) (dib_y dib) in
    if is_error err then (err, scr) else
    let '(err, blt, _) := bmp_to_blt content dib map pixmap blt in
    if is_error err then (err, scr) else
    let '(err, scr) := graphics_mode fw scr in
    if is_error err then (err, scr) else
    let '(err, scr, _) :=
      Blt fw scr blt EfiBltBufferToVideo 0 0 x_pos y_pos (dib_x dib) (dib_y dib) in
    (err, scr)
  end.

(** ** Reference definitions

    What the specification says, written without reference to the code;
    the theorems below compare the code with these. *)

(** Byte [k / 8] of a word. *)
Definition channel (w k : Z) : Z := Z.land (Z.shiftr w k) 0xff.

(** Linear interpolation of one channel, rounding constant 0x80, the
    quotient rounded down. *)
Definition lerp (d s a : Z) : Z := d + ((s - d) * a + 0x80) / 256.

(** Length of a stored row: [ceil (depth * width / 32) * 4]. *)
Definition stride (dib : bmp_dib) : Z := (dib_depth dib * dib_x dib + 31) / 32 * 4.

(** Number of colour table entries the header announces. *)
Definition paletteEntryCount (dib : bmp_dib) : Z :=
  if dib_colors_used dib =? 0
  then (if dib_depth dib <=? 8 then 2 ^ dib_depth dib else 0)
  else dib_colors_used dib.

(** The checks of the validator that come before the colour table check,
    in the order of the specification. *)
Definition earlier_checks (bmp : memory) (size : Z) : bool :=
  let file := bmp_file_at bmp 0 in
  let dib := bmp_dib_at bmp sizeof_bmp_file in
  (54 <=? size)
  && (file_signature0 file =? 66) && (file_signature1 file =? 77)
  && (file_size file =? size)
  && (file_offset file <=? file_size file)
  && (40 <=? dib_size dib)
  && depth_switch dib
  && (UINTN (dib_y dib * row_sizeof dib) <=? uint32 (file_size file - file_offset file))
  && (UINTN (row_sizeof dib * dib_y dib) <=? 64 * 1024 * 1024).

(** The colour [i] of the table at [map], stored over [old]. *)
Definition palette_pixel (bmp : memory) (map i : Z) (old : EFI_GRAPHICS_OUTPUT_BLT_PIXEL)
  : EFI_GRAPHICS_OUTPUT_BLT_PIXEL :=
  {| Blue := byte.of_Z (rd8 bmp (map_blue map i));
     Green := byte.of_Z (rd8 bmp (map_green map i));
     Red := byte.of_Z (rd8 bmp (map_red map i));
     Reserved := Reserved old |}.

(** Pixel [x] of the stored row that starts at address [row], decoded over
    the pixel [old] that the buffer held. *)
Definition decoded_pixel (bmp : memory) (dib : bmp_dib) (map row x : Z)
           (old : EFI_GRAPHICS_OUTPUT_BLT_PIXEL) : EFI_GRAPHICS_OUTPUT_BLT_PIXEL :=
  if dib_depth dib =? 1 then
    palette_pixel bmp map (Z.land (Z.shiftr (rd8 bmp (row + x / 8)) (7 - x mod 8)) 1) old
  else if dib_depth dib =? 4 then
    palette_pixel bmp map
      (if x mod 2 =? 0 then Z.shiftr (rd8 bmp (row + x / 2)) 4
       else Z.land (rd8 bmp (row + x / 2)) 0x0f) old
  else if dib_depth dib =? 8 then
    palette_pixel bmp map (rd8 bmp (row + x)) old
  else if dib_depth dib =? 16 then
    let w := rd16 bmp (row + 2 * x) in
    {| Blue := byte.of_Z (Z.shiftl (Z.land w 0x001F) 3);
       Green := byte.of_Z (Z.shiftr (Z.land w 0x03E0) 2);
       Red := byte.of_Z (Z.shiftr (Z.land w 0x7C00) 7);
       Reserved := Reserved old |}
  else if dib_depth dib =? 24 then
    {| Blue := byte.of_Z (rd8 bmp (row + 3 * x));
       Green := byte.of_Z (rd8 bmp (row + 3 * x + 1));
       Red := byte.of_Z (rd8 bmp (row + 3 * x + 2));
       Reserved := Reserved old |}
  else
    word_pixel (pixel_blend (pixel_word old) (rd32 bmp (row + 4 * x))).

(** Bytes of a stored row taken by its first [x] pixels. *)
Definition row_bytes (dib : bmp_dib) (x : Z) : Z := (dib_depth dib * x + 7) / 8.

(** The colour [graphics_splash] fills the screen with: the caller's, or
    without one grey on Apple firmware and black elsewhere (lines
    273-280). *)
Definition resolved_background (fw : firmware)
           (background : option EFI_GRAPHICS_OUTPUT_BLT_PIXEL)
  : EFI_GRAPHICS_OUTPUT_BLT_PIXEL :=
  match background with
  | Some p => p
  | None => if vendor_is_apple fw then apple_grey else black
  end.

(** ** Where the converter may read through [in] and [map]

    A byte of the pixel rows proper (not of their padding), and a byte of
    the blue, green or red field of one of the first [2 ^ depth] entries
    of the colour table. *)

Definition pixel_byte (dib : bmp_dib) (pixmap a : Z) : Prop :=
  exists k, 0 <= k < dib_y dib
            /\ pixmap + k * stride dib <= a
               < pixmap + k * stride dib + row_bytes dib (dib_x dib).

Definition table_byte (dib : bmp_dib) (map a : Z) : Prop :=
  dib_depth dib <= 8
  /\ exists i c, 0 <= i < 2 ^ dib_depth dib /\ 0 <= c < 3 /\ a = map + 4 * i + c.

(** ** Invariants of the converter's loops *)

Definition supported_depth (d : Z) : Prop :=
  d = 1 \/ d = 4 \/ d = 8 \/ d = 16 \/ d = 24 \/ d = 32.

Section ConverterInvariants.

Variable bmp : memory.
Variable dib : bmp_dib.
Variable map : Z.
Variable pixmap : Z.

(** The buffer [b] with the first [n] pixels of the stored row at [r]
    decoded into the indices [o], [o+1], ... *)
Definition filled (r o : Z) (b : blt_buffer) (n : Z) : blt_buffer :=
  fun i => if (o <=? i) && (i <? o + n)
           then decoded_pixel bmp dib map r (i - o) (b i) else b i.

(** The state of the inner loop when [x0] pixels of the row at [r] are
    done: the invariant of [x_loop]. *)
Record row_inv (r o : Z) (b : blt_buffer) (x0 : Z) (s : cursor) : Prop := {
  inv_x : cur_x s = x0;
  inv_in : cur_in s = r + row_bytes dib x0;
  inv_out : cur_out s = o + x0;
  inv_buf : forall i, cur_buf s i = filled r o b x0 i;
  inv_whole : x0 = dib_x dib \/ (dib_depth dib * x0) mod 8 = 0
}.

(** One pass of the inner loop: the [switch], then [x++, in++, out++]. *)
Definition x_next (s : cursor) : cursor :=
  let s := switch_depth bmp dib map s in
  set_out (cur_out s + 1) (set_in (cur_in s + 1) (set_x (UINTN (cur_x s + 1)) s)).

(** The buffer [buf0] with the last [n] output rows decoded, each from
    the stored row that mirrors it. *)
Definition decoded_image (buf0 : blt_buffer) (n : Z) : blt_buffer :=
  fun i => if ((dib_y dib - n) * dib_x dib <=? i) && (i <? dib_y dib * dib_x dib)
           then decoded_pixel bmp dib map
                  (pixmap + (dib_y dib - 1 - i / dib_x dib) * stride dib)
                  (i mod dib_x dib) (buf0 i)
           else buf0 i.

End ConverterInvariants.

(** ** Writing an image of depth 24

    The file that holds the picture [image] ([image x y] is the pixel of
    column [x] in row [y], row 0 on top) the way the format wants it: the
    two headers, no colour table, the rows from the bottom one up, each
    pixel as blue, green, red, each row filled up with zeroes to a multiple
    of 4 bytes.  The code has no such function; it is what the converter
    is checked against. *)

Definition stride_24 (w : Z) : Z := (24 * w + 31) / 32 * 4.

Definition columns (n : Z) : list Z := List.map Z.of_nat (seq 0 (Z.to_nat n)).

Definition bgr (p : EFI_GRAPHICS_OUTPUT_BLT_PIXEL) : list Z :=
  [byte.unsigned (Blue p); byte.unsigned (Green p); byte.unsigned (Red p)].

Definition row_24 (w : Z) (line : Z -> EFI_GRAPHICS_OUTPUT_BLT_PIXEL) : list Z :=
  flat_map (fun x => bgr (line x)) (columns w)
  ++ repeat 0 (Z.to_nat (stride_24 w - 3 * w)).

Definition encode_24 (w h : Z) (image : Z -> Z -> EFI_GRAPHICS_OUTPUT_BLT_PIXEL) : list Z :=
  bmp_bytes 66 77 (54 + h * stride_24 w) 54 w h 24 0 0
            (flat_map (fun k => row_24 w (fun x => image x (h - 1 - k))) (columns h)).

(** ** Images and screens used in the examples *)

Definition rgb (r g b : Z) : EFI_GRAPHICS_OUTPUT_BLT_PIXEL :=
  {| Blue := byte.of_Z b; Green := byte.of_Z g; Red := byte.of_Z r;
     Reserved := byte.of_Z 0 |}.

(** A 2x2 image of depth 24: 70 bytes, two rows of 8 bytes. *)
Definition body_2x2 : list Z := [1; 2; 3; 4; 5; 6; 0; 0; 7; 8; 9; 10; 11; 12; 0; 0].
Definition image_2x2 : list Z := bmp_bytes 66 77 70 54 2 2 24 0 0 body_2x2.

(** A 20x20 image of depth 24: 1254 bytes, twenty rows of 60 bytes. *)
Definition image_20x20 : list Z := bmp_bytes 66 77 1254 54 20 20 24 0 0 (repeat 9 1200).

(** A 1x1 image of depth 8 with a colour table of two entries: 66 bytes. *)
Definition body_1x1 : list Z := [10; 20; 30; 0; 40; 50; 60; 0; 1; 0; 0; 0].
Definition image_1x1 : list Z := bmp_bytes 66 77 66 62 1 1 8 0 2 body_1x1.

(** The five malformed inputs of the specification's header tests. *)
Definition input_10_bytes : list Z := firstn 10 image_2x2.
Definition input_BZ : list Z := bmp_bytes 66 90 70 54 2 2 24 0 0 body_2x2.
Definition input_size_less : list Z := bmp_bytes 66 77 69 54 2 2 24 0 0 body_2x2.
Definition input_depth_2 : list Z := bmp_bytes 66 77 66 62 1 1 2 0 2 body_1x1.
Definition input_rle_8 : list Z := bmp_bytes 66 77 66 62 1 1 8 1 2 body_1x1.

Definition five_rejections : list parsed :=
  [ bmp_parse_header (load input_10_bytes) 10;
    bmp_parse_header (load input_BZ) 70;
    bmp_parse_header (load input_size_less) 70;
    bmp_parse_header (load input_depth_2) 66;
    bmp_parse_header (load input_rle_8) 66 ].

(** An 8-bit image that declares 16 colours; [span] is the number of
    bytes between the DIB header and the pixel row. *)
Definition image_16_colours (span : Z) : list Z :=
  bmp_bytes 66 77 (54 + span + 4) (54 + span) 1 1 8 0 16
            (repeat 0 (Z.to_nat span) ++ [0; 0; 0; 0]).

(** A 1x1 image of depth 8 whose colour table has one entry and whose
    only pixel holds the index 255: 62 bytes. *)
Definition image_index_255 : list Z :=
  bmp_bytes 66 77 62 58 1 1 8 0 1 [10; 20; 30; 0; 255; 0; 0; 0].

(** A 3x2 image of depth 16: 70 bytes, two rows of 8 bytes. *)
Definition image_3x2_16 : list Z :=
  bmp_bytes 66 77 70 54 3 2 16 0 0
            [0xFF; 0x7F; 0x00; 0x7C; 0xE0; 0x03; 0; 0;
             0x1F; 0x00; 0x34; 0x12; 0xFF; 0xFF; 0; 0].

(** A 10x2 image of depth 1 with its two colours: 70 bytes, two rows of
    4 bytes of which 2 hold pixels. *)
Definition image_10x2_1 : list Z :=
  bmp_bytes 66 77 70 62 10 2 1 0 0
            [10; 20; 30; 0; 40; 50; 60; 0; 0xAA; 0x40; 0; 0; 0xFF; 0x80; 0; 0].

(** A 2x1 image of depth 32: 62 bytes, one row of 8 bytes; the bytes of a
    pixel are alpha, blue, green, red. *)
Definition image_2x1_32 : list Z :=
  bmp_bytes 66 77 62 54 2 1 32 0 0 [128; 0; 0; 255; 255; 10; 20; 30].

(** Headers only, 54 bytes: depth 32, width and height 2^31. *)
Definition image_wrapped : list Z :=
  bmp_bytes 66 77 54 54 (2 ^ 31) (2 ^ 31) 32 0 0 [].

(** A firmware on which every call succeeds, and a 10x10 screen. *)
Definition firmware_ok : firmware :=
  {| vendor_is_apple := false;
     LocateProtocol := EFI_SUCCESS;
     Blt_status := fun _ => EFI_SUCCESS;
     graphics_mode_status := EFI_SUCCESS;
     pool := fun _ => black |}.

Definition screen_10x10 : screen :=
  {| HorizontalResolution := 10;
     VerticalResolution := 10;
     video := fun _ _ => rgb 1 2 3;
     graphics := false;
     calls := [] |}.

(** A firmware on which everything succeeds but the final write to the
    screen. *)
Definition firmware_write_fails : firmware :=
  {| vendor_is_apple := false;
     LocateProtocol := EFI_SUCCESS;
     Blt_status := fun op => match op with
                             | EfiBltBufferToVideo => EFI_DEVICE_ERROR
                             | _ => EFI_SUCCESS
                             end;
     graphics_mode_status := EFI_SUCCESS;
     pool := fun _ => black |}.

(** The whole screen shows the colour [p]. *)
Definition filled_with (p : EFI_GRAPHICS_OUTPUT_BLT_PIXEL) (scr : screen) : Prop :=
  forall i j, 0 <= i < HorizontalResolution scr -> 0 <= j < VerticalResolution scr ->
              video scr i j = p.

(** * Properties *)

(** ** The alpha blender *)


Lemma channel_div (w k : Z) : 0 <= k -> channel w k = (w / 2 ^ k) mod 256.
Proof.
  intros Hk. unfold channel. rewrite Z.shiftr_div_pow2 by assumption.
  change 0xff with (Z.ones 8). rewrite Z.land_ones by lia. reflexivity.
Qed.

Lemma channel_range (w k : Z) : 0 <= channel w k < 256.
Proof.
  unfold channel. change 0xff with (Z.ones 8). rewrite Z.land_ones by lia.
  apply Z.mod_pos_bound. lia.
Qed.

Lemma land_rb (t : Z) :
  Z.land t 0xff00ff = t mod 256 + 65536 * ((t / 65536) mod 256).
Proof.
  transitivity (Z.lor (Z.land t (Z.ones 8)) (Z.shiftl (Z.land (Z.shiftr t 16) (Z.ones 8)) 16)).
  - change 0xff00ff with (Z.lor (Z.ones 8) (Z.shiftl (Z.ones 8) 16)).
    Z.bitblast.
  - rewrite Z.or_to_plus by Z.bitblast.
    rewrite !Z.land_ones, Z.shiftl_mul_pow2, Z.shiftr_div_pow2 by lia.
    change (2 ^ 8) with 256. change (2 ^ 16) with 65536. lia.
Qed.

Lemma land_g (t : Z) : Z.land t 0x00ff00 = 256 * ((t / 256) mod 256).
Proof.
  transitivity (Z.shiftl (Z.land (Z.shiftr t 8) (Z.ones 8)) 8).
  - change 0x00ff00 with (Z.shiftl (Z.ones 8) 8). Z.bitblast.
  - rewrite !Z.land_ones, Z.shiftl_mul_pow2, Z.shiftr_div_pow2 by lia.
    change (2 ^ 8) with 256. lia.
Qed.

Lemma lor_rb_g (b g r : Z) :
  0 <= b < 256 -> 0 <= g < 256 -> 0 <= r < 256 ->
  Z.lor (b + 65536 * r) (256 * g) = b + 256 * g + 65536 * r.
Proof.
  intros Hb Hg Hr.
  rewrite Z.or_to_plus; [lia|].
  replace b with (b mod 2^8) by (apply Z.mod_small; lia).
  replace g with (g mod 2^8) by (apply Z.mod_small; lia).
  replace r with (r mod 2^8) by (apply Z.mod_small; lia).
  rewrite <- !Z.land_ones by lia.
  replace (65536 * Z.land r (Z.ones 8)) with (Z.shiftl (Z.land r (Z.ones 8)) 16) by (rewrite Z.shiftl_mul_pow2; lia).
  replace (256 * Z.land g (Z.ones 8)) with (Z.shiftl (Z.land g (Z.ones 8)) 8) by (rewrite Z.shiftl_mul_pow2; lia).
  rewrite <- Z.or_to_plus by Z.bitblast.
  Z.bitblast.
Qed.

Lemma lerp_range (d s a : Z) :
  0 <= d < 256 -> 0 <= s < 256 -> 0 <= a < 256 -> 0 <= lerp d s a < 256.
Proof.
  intros Hd Hs Ha. unfold lerp.
  assert (H : 0 <= 256 * d + ((s - d) * a + 0x80) < 65536) by nia.
  change 0x80 with 128 in *.
  Z.div_mod_to_equations. lia.
Qed.

(* The packed computation of one line of the blend, with its 32-bit
   wrap-around, against the same formula on unbounded integers. *)
Lemma blend_line (sv dv a c : Z) :
  0 <= dv + ((sv - dv) * a + c) / 256 < 2 ^ 24 ->
  - 2 ^ 32 <= (sv - dv) * a + c < 2 ^ 32 ->
  0 <= dv ->
  exists k, (k = 0 \/ k = 1) /\
  uint32 (Z.shiftr (uint32 (uint32 (uint32 (sv - dv) * a) + c)) 8 + dv)
  = dv + ((sv - dv) * a + c) / 256 + 2 ^ 24 * k.
Proof.
  intros Hr Hv Hd. unfold uint32.
  rewrite Z.mul_mod_idemp_l, Z.add_mod_idemp_l by lia.
  rewrite Z.shiftr_div_pow2 by lia.
  set (v := (sv - dv) * a + c) in *.
  change (2 ^ 8) with 256. change (2 ^ 32) with 4294967296 in *. change (2 ^ 24) with 16777216 in *.
  clearbody v.
  destruct (Z.lt_ge_cases v 0) as [Hneg | Hpos].
  - exists 1. split; [now right|]. Z.div_mod_to_equations. lia.
  - exists 0. split; [now left|]. Z.div_mod_to_equations. lia.
Qed.

Lemma rb_of (w k : Z) : 0 <= k ->
  Z.land (Z.shiftr w k) 0xff00ff = channel w k + 65536 * channel w (k + 16).
Proof.
  intros Hk. rewrite land_rb, !channel_div by lia.
  rewrite Z.shiftr_div_pow2 by lia.
  rewrite Z.pow_add_r, Z.div_div by lia. reflexivity.
Qed.

Lemma g_of (w k : Z) : 0 <= k ->
  Z.land (Z.shiftr w k) 0x00ff00 = 256 * channel w (k + 8).
Proof.
  intros Hk. rewrite land_g, !channel_div by lia.
  rewrite Z.shiftr_div_pow2 by lia.
  rewrite Z.pow_add_r, Z.div_div by lia. reflexivity.
Qed.

Lemma blend_rb (rs bs rd bd a : Z) :
  0 <= rs < 256 -> 0 <= bs < 256 -> 0 <= rd < 256 -> 0 <= bd < 256 -> 0 <= a < 256 ->
  let src_rb := bs + 65536 * rs in
  let dst_rb := bd + 65536 * rd in
  Z.land (uint32 (Z.shiftr (uint32 (uint32 (uint32 (src_rb - dst_rb) * a) + 0x800080)) 8
                  + dst_rb)) 0xff00ff
  = lerp bd bs a + 65536 * lerp rd rs a
  /\ Z.land (dst_rb + ((src_rb - dst_rb) * a + 0x800080) / 256) 0xff00ff
     = lerp bd bs a + 65536 * lerp rd rs a.
Proof.
  intros Hrs Hbs Hrd Hbd Ha src_rb dst_rb.
  pose proof (lerp_range rd rs a Hrd Hrs Ha) as Lr.
  pose proof (lerp_range bd bs a Hbd Hbs Ha) as Lb.
  unfold lerp in *. change 0x80 with 128 in *.
  assert (E : (src_rb - dst_rb) * a + 0x800080
              = 65536 * ((rs - rd) * a + 128) + ((bs - bd) * a + 128))
    by (unfold src_rb, dst_rb; ring).
  assert (Pr : 0 <= 256 * rd + ((rs - rd) * a + 128) < 65536) by nia.
  assert (Pb : 0 <= 256 * bd + ((bs - bd) * a + 128) < 65536) by nia.
  assert (Br : - 65536 < (rs - rd) * a < 65536) by nia.
  assert (Bb : - 65536 < (bs - bd) * a < 65536) by nia.
  destruct (blend_line src_rb dst_rb a 0x800080) as (k & Hk & ->).
  - rewrite E. unfold dst_rb. revert Pr Pb Br Bb.
    generalize ((rs - rd) * a) ((bs - bd) * a). intros p q. intros.
    change (2 ^ 24) with 16777216. Z.div_mod_to_equations. lia.
  - rewrite E. lia.
  - unfold dst_rb. lia.
  - rewrite !land_rb. rewrite E. unfold dst_rb. revert Lr Lb Pr Pb Br Bb.
    generalize ((rs - rd) * a) ((bs - bd) * a). intros p q. intros.
    change (2 ^ 24) with 16777216.
    split; destruct Hk as [-> | ->]; Z.div_mod_to_equations; lia.
Qed.

Lemma blend_g (gs gd a : Z) :
  0 <= gs < 256 -> 0 <= gd < 256 -> 0 <= a < 256 ->
  let src_g := 256 * gs in
  let dst_g := 256 * gd in
  Z.land (uint32 (Z.shiftr (uint32 (uint32 (uint32 (src_g - dst_g) * a) + 0x008000)) 8
                  + dst_g)) 0x00ff00
  = 256 * lerp gd gs a
  /\ Z.land (dst_g + ((src_g - dst_g) * a + 0x008000) / 256) 0x00ff00
     = 256 * lerp gd gs a.
Proof.
  intros Hgs Hgd Ha src_g dst_g.
  pose proof (lerp_range gd gs a Hgd Hgs Ha) as Lg.
  unfold lerp in *. change 0x80 with 128 in *.
  assert (E : (src_g - dst_g) * a + 0x008000 = 256 * ((gs - gd) * a + 128))
    by (unfold src_g, dst_g; ring).
  assert (Pg : 0 <= 256 * gd + ((gs - gd) * a + 128) < 65536) by nia.
  assert (Bg : - 65536 < (gs - gd) * a < 65536) by nia.
  destruct (blend_line src_g dst_g a 0x008000) as (k & Hk & ->).
  - rewrite E. unfold dst_g. revert Pg Bg.
    generalize ((gs - gd) * a). intros p. intros.
    change (2 ^ 24) with 16777216. Z.div_mod_to_equations. lia.
  - rewrite E. lia.
  - unfold dst_g. lia.
  - rewrite !land_g. rewrite E. unfold dst_g. revert Lg Pg Bg.
    generalize ((gs - gd) * a). intros p. intros.
    change (2 ^ 24) with 16777216.
    split; destruct Hk as [-> | ->]; Z.div_mod_to_equations; lia.
Qed.

(* What [pixel_blend] stores, channel by channel. *)
Lemma pixel_blend_lerp (dst source : Z) :
  let alpha := channel source 0 in
  pixel_blend dst source
  = lerp (channel dst 0) (channel source 8) alpha
    + 256 * lerp (channel dst 8) (channel source 16) alpha
    + 65536 * lerp (channel dst 16) (channel source 24) alpha.
Proof.
  intros alpha. unfold pixel_blend.
  pose proof (channel_range source 0) as Ha. fold alpha in Ha.
  pose proof (channel_range source 8). pose proof (channel_range source 16).
  pose proof (channel_range source 24). pose proof (channel_range dst 0).
  pose proof (channel_range dst 8). pose proof (channel_range dst 16).
  replace (Z.land source 0xff) with alpha
    by (unfold alpha, channel; now rewrite Z.shiftr_0_r).
  rewrite <- (Z.shiftr_0_r dst).
  rewrite !rb_of, !g_of by lia.
  change (8 + 16) with 24. change (8 + 8) with 16. change (0 + 16) with 16.
  change (0 + 8) with 8.
  rewrite (proj1 (blend_rb (channel source 24) (channel source 8)
                           (channel dst 16) (channel dst 0) alpha
                           ltac:(assumption) ltac:(assumption)
                           ltac:(assumption) ltac:(assumption) Ha)).
  rewrite (proj1 (blend_g (channel source 16) (channel dst 8) alpha
                          ltac:(assumption) ltac:(assumption) Ha)).
  apply lor_rb_g; apply lerp_range; assumption.
Qed.

Lemma channels_of_sum (b g r : Z) :
  0 <= b < 256 -> 0 <= g < 256 -> 0 <= r < 256 ->
  let w := b + 256 * g + 65536 * r in
  channel w 0 = b /\ channel w 8 = g /\ channel w 16 = r /\ channel w 24 = 0.
Proof.
  intros Hb Hg Hr w. rewrite !channel_div by lia. unfold w.
  change (2 ^ 0) with 1. change (2 ^ 8) with 256. change (2 ^ 16) with 65536.
  change (2 ^ 24) with 16777216.
  repeat split; Z.div_mod_to_equations; lia.
Qed.

Lemma pixel_blend_channels (dst source : Z) :
  let alpha := channel source 0 in
  channel (pixel_blend dst source) 0 = lerp (channel dst 0) (channel source 8) alpha
  /\ channel (pixel_blend dst source) 8 = lerp (channel dst 8) (channel source 16) alpha
  /\ channel (pixel_blend dst source) 16 = lerp (channel dst 16) (channel source 24) alpha
  /\ channel (pixel_blend dst source) 24 = 0.
Proof.
  intros alpha. rewrite pixel_blend_lerp. fold alpha.
  apply channels_of_sum; apply lerp_range; apply channel_range.
Qed.

Lemma lerp_alpha_0 (d s : Z) : lerp d s 0 = d.
Proof. unfold lerp. rewrite Z.mul_0_r. change ((0 + 0x80) / 256) with 0. lia. Qed.

Lemma channel_pixel_word (p : EFI_GRAPHICS_OUTPUT_BLT_PIXEL) :
  channel (pixel_word p) 0 = byte.unsigned (Blue p)
  /\ channel (pixel_word p) 8 = byte.unsigned (Green p)
  /\ channel (pixel_word p) 16 = byte.unsigned (Red p)
  /\ channel (pixel_word p) 24 = byte.unsigned (Reserved p).
Proof.
  pose proof (byte.unsigned_range (Blue p)). pose proof (byte.unsigned_range (Green p)).
  pose proof (byte.unsigned_range (Red p)). pose proof (byte.unsigned_range (Reserved p)).
  rewrite !channel_div by lia. unfold pixel_word.
  change (2 ^ 0) with 1. change (2 ^ 8) with 256 in *. change (2 ^ 16) with 65536.
  change (2 ^ 24) with 16777216.
  repeat split; Z.div_mod_to_equations; lia.
Qed.

Lemma byte_of_channel (w k : Z) : 0 <= k ->
  byte.of_Z (Z.shiftr w k) = byte.of_Z (channel w k).
Proof.
  intros Hk. apply byte.unsigned_inj. rewrite !byte.unsigned_of_Z.
  rewrite channel_div by lia. rewrite Z.shiftr_div_pow2 by lia.
  unfold byte.wrap. change (2 ^ 8) with 256. now rewrite Z.mod_mod by lia.
Qed.

(** C2. For every destination and source word, [pixel_blend] computes on
    the red-blue pair and on the green channel the interpolation
    [dest + ((src - dest) * alpha + rounding) / 256] with the rounding
    constants 0x800080 and 0x008000, masked to the channels: the 32-bit
    wrap-around of the C expression changes nothing under the mask, each
    of the three channels gets its own interpolation with constant 0x80,
    and the fourth byte is 0.  Source (R=255, G=0, B=0, A=128) over
    destination (R=0, G=0, B=255) gives (R=128, G=0, B=128). *)
Theorem pixel_blend_exact (dst source : Z) :
  let alpha := Z.land source 0xff in
  let src := Z.shiftr source 8 in
  let src_rb := Z.land src 0xff00ff in
  let src_g := Z.land src 0x00ff00 in
  let dst_rb := Z.land dst 0xff00ff in
  let dst_g := Z.land dst 0x00ff00 in
  pixel_blend dst source
  = Z.lor (Z.land (dst_rb + ((src_rb - dst_rb) * alpha + 0x800080) / 256) 0xff00ff)
          (Z.land (dst_g + ((src_g - dst_g) * alpha + 0x008000) / 256) 0x00ff00)
  /\ channel (pixel_blend dst source) 16
     = channel dst 16 + ((channel source 24 - channel dst 16) * alpha + 0x80) / 256
  /\ channel (pixel_blend dst source) 8
     = channel dst 8 + ((channel source 16 - channel dst 8) * alpha + 0x80) / 256
  /\ channel (pixel_blend dst source) 0
     = channel dst 0 + ((channel source 8 - channel dst 0) * alpha + 0x80) / 256
  /\ channel (pixel_blend dst source) 24 = 0
  /\ pixel_blend (pixel_word (rgb 0 0 255)) 0xff000080 = pixel_word (rgb 128 0 128)
  /\ word_pixel (pixel_blend (pixel_word (rgb 0 0 255)) 0xff000080) = rgb 128 0 128.
Proof.
  intros alpha src src_rb src_g dst_rb dst_g.
  assert (Ea : alpha = channel source 0)
    by (unfold alpha, channel; now rewrite Z.shiftr_0_r).
  pose proof (channel_range source 0) as Ha. rewrite <- Ea in Ha.
  pose proof (channel_range source 8). pose proof (channel_range source 16).
  pose proof (channel_range source 24). pose proof (channel_range dst 0).
  pose proof (channel_range dst 8). pose proof (channel_range dst 16).
  destruct (pixel_blend_channels dst source) as (Cb & Cg & Cr & Cx).
  rewrite <- Ea in Cb, Cg, Cr. unfold lerp in Cb, Cg, Cr.
  split; [|repeat split; try assumption; vm_compute; reflexivity].
  rewrite pixel_blend_lerp. rewrite <- Ea.
  unfold src_rb, src_g, dst_rb, dst_g, src.
  rewrite <- (Z.shiftr_0_r dst).
  rewrite !rb_of, !g_of by lia.
  change (8 + 16) with 24. change (8 + 8) with 16. change (0 + 16) with 16.
  change (0 + 8) with 8.
  rewrite (proj2 (blend_rb (channel source 24) (channel source 8)
                           (channel dst 16) (channel dst 0) alpha
                           ltac:(assumption) ltac:(assumption)
                           ltac:(assumption) ltac:(assumption) Ha)).
  rewrite (proj2 (blend_g (channel source 16) (channel dst 8) alpha
                          ltac:(assumption) ltac:(assumption) Ha)).
  symmetry. apply lor_rb_g; apply lerp_range; assumption.
Qed.

(** C10. For every destination pixel and every source word whose alpha
    byte is 0, [pixel_blend] leaves the red, green and blue bytes of the
    destination as they were and sets its fourth (reserved) byte to 0. *)
Theorem pixel_blend_alpha_0 (p : EFI_GRAPHICS_OUTPUT_BLT_PIXEL) (source : Z) :
  Z.land source 0xff = 0 ->
  word_pixel (pixel_blend (pixel_word p) source)
  = {| Blue := Blue p; Green := Green p; Red := Red p; Reserved := byte.of_Z 0 |}.
Proof.
  intros Ha.
  assert (Ea : channel source 0 = 0)
    by (unfold channel; now rewrite Z.shiftr_0_r).
  destruct (pixel_blend_channels (pixel_word p) source) as (Cb & Cg & Cr & Cx).
  rewrite Ea, lerp_alpha_0 in Cb, Cg, Cr.
  destruct (channel_pixel_word p) as (Pb & Pg & Pr & _).
  unfold word_pixel.
  rewrite <- (Z.shiftr_0_r (pixel_blend (pixel_word p) source)) at 1.
  rewrite !byte_of_channel by lia.
  rewrite Cb, Cg, Cr, Cx, Pb, Pg, Pr, !byte.of_Z_unsigned. reflexivity.
Qed.

Lemma pixel_blend_alpha_0_witness :
  let p := {| Blue := byte.of_Z 9; Green := byte.of_Z 8; Red := byte.of_Z 7;
              Reserved := byte.of_Z 0xAA |} in
  Z.land 0x11223300 0xff = 0
  /\ word_pixel (pixel_blend (pixel_word p) 0x11223300)
     = {| Blue := Blue p; Green := Green p; Red := Red p; Reserved := byte.of_Z 0 |}.
Proof.
  intros p.
  split; [reflexivity | apply (pixel_blend_alpha_0 p 0x11223300); reflexivity].
Defined.


(** ** Reading the headers *)

Lemma rd8_range (m : memory) (a : Z) : 0 <= rd8 m a < 256.
Proof. unfold rd8. apply byte.unsigned_range. Qed.

Lemma rd16_range (m : memory) (a : Z) : 0 <= rd16 m a < 2 ^ 16.
Proof.
  unfold rd16. pose proof (rd8_range m a). pose proof (rd8_range m (a + 1)).
  change (2 ^ 8) with 256. change (2 ^ 16) with 65536. lia.
Qed.

Lemma rd32_range (m : memory) (a : Z) : 0 <= rd32 m a < 2 ^ 32.
Proof.
  unfold rd32. pose proof (rd8_range m a). pose proof (rd8_range m (a + 1)).
  pose proof (rd8_range m (a + 2)). pose proof (rd8_range m (a + 3)).
  change (2 ^ 8) with 256. change (2 ^ 16) with 65536.
  change (2 ^ 24) with 16777216. change (2 ^ 32) with 4294967296. lia.
Qed.

(** ** The header validator *)

(* What an accepted header is known to satisfy. *)
Lemma bmp_parse_header_Parsed (bmp : memory) (size : Z) dib map pixmap :
  bmp_parse_header bmp size = Parsed dib map pixmap ->
  dib = bmp_dib_at bmp sizeof_bmp_file
  /\ map = sizeof_bmp_file + dib_size dib
  /\ pixmap = file_offset (bmp_file_at bmp 0)
  /\ earlier_checks bmp size = true.
Proof.
  unfold bmp_parse_header, earlier_checks.
  repeat match goal with
         | |- context [if ?c then Rejected _ else _] =>
             let E := fresh "E" in destruct c eqn:E; [discriminate|]
         end.
  intros H. injection H as <- <- <-.
  apply orb_false_iff in E0. destruct E0 as [E0 E0'].
  apply negb_false_iff in E0, E0', E1, E4.
  rewrite E0, E0', E1, E4.
  repeat split. unfold sizeof_bmp_file, sizeof_bmp_dib in *.
  repeat (apply andb_true_iff; split); try reflexivity; lia.
Qed.

Lemma bmp_parse_header_status (bmp : memory) (size : Z) (err : EFI_STATUS) :
  bmp_parse_header bmp size = Rejected err ->
  err = EFI_INVALID_PARAMETER \/ err = EFI_UNSUPPORTED.
Proof.
  unfold bmp_parse_header.
  repeat match goal with
         | |- context [if ?c then Rejected _ else _] =>
             destruct c; [intros H; injection H as <-; auto|]
         end.
  discriminate.
Qed.

Lemma depth_switch_depths (dib : bmp_dib) :
  depth_switch dib = true ->
  dib_depth dib = 1 \/ dib_depth dib = 4 \/ dib_depth dib = 8
  \/ dib_depth dib = 16 \/ dib_depth dib = 24 \/ dib_depth dib = 32.
Proof.
  unfold depth_switch. intros H.
  destruct (dib_depth dib =? 1) eqn:E1; [lia|].
  destruct (dib_depth dib =? 4) eqn:E4; [lia|].
  destruct (dib_depth dib =? 8) eqn:E8; [lia|].
  destruct (dib_depth dib =? 24) eqn:E24; [lia|].
  destruct (dib_depth dib =? 16) eqn:E16; [lia|].
  destruct (dib_depth dib =? 32) eqn:E32; [lia|].
  discriminate.
Qed.

(** C7 (as the code has it). Each check of the validator up to line 99
    is a rejection, for every input, but there are two status codes only
    and no error kind for each check.  EFI_INVALID_PARAMETER is the answer
    to every input shorter than 54 bytes, to every signature other than BM,
    to every size field that differs from the length of the input or lies
    below the pixel data offset, and to pixel rows that do not fit or take
    more than 64 MiB.  EFI_UNSUPPORTED is the answer, once the file header
    is in order, to a DIB header shorter than 40 bytes, to every depth
    other than 1, 4, 8, 16, 24 and 32, to every compression other than 0 at
    the depths 1, 4, 8 and 24, and to every compression other than 0 and 3
    at the depths 16 and 32.  The two codes differ and no rejection
    carries any other code. *)
Theorem header_rejects (bmp : memory) (size : Z) :
  let file := bmp_file_at bmp 0 in
  let dib := bmp_dib_at bmp sizeof_bmp_file in
  let signature_ok := file_signature0 file = 66 /\ file_signature1 file = 77 in
  let file_header_ok :=
    54 <= size /\ signature_ok /\ file_size file = size
    /\ file_offset file <= file_size file in
  let result := bmp_parse_header bmp size in
  (size < 54 -> result = Rejected EFI_INVALID_PARAMETER)
  /\ (54 <= size -> file_signature0 file <> 66 \/ file_signature1 file <> 77 ->
      result = Rejected EFI_INVALID_PARAMETER)
  /\ (54 <= size -> signature_ok -> file_size file <> size ->
      result = Rejected EFI_INVALID_PARAMETER)
  /\ (54 <= size -> signature_ok -> file_size file = size ->
      file_size file < file_offset file ->
      result = Rejected EFI_INVALID_PARAMETER)
  /\ (file_header_ok -> dib_size dib < 40 -> result = Rejected EFI_UNSUPPORTED)
  /\ (file_header_ok -> 40 <= dib_size dib -> ~ supported_depth (dib_depth dib) ->
      result = Rejected EFI_UNSUPPORTED)
  /\ (file_header_ok -> 40 <= dib_size dib ->
      dib_depth dib = 1 \/ dib_depth dib = 4 \/ dib_depth dib = 8 \/ dib_depth dib = 24 ->
      dib_compression dib <> 0 ->
      result = Rejected EFI_UNSUPPORTED)
  /\ (file_header_ok -> 40 <= dib_size dib ->
      dib_depth dib = 16 \/ dib_depth dib = 32 ->
      dib_compression dib <> 0 -> dib_compression dib <> 3 ->
      result = Rejected EFI_UNSUPPORTED)
  /\ (file_header_ok -> 40 <= dib_size dib -> depth_switch dib = true ->
      uint32 (file_size file - file_offset file) < UINTN (dib_y dib * row_sizeof dib)
      \/ 64 * 1024 * 1024 < UINTN (row_sizeof dib * dib_y dib) ->
      result = Rejected EFI_INVALID_PARAMETER)
  /\ EFI_INVALID_PARAMETER <> EFI_UNSUPPORTED
  /\ (forall err, result = Rejected err ->
        err = EFI_INVALID_PARAMETER \/ err = EFI_UNSUPPORTED).
Proof.
  intros file dib signature_ok file_header_ok result.
  assert (Hnone : ~ supported_depth (dib_depth dib) -> depth_switch dib = false).
  { unfold supported_depth, depth_switch. intros Hn.
    destruct (Z.eqb_spec (dib_depth dib) 1); [tauto|].
    destruct (Z.eqb_spec (dib_depth dib) 4); [tauto|].
    destruct (Z.eqb_spec (dib_depth dib) 8); [tauto|].
    destruct (Z.eqb_spec (dib_depth dib) 24); [tauto|].
    destruct (Z.eqb_spec (dib_depth dib) 16); [tauto|].
    destruct (Z.eqb_spec (dib_depth dib) 32); [tauto|].
    reflexivity. }
  assert (Hplain : dib_depth dib = 1 \/ dib_depth dib = 4 \/ dib_depth dib = 8
                   \/ dib_depth dib = 24 ->
                   dib_compression dib <> 0 -> depth_switch dib = false).
  { unfold depth_switch. intros Hd Hc.
    destruct Hd as [D | [D | [D | D]]]; rewrite D; cbn [Z.eqb Pos.eqb orb]; lia. }
  assert (Hmasks : dib_depth dib = 16 \/ dib_depth dib = 32 ->
                   dib_compression dib <> 0 -> dib_compression dib <> 3 ->
                   depth_switch dib = false).
  { unfold depth_switch. intros Hd Hc0 Hc3.
    destruct Hd as [D | D]; rewrite D; cbn [Z.eqb Pos.eqb orb]; lia. }
  assert (Run : result
    = if size <? 54 then Rejected EFI_INVALID_PARAMETER else
      if negb (file_signature0 file =? 66) || negb (file_signature1 file =? 77)
      then Rejected EFI_INVALID_PARAMETER else
      if negb (file_size file =? size) then Rejected EFI_INVALID_PARAMETER else
      if file_size file <? file_offset file then Rejected EFI_INVALID_PARAMETER else
      if dib_size dib <? 40 then Rejected EFI_UNSUPPORTED else
      if negb (depth_switch dib) then Rejected EFI_UNSUPPORTED else
      if uint32 (file_size file - file_offset file) <? UINTN (dib_y dib * row_sizeof dib)
      then Rejected EFI_INVALID_PARAMETER else
      if UINTN (row_sizeof dib * dib_y dib) >? 64 * 1024 * 1024
      then Rejected EFI_INVALID_PARAMETER else
      bmp_parse_header bmp size) .
  { unfold result, bmp_parse_header. cbv zeta. fold file. fold dib.
    change (sizeof_bmp_file + sizeof_bmp_dib) with 54. change sizeof_bmp_dib with 40.
    repeat match goal with
           | |- (if ?c then _ else _) = (if ?c then _ else _) =>
               destruct c; [reflexivity|]
           end.
    reflexivity. }
  unfold file_header_ok, signature_ok.
  repeat split.
  - intros H. rewrite Run. replace (size <? 54) with true by lia. reflexivity.
  - intros H0 Hs. rewrite Run. replace (size <? 54) with false by lia.
    replace (negb (file_signature0 file =? 66) || negb (file_signature1 file =? 77))
      with true by lia.
    reflexivity.
  - intros H0 [S0 S1] Hz. rewrite Run. replace (size <? 54) with false by lia.
    replace (negb (file_signature0 file =? 66) || negb (file_signature1 file =? 77))
      with false by lia.
    replace (negb (file_size file =? size)) with true by lia. reflexivity.
  - intros H0 [S0 S1] Hz Ho. rewrite Run. replace (size <? 54) with false by lia.
    replace (negb (file_signature0 file =? 66) || negb (file_signature1 file =? 77))
      with false by lia.
    replace (negb (file_size file =? size)) with false by lia.
    replace (file_size file <? file_offset file) with true by lia. reflexivity.
  - intros (H0 & [S0 S1] & Hz & Ho) Hd. rewrite Run. replace (size <? 54) with false by lia.
    replace (negb (file_signature0 file =? 66) || negb (file_signature1 file =? 77))
      with false by lia.
    replace (negb (file_size file =? size)) with false by lia.
    replace (file_size file <? file_offset file) with false by lia.
    replace (dib_size dib <? 40) with true by lia. reflexivity.
  - intros (H0 & [S0 S1] & Hz & Ho) Hd Hn. rewrite Run. replace (size <? 54) with false by lia.
    replace (negb (file_signature0 file =? 66) || negb (file_signature1 file =? 77))
      with false by lia.
    replace (negb (file_size file =? size)) with false by lia.
    replace (file_size file <? file_offset file) with false by lia.
    replace (dib_size dib <? 40) with false by lia.
    rewrite (Hnone Hn). reflexivity.
  - intros (H0 & [S0 S1] & Hz & Ho) Hd Hp Hc. rewrite Run.
    replace (size <? 54) with false by lia.
    replace (negb (file_signature0 file =? 66) || negb (file_signature1 file =? 77))
      with false by lia.
    replace (negb (file_size file =? size)) with false by lia.
    replace (file_size file <? file_offset file) with false by lia.
    replace (dib_size dib <? 40) with false by lia.
    rewrite (Hplain Hp Hc). reflexivity.
  - intros (H0 & [S0 S1] & Hz & Ho) Hd Hp Hc0 Hc3. rewrite Run.
    replace (size <? 54) with false by lia.
    replace (negb (file_signature0 file =? 66) || negb (file_signature1 file =? 77))
      with false by lia.
    replace (negb (file_size file =? size)) with false by lia.
    replace (file_size file <? file_offset file) with false by lia.
    replace (dib_size dib <? 40) with false by lia.
    rewrite (Hmasks Hp Hc0 Hc3). reflexivity.
  - intros (H0 & [S0 S1] & Hz & Ho) Hd Hs Hrows. rewrite Run.
    replace (size <? 54) with false by lia.
    replace (negb (file_signature0 file =? 66) || negb (file_signature1 file =? 77))
      with false by lia.
    replace (negb (file_size file =? size)) with false by lia.
    replace (file_size file <? file_offset file) with false by lia.
    replace (dib_size dib <? 40) with false by lia.
    rewrite Hs. cbn [negb].
    destruct (uint32 (file_size file - file_offset file)
              <? UINTN (dib_y dib * row_sizeof dib)) eqn:E1; [reflexivity|].
    replace (UINTN (row_sizeof dib * dib_y dib) >? 64 * 1024 * 1024) with true by lia.
    reflexivity.
  - discriminate.
  - unfold result. apply bmp_parse_header_status.
Qed.

(* The five malformed inputs of the specification: each is rejected by
   the check it was made for. *)
Lemma header_rejects_witness :
  bmp_parse_header (load input_10_bytes) 10 = Rejected EFI_INVALID_PARAMETER
  /\ bmp_parse_header (load input_BZ) 70 = Rejected EFI_INVALID_PARAMETER
  /\ bmp_parse_header (load input_size_less) 70 = Rejected EFI_INVALID_PARAMETER
  /\ bmp_parse_header (load input_depth_2) 66 = Rejected EFI_UNSUPPORTED
  /\ bmp_parse_header (load input_rle_8) 66 = Rejected EFI_UNSUPPORTED.
Proof.
  pose proof (header_rejects (load input_10_bytes) 10) as (T & _).
  pose proof (header_rejects (load input_BZ) 70) as (_ & S & _).
  pose proof (header_rejects (load input_size_less) 70) as (_ & _ & L & _).
  pose proof (header_rejects (load input_depth_2) 66) as (_ & _ & _ & _ & _ & D & _).
  pose proof (header_rejects (load input_rle_8) 66) as (_ & _ & _ & _ & _ & _ & C & _).
  split; [apply T; reflexivity|].
  split; [apply S; [vm_compute; intros H; discriminate H
                   | right; vm_compute; intros H; discriminate H]|].
  split; [apply L; [vm_compute; intros H; discriminate H
                   | vm_compute; split; reflexivity
                   | vm_compute; intros H; discriminate H]|].
  split.
  - apply D.
    + vm_compute. repeat split; intros H; discriminate H.
    + vm_compute. intros H; discriminate H.
    + vm_compute. intuition discriminate.
  - apply C.
    + vm_compute. repeat split; intros H; discriminate H.
    + vm_compute. intros H; discriminate H.
    + right. right. left. vm_compute. reflexivity.
    + vm_compute. intros H; discriminate H.
Defined.

(** C7 as stated fails: the results of the five malformed inputs are not
    pairwise distinct. *)
Lemma header_rejects_not_distinct : ~ NoDup five_rejections.
Proof.
  intros H. inversion H as [|? ? Hnot _]. apply Hnot. vm_compute. auto.
Qed.


Lemma map_count_of_spec (dib : bmp_dib) :
  depth_switch dib = true -> 0 <= dib_colors_used dib < 2 ^ 32 ->
  map_count_of dib = paletteEntryCount dib /\ 0 <= map_count_of dib < 2 ^ 32.
Proof.
  intros Hd Hu. apply depth_switch_depths in Hd.
  unfold map_count_of, paletteEntryCount.
  destruct (dib_colors_used dib =? 0) eqn:E; cbn [negb]; [|lia].
  destruct Hd as [-> | [-> | [-> | [-> | [-> | ->]]]]]; vm_compute; intuition congruence.
Qed.

(** C8. For an input that passes the earlier checks, the header is
    accepted exactly when the pixel data offset is at or after the end of
    the DIB header and, if it is after, the gap is exactly four bytes for
    each of [paletteEntryCount] entries; otherwise it is rejected with the
    status of the colour table check, EFI_INVALID_PARAMETER.  An 8-bit
    image declaring 16 colours with a table span of 63 bytes is rejected;
    with 64 bytes it is accepted. *)
Theorem colour_table_check (bmp : memory) (size : Z) :
  earlier_checks bmp size = true ->
  let file := bmp_file_at bmp 0 in
  let dib := bmp_dib_at bmp sizeof_bmp_file in
  let header_end := sizeof_bmp_file + dib_size dib in
  let fits := header_end <= file_offset file
              /\ (header_end < file_offset file ->
                  file_offset file - header_end = 4 * paletteEntryCount dib) in
  (fits -> bmp_parse_header bmp size = Parsed dib header_end (file_offset file))
  /\ (~ fits -> bmp_parse_header bmp size = Rejected EFI_INVALID_PARAMETER)
  /\ earlier_checks (load (image_16_colours 63)) 121 = true
  /\ bmp_parse_header (load (image_16_colours 63)) 121 = Rejected EFI_INVALID_PARAMETER
  /\ (exists d, bmp_parse_header (load (image_16_colours 64)) 122 = Parsed d 54 118).
Proof.
  intros H file dib header_end fits.
  split; [|split; [|split; [vm_compute; reflexivity|
                    split; [vm_compute; reflexivity|
                            eexists; vm_compute; reflexivity]]]].
  all: unfold earlier_checks in H; fold file dib in H;
    repeat (apply andb_true_iff in H; destruct H as [H ?]);
    pose proof (rd32_range bmp sizeof_bmp_file) as Rsize;
    pose proof (rd32_range bmp (0 + 10)) as Roff;
    pose proof (rd32_range bmp (sizeof_bmp_file + 32)) as Rused;
    pose proof (depth_switch_depths dib ltac:(assumption)) as Hd;
    unfold bmp_parse_header; fold file dib.
  all: repeat match goal with
         | E : ?c = true |- context [?c] => rewrite E
         end; cbn [negb orb].
  all: destruct (map_count_of_spec dib ltac:(assumption) Rused) as [Hc Rc];
    unfold UINTN, sizeof_bmp_map in *; rewrite Hc in *;
    change (dib_size dib) with (rd32 bmp sizeof_bmp_file) in *;
    change (file_offset file) with (rd32 bmp (0 + 10)) in *;
    unfold header_end in *; unfold sizeof_bmp_file, sizeof_bmp_dib in *;
    change (2 ^ 32) with 4294967296 in *; change (2 ^ 64) with 18446744073709551616 in *;
    rewrite !(Z.mod_small (14 + rd32 bmp 14)) by lia;
    rewrite !(Z.mod_small (4 * paletteEntryCount dib)) by lia;
    intros Hfit; unfold fits in Hfit;
    repeat match goal with
           | |- context [if ?c then _ else _] => destruct c eqn:?
           end; try reflexivity; try lia.
  all: exfalso; clear H0 H1 Heqb2 Heqb3; Z.div_mod_to_equations; lia.
Qed.

Lemma colour_table_check_witness :
  earlier_checks (load (image_16_colours 60)) 118 = true
  /\ bmp_parse_header (load (image_16_colours 60)) 118 = Rejected EFI_INVALID_PARAMETER.
Proof.
  split; [vm_compute; reflexivity|].
  assert (H : earlier_checks (load (image_16_colours 60)) 118 = true)
    by (vm_compute; reflexivity).
  destruct (colour_table_check (load (image_16_colours 60)) 118 H) as (_ & T & _).
  apply T. vm_compute. intros [_ G]. specialize (G eq_refl). discriminate G.
Defined.

(** ** The compositor *)

(** C9. For an input of length 0, [graphics_splash] returns success and
    the screen is the one it was given: nothing was filled, read or
    written, and no call reached the display. *)
Theorem graphics_splash_empty (fw : firmware) (scr : screen) (content : memory)
        (background : option EFI_GRAPHICS_OUTPUT_BLT_PIXEL) :
  graphics_splash fw scr content 0 background = (EFI_SUCCESS, scr)
  /\ calls (snd (graphics_splash fw scr content 0 background)) = calls scr
  /\ video (snd (graphics_splash fw scr content 0 background)) = video scr.
Proof. repeat split. Qed.

(** C3 (as the code has it). For every non-empty input that fails header
    validation, [graphics_splash] stops before any display operation: the
    screen is the one it was given, because the background fill comes
    after the header validation.  It returns the validation failure,
    unless locating the display failed first, in which case that failure
    is returned. *)
Theorem graphics_splash_rejected (fw : firmware) (scr : screen) (content : memory)
        (len : Z) (background : option EFI_GRAPHICS_OUTPUT_BLT_PIXEL) (err : EFI_STATUS) :
  len <> 0 ->
  bmp_parse_header content len = Rejected err ->
  graphics_splash fw scr content len background
  = (if is_error (LocateProtocol fw) then LocateProtocol fw else err, scr).
Proof.
  intros Hlen Hrej. unfold graphics_splash.
  destruct (Z.eqb_spec len 0) as [E | _]; [contradiction|].
  destruct (is_error (LocateProtocol fw)); [reflexivity|].
  rewrite Hrej. reflexivity.
Qed.

Lemma graphics_splash_rejected_witness :
  graphics_splash firmware_ok screen_10x10 (load input_10_bytes) 10 (Some (rgb 255 255 255))
  = (EFI_INVALID_PARAMETER, screen_10x10).
Proof.
  apply (graphics_splash_rejected firmware_ok screen_10x10 (load input_10_bytes) 10
                                  (Some (rgb 255 255 255)) EFI_INVALID_PARAMETER).
  - discriminate.
  - vm_compute. reflexivity.
Defined.

(** C3 as stated fails: a 10-byte input is not empty and fails header
    validation, the display is there and every call to it would succeed,
    and when [graphics_splash] returns the screen does not show the
    background colour. *)
Lemma graphics_splash_no_fill_on_reject :
  10 <> 0
  /\ bmp_parse_header (load input_10_bytes) 10 = Rejected EFI_INVALID_PARAMETER
  /\ fst (graphics_splash firmware_ok screen_10x10 (load input_10_bytes) 10
                          (Some (rgb 255 255 255))) = EFI_INVALID_PARAMETER
  /\ ~ filled_with (rgb 255 255 255)
         (snd (graphics_splash firmware_ok screen_10x10 (load input_10_bytes) 10
                               (Some (rgb 255 255 255)))).
Proof.
  split; [discriminate|]. split; [vm_compute; reflexivity|].
  split; [vm_compute; reflexivity|].
  intros H. specialize (H 0 0). 
  assert (E : video (snd (graphics_splash firmware_ok screen_10x10 (load input_10_bytes) 10
                               (Some (rgb 255 255 255)))) 0 0 = rgb 1 2 3)
    by (vm_compute; reflexivity).
  rewrite E in H.
  assert (A : 0 <= 0 < 10) by lia.
  specialize (H A A). vm_compute in H. discriminate H.
Qed.

(** C4. For every accepted image and every screen resolution, the image
    is placed at [xOffset = max 0 ((surfaceWidth - imageWidth) / 2)] and
    [yOffset = max 0 ((surfaceHeight - imageHeight) / 2)]: these are the
    values of lines 290-293, they are never negative, they are 0 on an
    axis where the image is at least as large as the screen, and when the
    display answers every call they are the position of the rectangle
    read from and written to the screen.  A 2x2 image on a 10x10 screen
    goes to (4,4), a 20x20 image to (0,0). *)
Theorem centering (fw : firmware) (scr : screen) (content : memory) (len : Z)
        (background : option EFI_GRAPHICS_OUTPUT_BLT_PIXEL)
        (dib : bmp_dib) (map pixmap : Z) :
  0 <= HorizontalResolution scr < 2 ^ 32 ->
  0 <= VerticalResolution scr < 2 ^ 32 ->
  bmp_parse_header content len = Parsed dib map pixmap ->
  let xOffset := Z.max 0 ((HorizontalResolution scr - dib_x dib) / 2) in
  let yOffset := Z.max 0 ((VerticalResolution scr - dib_y dib) / 2) in
  x_pos_of scr dib = xOffset /\ y_pos_of scr dib = yOffset
  /\ 0 <= xOffset /\ 0 <= yOffset
  /\ (HorizontalResolution scr <= dib_x dib -> xOffset = 0)
  /\ (VerticalResolution scr <= dib_y dib -> yOffset = 0)
  /\ (LocateProtocol fw = EFI_SUCCESS ->
      (forall op, Blt_status fw op = EFI_SUCCESS) ->
      graphics_mode_status fw = EFI_SUCCESS ->
      fst (graphics_splash fw scr content len background) = EFI_SUCCESS
      /\ calls (snd (graphics_splash fw scr content len background))
         = calls scr
           ++ [ CallBlt EfiBltVideoFill 0 0 0 0
                        (HorizontalResolution scr) (VerticalResolution scr);
                CallBlt EfiBltVideoToBltBuffer xOffset yOffset 0 0 (dib_x dib) (dib_y dib);
                CallGraphicsMode;
                CallBlt EfiBltBufferToVideo 0 0 xOffset yOffset (dib_x dib) (dib_y dib) ])
  /\ calls (snd (graphics_splash firmware_ok screen_10x10 (load image_2x2) 70 None))
     = [ CallBlt EfiBltVideoFill 0 0 0 0 10 10;
         CallBlt EfiBltVideoToBltBuffer 4 4 0 0 2 2;
         CallGraphicsMode;
         CallBlt EfiBltBufferToVideo 0 0 4 4 2 2 ]
  /\ calls (snd (graphics_splash firmware_ok screen_10x10 (load image_20x20) 1254 None))
     = [ CallBlt EfiBltVideoFill 0 0 0 0 10 10;
         CallBlt EfiBltVideoToBltBuffer 0 0 0 0 20 20;
         CallGraphicsMode;
         CallBlt EfiBltBufferToVideo 0 0 0 0 20 20 ]
  /\ video (snd (graphics_splash firmware_ok screen_10x10 (load image_2x2) 70 None)) 4 4
     = rgb 9 8 7
  /\ video (snd (graphics_splash firmware_ok screen_10x10 (load image_2x2) 70 None)) 3 3
     = black
  /\ video (snd (graphics_splash firmware_ok screen_10x10 (load image_20x20) 1254 None)) 0 0
     = rgb 9 9 9.
Proof.
  intros HH HV Hp xOffset yOffset.
  destruct (bmp_parse_header_Parsed _ _ _ _ _ Hp) as (Hdib & _ & _ & Hsize).
  assert (Rx : 0 <= dib_x dib < 2 ^ 32) by (rewrite Hdib; apply rd32_range).
  assert (Ry : 0 <= dib_y dib < 2 ^ 32) by (rewrite Hdib; apply rd32_range).
  assert (Ex : x_pos_of scr dib = xOffset).
  { unfold x_pos_of, xOffset, uint32. change (2 ^ 32) with 4294967296 in *.
    destruct (Z.ltb_spec (dib_x dib) (HorizontalResolution scr)).
    - rewrite Z.mod_small by lia. Z.div_mod_to_equations. lia.
    - Z.div_mod_to_equations. lia. }
  assert (Ey : y_pos_of scr dib = yOffset).
  { unfold y_pos_of, yOffset, uint32. change (2 ^ 32) with 4294967296 in *.
    destruct (Z.ltb_spec (dib_y dib) (VerticalResolution scr)).
    - rewrite Z.mod_small by lia. Z.div_mod_to_equations. lia.
    - Z.div_mod_to_equations. lia. }
  split; [exact Ex|]. split; [exact Ey|].
  split; [apply Z.le_max_l|]. split; [apply Z.le_max_l|].
  split; [unfold xOffset; intros; Z.div_mod_to_equations; lia|].
  split; [unfold yOffset; intros; Z.div_mod_to_equations; lia|].
  split; [|repeat (split; [vm_compute; reflexivity|]); vm_compute; reflexivity].
  intros HL HB HG. unfold graphics_splash.
  assert (Hlen : (len =? 0) = false).
  { unfold earlier_checks in Hsize. destruct (Z.leb_spec 54 len); [lia|discriminate]. }
  rewrite Hlen, HL, Hp, Ex, Ey. cbn [is_error].
  unfold Blt, graphics_mode, bmp_to_blt. rewrite !HB, HG. cbn.
  rewrite <- !app_assoc. cbn. split; reflexivity.
Qed.

Lemma centering_witness :
  x_pos_of screen_10x10 (bmp_dib_at (load image_2x2) 14) = 4
  /\ y_pos_of screen_10x10 (bmp_dib_at (load image_2x2) 14) = 4.
Proof.
  assert (H : bmp_parse_header (load image_2x2) 70
              = Parsed (bmp_dib_at (load image_2x2) 14) 54 54)
    by (vm_compute; reflexivity).
  destruct (centering firmware_ok screen_10x10 (load image_2x2) 70 None _ _ _
                      ltac:(vm_compute; intuition discriminate)
                      ltac:(vm_compute; intuition discriminate) H)
    as (Ex & Ey & _).
  split; [exact Ex | exact Ey].
Defined.

(** ** The pixel converter *)

(* [(row_size + 3) & ~3) - row_size] is what is missing to the next
   multiple of 4, also when the 64-bit difference has wrapped. *)
Lemma land_not_3 (t : Z) :
  0 <= t < 2 ^ 64 -> Z.land t (UINTN (Z.lnot 3)) = 4 * (t / 4).
Proof.
  intros Ht.
  change (UINTN (Z.lnot 3)) with (Z.shiftl (Z.ones 62) 2).
  transitivity (Z.shiftl (Z.land (Z.shiftr t 2) (Z.ones 62)) 2).
  - Z.bitblast.
  - rewrite Z.land_ones, Z.shiftl_mul_pow2, Z.shiftr_div_pow2 by lia.
    change (2 ^ 2) with 4. change (2 ^ 64) with 18446744073709551616 in Ht.
    change (2 ^ 62) with 4611686018427387904.
    Z.div_mod_to_equations. lia.
Qed.

Lemma row_padding (v : Z) :
  UINTN (Z.land (UINTN (UINTN v + 3)) (UINTN (Z.lnot 3)) - UINTN v) = (- v) mod 4.
Proof.
  rewrite land_not_3 by (apply Z.mod_pos_bound; lia).
  unfold UINTN. change (2 ^ 64) with 18446744073709551616.
  Z.div_mod_to_equations. lia.
Qed.


Section ConverterProofs.

Variable bmp : memory.
Variable dib : bmp_dib.
Variable map : Z.
Variable pixmap : Z.

Hypothesis Hdepth : supported_depth (dib_depth dib).
Hypothesis Hx : 0 <= dib_x dib < 2 ^ 32.
Hypothesis Hy : 0 <= dib_y dib < 2 ^ 32.

Local Abbreviation w := (dib_x dib).
Local Abbreviation h := (dib_y dib).


Lemma filled_step (r o : Z) (b buf : blt_buffer) (n : Z) p :
  0 <= n ->
  (forall i, buf i = filled bmp dib map r o b n i) ->
  p = decoded_pixel bmp dib map r n (buf (o + n)) ->
  forall i, upd buf (o + n) p i = filled bmp dib map r o b (n + 1) i.
Proof.
  intros Hn Hbuf -> i. unfold upd.
  destruct (Z.eqb_spec i (o + n)) as [-> | Hne].
  - rewrite Hbuf. unfold filled.
    replace ((o <=? o + n) && (o + n <? o + n)) with false by lia.
    replace ((o <=? o + n) && (o + n <? o + (n + 1))) with true by lia.
    f_equal. lia.
  - rewrite Hbuf. unfold filled.
    replace ((o <=? i) && (i <? o + (n + 1))) with ((o <=? i) && (i <? o + n)) by lia.
    reflexivity.
Qed.


(* Projections of the updated cursors. *)
Lemma cur_x_set_x v s : cur_x (set_x v s) = v. Proof. reflexivity. Qed.
Lemma cur_x_set_in v s : cur_x (set_in v s) = cur_x s. Proof. reflexivity. Qed.
Lemma cur_x_set_out v s : cur_x (set_out v s) = cur_x s. Proof. reflexivity. Qed.
Lemma cur_x_touch a s : cur_x (touch a s) = cur_x s. Proof. reflexivity. Qed.
Lemma cur_x_store_rgb cr cg cb s : cur_x (store_rgb cr cg cb s) = cur_x s.
Proof. reflexivity. Qed.
Lemma cur_x_store_blend i s : cur_x (store_blend i s) = cur_x s. Proof. reflexivity. Qed.
Lemma cur_x_store_map i s : cur_x (store_map bmp map i s) = cur_x s.
Proof. reflexivity. Qed.
Lemma cur_x_store_index i s : cur_x (store_index bmp map i s) = cur_x s.
Proof. reflexivity. Qed.

Lemma cur_in_set_x v s : cur_in (set_x v s) = cur_in s. Proof. reflexivity. Qed.
Lemma cur_in_set_in v s : cur_in (set_in v s) = v. Proof. reflexivity. Qed.
Lemma cur_in_set_out v s : cur_in (set_out v s) = cur_in s. Proof. reflexivity. Qed.
Lemma cur_in_touch a s : cur_in (touch a s) = cur_in s. Proof. reflexivity. Qed.
Lemma cur_in_store_rgb cr cg cb s : cur_in (store_rgb cr cg cb s) = cur_in s.
Proof. reflexivity. Qed.
Lemma cur_in_store_blend i s : cur_in (store_blend i s) = cur_in s. Proof. reflexivity. Qed.
Lemma cur_in_store_map i s : cur_in (store_map bmp map i s) = cur_in s.
Proof. reflexivity. Qed.
Lemma cur_in_store_index i s : cur_in (store_index bmp map i s) = cur_in s.
Proof. reflexivity. Qed.

Lemma cur_out_set_x v s : cur_out (set_x v s) = cur_out s. Proof. reflexivity. Qed.
Lemma cur_out_set_in v s : cur_out (set_in v s) = cur_out s. Proof. reflexivity. Qed.
Lemma cur_out_set_out v s : cur_out (set_out v s) = v. Proof. reflexivity. Qed.
Lemma cur_out_touch a s : cur_out (touch a s) = cur_out s. Proof. reflexivity. Qed.
Lemma cur_out_store_rgb cr cg cb s : cur_out (store_rgb cr cg cb s) = cur_out s.
Proof. reflexivity. Qed.
Lemma cur_out_store_blend i s : cur_out (store_blend i s) = cur_out s.
Proof. reflexivity. Qed.
Lemma cur_out_store_map i s : cur_out (store_map bmp map i s) = cur_out s.
Proof. reflexivity. Qed.
Lemma cur_out_store_index i s : cur_out (store_index bmp map i s) = cur_out s.
Proof. reflexivity. Qed.

Lemma cur_buf_set_x v s : cur_buf (set_x v s) = cur_buf s. Proof. reflexivity. Qed.
Lemma cur_buf_set_in v s : cur_buf (set_in v s) = cur_buf s. Proof. reflexivity. Qed.
Lemma cur_buf_set_out v s : cur_buf (set_out v s) = cur_buf s. Proof. reflexivity. Qed.
Lemma cur_buf_touch a s : cur_buf (touch a s) = cur_buf s. Proof. reflexivity. Qed.
Lemma cur_buf_store_rgb cr cg cb s :
  cur_buf (store_rgb cr cg cb s)
  = upd (cur_buf s) (cur_out s)
        {| Blue := byte.of_Z cb; Green := byte.of_Z cg; Red := byte.of_Z cr;
           Reserved := Reserved (cur_buf s (cur_out s)) |}.
Proof. reflexivity. Qed.
Lemma cur_buf_store_blend i s :
  cur_buf (store_blend i s)
  = upd (cur_buf s) (cur_out s)
        (word_pixel (pixel_blend (pixel_word (cur_buf s (cur_out s))) i)).
Proof. reflexivity. Qed.
Lemma cur_buf_store_map i s :
  cur_buf (store_map bmp map i s)
  = upd (cur_buf s) (cur_out s) (palette_pixel bmp map i (cur_buf s (cur_out s))).
Proof. reflexivity. Qed.
Lemma cur_buf_store_index i s :
  cur_buf (store_index bmp map i s)
  = upd (cur_buf s) (cur_out s) (palette_pixel bmp map i (cur_buf s (cur_out s))).
Proof. reflexivity. Qed.

Create Rewrite HintDb cursor.
#[local] Hint Rewrite cur_x_set_x cur_x_set_in cur_x_set_out cur_x_touch cur_x_store_rgb
     cur_x_store_blend cur_x_store_map cur_x_store_index
     cur_in_set_x cur_in_set_in cur_in_set_out cur_in_touch cur_in_store_rgb
     cur_in_store_blend cur_in_store_map cur_in_store_index
     cur_out_set_x cur_out_set_in cur_out_set_out cur_out_touch cur_out_store_rgb
     cur_out_store_blend cur_out_store_map cur_out_store_index
     cur_buf_set_x cur_buf_set_in cur_buf_set_out cur_buf_touch cur_buf_store_rgb
     cur_buf_store_blend cur_buf_store_map cur_buf_store_index : cursor.


Lemma x_loop_unfold (fuel : nat) (s : cursor) :
  x_loop bmp dib map (S fuel) s
  = if cur_x s <? w then x_loop bmp dib map fuel (x_next bmp dib map s) else s.
Proof. reflexivity. Qed.

Ltac wrap_small :=
  unfold UINTN, uint32;
  change (2 ^ 32) with 4294967296 in *; change (2 ^ 64) with 18446744073709551616 in *;
  Z.div_mod_to_equations; lia.

(* From what one pass of the [switch] leaves to the invariant at the
   next test of the loop. *)
Lemma x_next_inv r o b x1 s :
  0 < x1 <= w ->
  cur_x (switch_depth bmp dib map s) = x1 - 1 ->
  cur_in (switch_depth bmp dib map s) = r + row_bytes dib x1 - 1 ->
  cur_out (switch_depth bmp dib map s) = o + x1 - 1 ->
  (forall i, cur_buf (switch_depth bmp dib map s) i = filled bmp dib map r o b x1 i) ->
  x1 = w \/ (dib_depth dib * x1) mod 8 = 0 ->
  row_inv bmp dib map r o b x1 (x_next bmp dib map s).
Proof.
  unfold x_next. generalize (switch_depth bmp dib map s). intros s' Hx1 Sx Sin Sout Sbuf Sw.
  cbv zeta. constructor; autorewrite with cursor.
  - rewrite Sx. wrap_small.
  - lia.
  - lia.
  - exact Sbuf.
  - exact Sw.
Qed.

Lemma switch_depth_eq (d : Z) :
  dib_depth dib = d ->
  switch_depth bmp dib map
  = if d =? 1 then case_1 bmp dib map
    else if d =? 4 then case_4 bmp dib map
    else if d =? 8 then case_8 bmp map
    else if d =? 16 then case_16 bmp
    else if d =? 24 then case_24 bmp
    else if d =? 32 then case_32 bmp
    else fun s => s.
Proof.
  intros <-. unfold switch_depth.
  destruct (dib_depth dib =? 1), (dib_depth dib =? 4), (dib_depth dib =? 8),
    (dib_depth dib =? 16), (dib_depth dib =? 24), (dib_depth dib =? 32); reflexivity.
Qed.

Lemma x_step_8 r o b x0 s :
  dib_depth dib = 8 -> row_inv bmp dib map r o b x0 s -> 0 <= x0 < w ->
  row_inv bmp dib map r o b (x0 + 1) (x_next bmp dib map s).
Proof.
  intros D [Ix Iin Iout Ibuf _] Hx0. unfold row_bytes in Iin. rewrite D in Iin.
  apply x_next_inv; rewrite ?(switch_depth_eq 8 D); cbn [Z.eqb Pos.eqb];
    unfold case_8, row_bytes; rewrite ?D; autorewrite with cursor.
  - lia.
  - lia.
  - rewrite Iin. Z.div_mod_to_equations. lia.
  - lia.
  - rewrite Iout. replace (x0 + 1 - 1) with x0 in * by lia.
    apply filled_step; [lia | exact Ibuf |].
    unfold decoded_pixel. rewrite D. cbn [Z.eqb Pos.eqb].
    rewrite Iin. do 3 f_equal. Z.div_mod_to_equations. lia.
  - right. Z.div_mod_to_equations. lia.
Qed.

Lemma x_step_16 r o b x0 s :
  dib_depth dib = 16 -> row_inv bmp dib map r o b x0 s -> 0 <= x0 < w ->
  row_inv bmp dib map r o b (x0 + 1) (x_next bmp dib map s).
Proof.
  intros D [Ix Iin Iout Ibuf _] Hx0. unfold row_bytes in Iin. rewrite D in Iin.
  replace ((16 * x0 + 7) / 8) with (2 * x0) in Iin by (Z.div_mod_to_equations; lia).
  apply x_next_inv; rewrite ?(switch_depth_eq 16 D); cbn [Z.eqb Pos.eqb];
    unfold case_16, row_bytes; rewrite ?D; cbv zeta; autorewrite with cursor.
  - lia.
  - lia.
  - rewrite Iin. Z.div_mod_to_equations. lia.
  - lia.
  - rewrite Iout. apply filled_step; [lia | exact Ibuf |].
    unfold decoded_pixel. rewrite D. cbn [Z.eqb Pos.eqb]. rewrite Iin. reflexivity.
  - right. Z.div_mod_to_equations. lia.
Qed.

Lemma x_step_24 r o b x0 s :
  dib_depth dib = 24 -> row_inv bmp dib map r o b x0 s -> 0 <= x0 < w ->
  row_inv bmp dib map r o b (x0 + 1) (x_next bmp dib map s).
Proof.
  intros D [Ix Iin Iout Ibuf _] Hx0. unfold row_bytes in Iin. rewrite D in Iin.
  replace ((24 * x0 + 7) / 8) with (3 * x0) in Iin by (Z.div_mod_to_equations; lia).
  apply x_next_inv; rewrite ?(switch_depth_eq 24 D); cbn [Z.eqb Pos.eqb];
    unfold case_24, row_bytes; rewrite ?D; cbv zeta; autorewrite with cursor.
  - lia.
  - lia.
  - rewrite Iin. Z.div_mod_to_equations. lia.
  - lia.
  - rewrite Iout. apply filled_step; [lia | exact Ibuf |].
    unfold decoded_pixel. rewrite D. cbn [Z.eqb Pos.eqb]. rewrite Iin. reflexivity.
  - right. Z.div_mod_to_equations. lia.
Qed.

Lemma x_step_32 r o b x0 s :
  dib_depth dib = 32 -> row_inv bmp dib map r o b x0 s -> 0 <= x0 < w ->
  row_inv bmp dib map r o b (x0 + 1) (x_next bmp dib map s).
Proof.
  intros D [Ix Iin Iout Ibuf _] Hx0. unfold row_bytes in Iin. rewrite D in Iin.
  replace ((32 * x0 + 7) / 8) with (4 * x0) in Iin by (Z.div_mod_to_equations; lia).
  apply x_next_inv; rewrite ?(switch_depth_eq 32 D); cbn [Z.eqb Pos.eqb];
    unfold case_32, row_bytes; rewrite ?D; cbv zeta; autorewrite with cursor.
  - lia.
  - lia.
  - rewrite Iin. Z.div_mod_to_equations. lia.
  - lia.
  - rewrite Iout. apply filled_step; [lia | exact Ibuf |].
    unfold decoded_pixel. rewrite D. cbn [Z.eqb Pos.eqb]. rewrite Iin. reflexivity.
  - right. Z.div_mod_to_equations. lia.
Qed.

(* The two shapes of [case 4]: two pixels from the byte, or one when the
   row ends on the high half. *)
Lemma case_4_two (s : cursor) :
  cur_x s < uint32 (w - 1) ->
  case_4 bmp dib map s
  = store_index bmp map (Z.land (rd8 bmp (cur_in s)) 0x0f)
      (touch (cur_in s)
         (set_x (UINTN (cur_x s + 1))
            (set_out (cur_out s + 1)
               (store_index bmp map (Z.shiftr (rd8 bmp (cur_in s)) 4)
                            (touch (cur_in s) s))))).
Proof.
  intros H. unfold case_4. cbv zeta. rewrite cur_x_store_index, cur_x_touch.
  replace (cur_x s <? uint32 (w - 1)) with true by lia. reflexivity.
Qed.

Lemma case_4_one (s : cursor) :
  uint32 (w - 1) <= cur_x s ->
  case_4 bmp dib map s
  = store_index bmp map (Z.shiftr (rd8 bmp (cur_in s)) 4) (touch (cur_in s) s).
Proof.
  intros H. unfold case_4. cbv zeta. rewrite cur_x_store_index, cur_x_touch.
  replace (cur_x s <? uint32 (w - 1)) with false by lia. reflexivity.
Qed.

Lemma x_step_4 r o b x0 s :
  dib_depth dib = 4 -> row_inv bmp dib map r o b x0 s -> 0 <= x0 < w ->
  exists x1, x0 < x1 <= w /\ row_inv bmp dib map r o b x1 (x_next bmp dib map s).
Proof.
  intros D [Ix Iin Iout Ibuf Iw] Hx0.
  assert (Ew : uint32 (w - 1) = w - 1) by wrap_small.
  assert (Even : x0 mod 2 = 0) by (rewrite D in Iw; Z.div_mod_to_equations; lia).
  unfold row_bytes in Iin. rewrite D in Iin.
  replace ((4 * x0 + 7) / 8) with (x0 / 2) in Iin by (Z.div_mod_to_equations; lia).
  assert (P0 : forall i, upd (cur_buf s) (o + x0)
                 (palette_pixel bmp map (Z.shiftr (rd8 bmp (r + x0 / 2)) 4)
                                (cur_buf s (o + x0))) i
               = filled bmp dib map r o b (x0 + 1) i).
  { apply filled_step; [lia | exact Ibuf |].
    unfold decoded_pixel. rewrite D. cbn [Z.eqb Pos.eqb].
    rewrite Even. reflexivity. }
  destruct (Z.lt_ge_cases x0 (w - 1)) as [Hlt | Hge].
  - exists (x0 + 2). split; [lia|].
    apply x_next_inv; rewrite ?(switch_depth_eq 4 D); cbn [Z.eqb Pos.eqb];
      rewrite ?case_4_two by (rewrite Ix, Ew; exact Hlt);
      unfold row_bytes; rewrite ?D; autorewrite with cursor.
    + lia.
    + rewrite Ix. wrap_small.
    + rewrite Iin. Z.div_mod_to_equations. lia.
    + lia.
    + rewrite Iin, Iout. replace (x0 + 2) with (x0 + 1 + 1) by lia.
      replace (o + x0 + 1) with (o + (x0 + 1)) by lia.
      apply filled_step; [lia | exact P0 |].
      unfold decoded_pixel. rewrite D. cbn [Z.eqb Pos.eqb].
      replace ((x0 + 1) mod 2 =? 0) with false by (Z.div_mod_to_equations; lia).
      replace ((x0 + 1) / 2) with (x0 / 2) by (Z.div_mod_to_equations; lia).
      reflexivity.
    + right. Z.div_mod_to_equations. lia.
  - exists (x0 + 1). split; [lia|].
    apply x_next_inv; rewrite ?(switch_depth_eq 4 D); cbn [Z.eqb Pos.eqb];
      rewrite ?case_4_one by (rewrite Ix, Ew; lia);
      unfold row_bytes; rewrite ?D; autorewrite with cursor.
    + lia.
    + lia.
    + rewrite Iin. Z.div_mod_to_equations. lia.
    + lia.
    + rewrite Iin, Iout. exact P0.
    + left. lia.
Qed.

Lemma case_1_loop_S (fuel : nat) (i : Z) (s : cursor) :
  case_1_loop bmp dib map (S fuel) i s
  = if (i <? 8) && (cur_x s <? w)
    then case_1_loop bmp dib map fuel (UINTN (i + 1))
           (set_x (UINTN (cur_x s + 1))
              (set_out (cur_out s + 1)
                 (store_map bmp map
                    (Z.land (Z.shiftr (rd8 bmp (cur_in s)) (UINTN (7 - i))) 1) s)))
    else s.
Proof. reflexivity. Qed.

Lemma case_1_loop_spec r o b x0 :
  dib_depth dib = 1 -> x0 mod 8 = 0 -> 0 <= x0 ->
  forall (fuel : nat) (i : Z) (s : cursor),
    Z.of_nat fuel = 8 - i -> 0 <= i -> x0 + i <= w ->
    cur_x s = x0 + i -> cur_in s = r + x0 / 8 -> cur_out s = o + (x0 + i) ->
    (forall j, cur_buf s j = filled bmp dib map r o b (x0 + i) j) ->
    cur_x (case_1_loop bmp dib map fuel i s) = Z.min (x0 + 8) w
    /\ cur_in (case_1_loop bmp dib map fuel i s) = r + x0 / 8
    /\ cur_out (case_1_loop bmp dib map fuel i s) = o + Z.min (x0 + 8) w
    /\ forall j, cur_buf (case_1_loop bmp dib map fuel i s) j
                 = filled bmp dib map r o b (Z.min (x0 + 8) w) j.
Proof.
  intros D Hal Hx0. induction fuel as [|fuel IH]; intros i s Hf Hi Hiw Ix Iin Iout Ibuf.
  - cbn [case_1_loop]. replace (Z.min (x0 + 8) w) with (x0 + i) by lia.
    repeat split; assumption.
  - rewrite case_1_loop_S. rewrite Ix.
    replace (i <? 8) with true by lia. cbn [andb].
    destruct (Z.ltb_spec (x0 + i) w) as [Hlt | Hge].
    + assert (Ei : UINTN (i + 1) = i + 1) by wrap_small. rewrite Ei.
      apply IH; try lia; autorewrite with cursor.
      * wrap_small.
      * exact Iin.
      * rewrite Iout. lia.
      * replace (x0 + (i + 1)) with (x0 + i + 1) by lia. rewrite Iout.
        apply filled_step; [lia | exact Ibuf |].
        unfold decoded_pixel. rewrite D. cbn [Z.eqb Pos.eqb].
        rewrite Iin.
        replace ((x0 + i) / 8) with (x0 / 8) by (Z.div_mod_to_equations; lia).
        replace ((x0 + i) mod 8) with i by (Z.div_mod_to_equations; lia).
        replace (UINTN (7 - i)) with (7 - i) by (symmetry; wrap_small).
        reflexivity.
    + replace (Z.min (x0 + 8) w) with (x0 + i) by lia.
      repeat split; assumption.
Qed.

Lemma x_step_1 r o b x0 s :
  dib_depth dib = 1 -> row_inv bmp dib map r o b x0 s -> 0 <= x0 < w ->
  exists x1, x0 < x1 <= w /\ row_inv bmp dib map r o b x1 (x_next bmp dib map s).
Proof.
  intros D [Ix Iin Iout Ibuf Iw] Hx0.
  assert (Hal : x0 mod 8 = 0) by (rewrite D in Iw; Z.div_mod_to_equations; lia).
  unfold row_bytes in Iin. rewrite D in Iin.
  replace ((1 * x0 + 7) / 8) with (x0 / 8) in Iin by (Z.div_mod_to_equations; lia).
  destruct (case_1_loop_spec r o b x0 D Hal ltac:(lia) 8%nat 0 s)
    as (Lx & Lin & Lout & Lbuf);
    rewrite ?Z.add_0_r; try assumption; try lia.
  exists (Z.min (x0 + 8) w). split; [lia|].
  apply x_next_inv; rewrite ?(switch_depth_eq 1 D); cbn [Z.eqb Pos.eqb];
    unfold case_1, row_bytes; rewrite ?D; cbv zeta; autorewrite with cursor.
  - lia.
  - rewrite Lx. wrap_small.
  - rewrite Lin. Z.div_mod_to_equations. lia.
  - rewrite Lout. lia.
  - exact Lbuf.
  - destruct (Z.le_gt_cases (x0 + 8) w).
    + right. replace (Z.min (x0 + 8) w) with (x0 + 8) by lia.
      Z.div_mod_to_equations. lia.
    + left. lia.
Qed.

Lemma x_step r o b x0 s :
  row_inv bmp dib map r o b x0 s -> 0 <= x0 < w ->
  exists x1, x0 < x1 <= w /\ row_inv bmp dib map r o b x1 (x_next bmp dib map s).
Proof.
  intros I Hx0.
  destruct Hdepth as [D | [D | [D | [D | [D | D]]]]].
  - now apply x_step_1.
  - now apply x_step_4.
  - exists (x0 + 1). split; [lia | now apply x_step_8].
  - exists (x0 + 1). split; [lia | now apply x_step_16].
  - exists (x0 + 1). split; [lia | now apply x_step_24].
  - exists (x0 + 1). split; [lia | now apply x_step_32].
Qed.

(* The inner loop leaves by its test, with the whole row decoded. *)
Lemma x_loop_exits r o b :
  forall (fuel : nat) (x0 : Z) (s : cursor),
    row_inv bmp dib map r o b x0 s -> 0 <= x0 <= w -> w - x0 <= Z.of_nat fuel ->
    row_inv bmp dib map r o b w (x_loop bmp dib map fuel s).
Proof.
  induction fuel as [|fuel IH]; intros x0 s I Hx0 Hf.
  - cbn [x_loop]. replace w with x0 by lia. exact I.
  - rewrite x_loop_unfold. rewrite (inv_x _ _ _ _ _ _ _ _ I).
    destruct (Z.ltb_spec x0 w) as [Hlt | Hge].
    + destruct (x_step r o b x0 s I ltac:(lia)) as (x1 & Hx1 & I1).
      apply (IH x1); [exact I1 | lia | lia].
    + replace w with x0 by lia. exact I.
Qed.

Lemma stride_row_bytes :
  row_bytes dib w + (- row_bytes dib w) mod 4 = stride dib.
Proof.
  unfold row_bytes, stride. generalize (dib_depth dib * w). intros dw.
  Z.div_mod_to_equations. lia.
Qed.

(* One pass of the loop over [y]: the stored row [y] goes to the output
   row [h - 1 - y], and the read pointer ends one stride further. *)
Lemma y_body_spec (y : Z) (s : cursor) :
  0 <= y < h -> cur_in s = pixmap + y * stride dib ->
  cur_in (y_body bmp dib map pixmap y s) = pixmap + (y + 1) * stride dib
  /\ forall i, cur_buf (y_body bmp dib map pixmap y s) i
               = filled bmp dib map (pixmap + y * stride dib) ((h - 1 - y) * w) (cur_buf s) w i.
Proof.
  intros Hy0 Hin. unfold y_body. cbv zeta.
  set (s0 := set_x 0 (set_out _ s)).
  assert (I0 : row_inv bmp dib map (pixmap + y * stride dib) ((h - 1 - y) * w) (cur_buf s) 0 s0).
  { constructor; unfold s0; autorewrite with cursor.
    - reflexivity.
    - rewrite Hin. unfold row_bytes. rewrite Z.mul_0_r. change ((0 + 7) / 8) with 0. lia.
    - assert (E1 : UINTN (UINTN (h - y) - 1) = h - 1 - y) by wrap_small.
      rewrite E1. unfold UINTN. rewrite Z.mod_small; [lia|].
      change (2 ^ 32) with 4294967296 in *. change (2 ^ 64) with 18446744073709551616. nia.
    - intros i. unfold filled. replace ((h - 1 - y) * w + 0) with ((h - 1 - y) * w) by lia.
      replace (((h - 1 - y) * w <=? i) && (i <? (h - 1 - y) * w)) with false by lia.
      reflexivity.
    - right. rewrite Z.mul_0_r. reflexivity. }
  pose proof (x_loop_exits _ _ _ (Z.to_nat w) 0 s0 I0 ltac:(lia) ltac:(lia)) as [Lx Lin Lout Lbuf _].
  cbn [cur_in cur_buf set_in]. split; [|exact Lbuf].
  rewrite row_padding. rewrite Lin.
  replace (pixmap + y * stride dib + row_bytes dib w - pixmap)
    with (4 * (y * ((dib_depth dib * w + 31) / 32)) + row_bytes dib w)
    by (unfold stride; ring).
  replace ((- (4 * (y * ((dib_depth dib * w + 31) / 32)) + row_bytes dib w)) mod 4)
    with ((- row_bytes dib w) mod 4)
    by (generalize (y * ((dib_depth dib * w + 31) / 32)) (row_bytes dib w); intros;
        Z.div_mod_to_equations; lia).
  pose proof stride_row_bytes. lia.
Qed.


Lemma y_loop_spec (buf0 : blt_buffer) :
  forall (fuel : nat) (y : Z) (s : cursor),
    0 <= y -> y + Z.of_nat fuel <= h ->
    cur_in s = pixmap + y * stride dib ->
    (forall i, cur_buf s i = decoded_image bmp dib map pixmap buf0 y i) ->
    cur_in (y_loop bmp dib map pixmap fuel y s) = pixmap + (y + Z.of_nat fuel) * stride dib
    /\ forall i, cur_buf (y_loop bmp dib map pixmap fuel y s) i
                 = decoded_image bmp dib map pixmap buf0 (y + Z.of_nat fuel) i.
Proof.
  induction fuel as [|fuel IH]; intros y s Hy0 Hf Hin Hbuf.
  - cbn [y_loop]. rewrite Z.add_0_r. split; assumption.
  - cbn [y_loop]. replace (y <? h) with true by lia.
    destruct (y_body_spec y s ltac:(lia) Hin) as [Bin Bbuf].
    assert (Ey : UINTN (y + 1) = y + 1) by wrap_small. rewrite Ey.
    replace (y + Z.of_nat (S fuel)) with (y + 1 + Z.of_nat fuel) by lia.
    apply IH; [lia | lia | exact Bin |].
    intros i. rewrite Bbuf. unfold filled, decoded_image. rewrite Hbuf.
    unfold decoded_image.
    assert (A1 : (h - y) * w = (h - 1 - y) * w + w) by ring.
    assert (A2 : (h - (y + 1)) * w = (h - 1 - y) * w) by ring.
    assert (A3 : (h - 1 - y) * w + w <= h * w) by nia.
    rewrite A1, A2. set (a := (h - 1 - y) * w) in *.
    destruct (Z.leb_spec a i) as [Hlo | Hlo]; cbn [andb].
    + destruct (Z.ltb_spec i (a + w)) as [Hhi | Hhi].
      * replace (a + w <=? i) with false by lia. cbn [andb].
        replace (i <? h * w) with true by lia.
        assert (Ed : i / w = h - 1 - y).
        { symmetry. apply Z.div_unique with (r := i - a); [lia|]. unfold a. ring. }
        assert (Em : i mod w = i - a).
        { symmetry. apply Z.mod_unique with (q := h - 1 - y); [lia|]. unfold a. ring. }
        rewrite Ed, Em. do 2 f_equal. lia.
      * replace (a + w <=? i) with true by lia. reflexivity.
    + replace (a + w <=? i) with false by lia. reflexivity.
Qed.

(* The converter, whole: where the read pointer stands after [n] stored
   rows, and what every pixel of the buffer holds at the end. *)
Lemma after_rows_spec (buf : blt_buffer) (n : Z) :
  0 <= n <= h ->
  cur_in (after_rows bmp dib map pixmap (Z.to_nat n) buf) = pixmap + n * stride dib
  /\ forall i, cur_buf (after_rows bmp dib map pixmap (Z.to_nat n) buf) i
               = decoded_image bmp dib map pixmap buf n i.
Proof.
  intros Hn. unfold after_rows.
  destruct (y_loop_spec buf (Z.to_nat n) 0 (bmp_to_blt_start pixmap buf)) as [Lin Lbuf].
  - lia.
  - lia.
  - cbn [cur_in bmp_to_blt_start]. lia.
  - intros i. cbn [cur_buf bmp_to_blt_start]. unfold decoded_image.
    replace (((h - 0) * w <=? i) && (i <? h * w)) with false by lia. reflexivity.
  - rewrite Z2Nat.id in Lin, Lbuf by lia. split; [rewrite Lin; lia | exact Lbuf].
Qed.

Lemma bmp_to_blt_pixel (buf : blt_buffer) (x y : Z) :
  0 <= x < w -> 0 <= y < h ->
  snd (fst (bmp_to_blt bmp dib map pixmap buf)) (y * w + x)
  = decoded_pixel bmp dib map (pixmap + (h - 1 - y) * stride dib) x (buf (y * w + x)).
Proof.
  intros Hx0 Hy0. unfold bmp_to_blt. cbn [fst snd].
  destruct (after_rows_spec buf h ltac:(lia)) as [_ Hbuf]. rewrite Hbuf.
  unfold decoded_image.
  replace (((h - h) * w <=? y * w + x) && (y * w + x <? h * w)) with true by nia.
  assert (Ed : (y * w + x) / w = y)
    by (symmetry; apply Z.div_unique with (r := x); [lia | ring]).
  assert (Em : (y * w + x) mod w = x)
    by (symmetry; apply Z.mod_unique with (q := y); [lia | ring]).
  rewrite Ed, Em. reflexivity.
Qed.

End ConverterProofs.

Lemma parsed_dimensions (bmp : memory) (size : Z) dib map pixmap :
  bmp_parse_header bmp size = Parsed dib map pixmap ->
  supported_depth (dib_depth dib)
  /\ 0 <= dib_x dib < 2 ^ 32 /\ 0 <= dib_y dib < 2 ^ 32.
Proof.
  intros H. destruct (bmp_parse_header_Parsed _ _ _ _ _ H) as (-> & _ & _ & Hc).
  split; [|split; apply rd32_range].
  apply depth_switch_depths. unfold earlier_checks in Hc.
  repeat (apply andb_true_iff in Hc; destruct Hc as [Hc ?]). assumption.
Qed.

Lemma masks_555 (v : Z) :
  Z.shiftr (Z.land v 0x7c00) 7 = 8 * ((v / 1024) mod 32)
  /\ Z.shiftr (Z.land v 0x3e0) 2 = 8 * ((v / 32) mod 32)
  /\ Z.shiftl (Z.land v 0x1f) 3 = 8 * (v mod 32).
Proof.
  assert (E1 : Z.land v 0x7c00 = Z.shiftl (Z.land (Z.shiftr v 10) (Z.ones 5)) 10)
    by (change 0x7c00 with (Z.shiftl (Z.ones 5) 10); Z.bitblast).
  assert (E2 : Z.land v 0x3e0 = Z.shiftl (Z.land (Z.shiftr v 5) (Z.ones 5)) 5)
    by (change 0x3e0 with (Z.shiftl (Z.ones 5) 5); Z.bitblast).
  rewrite E1, E2. change 0x1f with (Z.ones 5).
  rewrite !Z.land_ones, !Z.shiftl_mul_pow2, !Z.shiftr_div_pow2 by lia.
  change (2 ^ 10) with 1024. change (2 ^ 5) with 32. change (2 ^ 7) with 128.
  change (2 ^ 2) with 4. change (2 ^ 3) with 8.
  repeat split; Z.div_mod_to_equations; lia.
Qed.

Lemma unsigned_of_Z_small (v : Z) : 0 <= v < 256 -> byte.unsigned (byte.of_Z v) = v.
Proof.
  intros Hv. rewrite byte.unsigned_of_Z. unfold byte.wrap.
  apply Z.mod_small. change (2 ^ 8) with 256. lia.
Qed.

(** C5. For every pixel of an accepted image of depth 16, the converter
    reads the two bytes of the pixel as one little-endian word [w] and
    stores exactly red = (w & 0x7C00) >> 7, green = (w & 0x03E0) >> 2 and
    blue = (w & 0x001F) << 3, none of them cut by the 8-bit store; the
    word is that of column [x] in the stored row that mirrors the output
    row, and the reserved byte of the pixel is left alone. *)
Theorem decode_16_bit (bmp : memory) (size : Z) (dib : bmp_dib) (map pixmap : Z)
        (buf : blt_buffer) (x y : Z) :
  bmp_parse_header bmp size = Parsed dib map pixmap ->
  dib_depth dib = 16 ->
  0 <= x < dib_x dib -> 0 <= y < dib_y dib ->
  let a := pixmap + (dib_y dib - 1 - y) * stride dib + 2 * x in
  let w := rd8 bmp a + 2 ^ 8 * rd8 bmp (a + 1) in
  let p := snd (fst (bmp_to_blt bmp dib map pixmap buf)) (y * dib_x dib + x) in
  byte.unsigned (Red p) = Z.shiftr (Z.land w 0x7C00) 7
  /\ byte.unsigned (Green p) = Z.shiftr (Z.land w 0x03E0) 2
  /\ byte.unsigned (Blue p) = Z.shiftl (Z.land w 0x001F) 3
  /\ Reserved p = Reserved (buf (y * dib_x dib + x))
  /\ (forall s, cur_reads (case_16 bmp s) = cur_in s + 1 :: cur_in s :: cur_reads s)
  /\ (forall s, cur_buf (case_16 bmp s) (cur_out s)
                = {| Blue := byte.of_Z (Z.shiftl (Z.land (rd16 bmp (cur_in s)) 0x001F) 3);
                     Green := byte.of_Z (Z.shiftr (Z.land (rd16 bmp (cur_in s)) 0x03E0) 2);
                     Red := byte.of_Z (Z.shiftr (Z.land (rd16 bmp (cur_in s)) 0x7C00) 7);
                     Reserved := Reserved (cur_buf s (cur_out s)) |}).
Proof.
  intros Hp D Hx0 Hy0 a w p.
  destruct (parsed_dimensions _ _ _ _ _ Hp) as (Hd & Rx & Ry).
  assert (Ep : p = decoded_pixel bmp dib map (pixmap + (dib_y dib - 1 - y) * stride dib) x
                                 (buf (y * dib_x dib + x)))
    by (apply bmp_to_blt_pixel; assumption).
  unfold decoded_pixel in Ep. rewrite D in Ep. cbn [Z.eqb Pos.eqb] in Ep.
  fold a in Ep. change (rd16 bmp a) with w in Ep.
  destruct (masks_555 w) as (Mr & Mg & Mb).
  rewrite Ep. cbn [Red Green Blue Reserved].
  rewrite !unsigned_of_Z_small
    by (rewrite ?Mr, ?Mg, ?Mb; Z.div_mod_to_equations; lia).
  repeat split.
  intros s. unfold case_16. cbn [cur_buf cur_out cur_in set_in store_rgb touch].
  unfold upd. rewrite Z.eqb_refl. reflexivity.
Qed.

Lemma decode_16_bit_witness :
  let bmp := load image_3x2_16 in
  let dib := bmp_dib_at bmp 14 in
  let p := snd (fst (bmp_to_blt bmp dib 54 54 (fun _ => black))) (0 * dib_x dib + 1) in
  byte.unsigned (Red p) = 32 /\ byte.unsigned (Green p) = 136 /\ byte.unsigned (Blue p) = 160.
Proof.
  intros bmp dib p.
  assert (H : bmp_parse_header bmp 70 = Parsed dib 54 54) by (vm_compute; reflexivity).
  destruct (decode_16_bit bmp 70 dib 54 54 (fun _ => black) 1 0 H eq_refl
                          ltac:(vm_compute; intuition discriminate)
                          ltac:(vm_compute; intuition discriminate))
    as (R & G & B & _).
  split; [exact R | split; [exact G | exact B]].
Defined.

(** C6. For every accepted image, whatever its depth and width, the
    converter fills output row [y] (0 is the top) from the stored row
    [height - 1 - y], pixel by pixel, and leaves the rest of the buffer
    alone; the read pointer starts at the pixel data and after each stored
    row stands exactly one stride further, the stride being
    [ceil (depth * width / 32) * 4]: the bytes of the row rounded up to a
    multiple of 4, and the row size the validator computed. *)
Theorem rows_bottom_up_padded (bmp : memory) (size : Z) (dib : bmp_dib) (map pixmap : Z)
        (buf : blt_buffer) :
  bmp_parse_header bmp size = Parsed dib map pixmap ->
  let w := dib_x dib in
  let h := dib_y dib in
  let out := snd (fst (bmp_to_blt bmp dib map pixmap buf)) in
  let cursor_after := fun n => cur_in (after_rows bmp dib map pixmap (Z.to_nat n) buf) in
  (forall x y, 0 <= x < w -> 0 <= y < h ->
     out (y * w + x)
     = decoded_pixel bmp dib map (pixmap + (h - 1 - y) * stride dib) x (buf (y * w + x)))
  /\ (forall i, ~ 0 <= i < h * w -> out i = buf i)
  /\ cursor_after 0 = pixmap
  /\ (forall n, 0 <= n < h -> cursor_after (n + 1) = cursor_after n + stride dib)
  /\ (forall n, 0 <= n <= h -> cursor_after n = pixmap + n * stride dib)
  /\ stride dib mod 4 = 0
  /\ row_bytes dib w <= stride dib < row_bytes dib w + 4
  /\ row_sizeof dib = stride dib.
Proof.
  intros Hp w h out cursor_after.
  destruct (parsed_dimensions _ _ _ _ _ Hp) as (Hd & Rx & Ry).
  assert (Hc : forall n, 0 <= n <= h -> cursor_after n = pixmap + n * stride dib).
  { intros n Hn. unfold cursor_after.
    now destruct (after_rows_spec bmp dib map pixmap Hd Rx Ry buf n Hn). }
  split; [intros x y; apply bmp_to_blt_pixel; assumption|].
  split.
  { intros i Hi. unfold out, bmp_to_blt. cbn [fst snd].
    destruct (after_rows_spec bmp dib map pixmap Hd Rx Ry buf h ltac:(lia)) as [_ Hb].
    rewrite Hb. unfold decoded_image. fold w h.
    replace (((h - h) * w <=? i) && (i <? h * w)) with false by lia. reflexivity. }
  split; [rewrite Hc by lia; lia|].
  split; [intros n Hn; rewrite !Hc by lia; lia|].
  split; [exact Hc|].
  assert (Hdw : 0 <= dib_depth dib * w < 2 ^ 37).
  { fold w in Rx. change (2 ^ 32) with 4294967296 in Rx. change (2 ^ 37) with 137438953472.
    destruct Hd as [D | [D | [D | [D | [D | D]]]]]; rewrite D; lia. }
  unfold row_sizeof, stride, row_bytes, UINTN. fold w.
  revert Hdw. generalize (dib_depth dib * w). intros dw Hdw.
  change (2 ^ 37) with 137438953472 in Hdw. change (2 ^ 64) with 18446744073709551616.
  repeat split; Z.div_mod_to_equations; lia.
Qed.

Lemma rows_bottom_up_padded_witness :
  let bmp := load image_10x2_1 in
  let dib := bmp_dib_at bmp 14 in
  stride dib = 4
  /\ cur_in (after_rows bmp dib 54 62 (Z.to_nat (0 + 1)) (fun _ => black)) = 62 + 4
  /\ snd (fst (bmp_to_blt bmp dib 54 62 (fun _ => black))) (0 * dib_x dib + 9)
     = decoded_pixel bmp dib 54 (62 + (dib_y dib - 1 - 0) * stride dib) 9 black.
Proof.
  intros bmp dib.
  assert (H : bmp_parse_header bmp 70 = Parsed dib 54 62) by (vm_compute; reflexivity).
  destruct (rows_bottom_up_padded bmp 70 dib 54 62 (fun _ => black) H)
    as (Hpix & _ & H0 & Hstep & _).
  split; [reflexivity|]. split.
  - rewrite (Hstep 0) by (vm_compute; intuition discriminate).
    rewrite H0. reflexivity.
  - apply (Hpix 9 0); vm_compute; intuition discriminate.
Defined.

(** C1 (the code at a failing input). The 62-byte image
    [image_index_255] is accepted by the validator; the converter then
    returns success after reading the colour of index 255 from a table of
    one entry, at the addresses 1076, 1075 and 1074, outside the
    input. *)
Theorem palette_index_read_outside :
  let bmp := load image_index_255 in
  let dib := bmp_dib_at bmp 14 in
  Z.of_nat (length image_index_255) = 62
  /\ bmp_parse_header bmp 62 = Parsed dib 54 58
  /\ paletteEntryCount dib = 1
  /\ rd8 bmp 58 = 255
  /\ fst (fst (bmp_to_blt bmp dib 54 58 (fun _ => black))) = EFI_SUCCESS
  /\ rev (snd (bmp_to_blt bmp dib 54 58 (fun _ => black))) = [58; 1076; 58; 1075; 58; 1074]
  /\ ~ (forall a, In a (snd (bmp_to_blt bmp dib 54 58 (fun _ => black))) -> 0 <= a < 62).
Proof.
  intros bmp dib.
  assert (R : rev (snd (bmp_to_blt bmp dib 54 58 (fun _ => black)))
              = [58; 1076; 58; 1075; 58; 1074]) by (vm_compute; reflexivity).
  repeat (split; [vm_compute; reflexivity|]).
  intros H. specialize (H 1076). rewrite in_rev, R in H.
  assert (In 1076 [58; 1076; 58; 1075; 58; 1074]) as Hin by (cbn; auto).
  specialize (H Hin). lia.
Qed.

(* A second way past the validator: at depth 32 with width and height
   2^31 the product [dib->y * row_size] is 2^64 and wraps to 0, so a file
   of 54 bytes with no pixel data at all is accepted, and the converter
   walks 2^33 bytes for the first row. *)
Lemma wrapped_dimensions_accepted :
  let bmp := load image_wrapped in
  let dib := bmp_dib_at bmp 14 in
  bmp_parse_header bmp 54 = Parsed dib 54 54
  /\ dib_x dib = 2 ^ 31 /\ dib_y dib = 2 ^ 31
  /\ cur_in (after_rows bmp dib 54 54 (Z.to_nat 1) (fun _ => black)) = 54 + 2 ^ 33.
Proof.
  intros bmp dib.
  assert (H : bmp_parse_header bmp 54 = Parsed dib 54 54) by (vm_compute; reflexivity).
  split; [exact H|]. split; [vm_compute; reflexivity|]. split; [vm_compute; reflexivity|].
  destruct (parsed_dimensions _ _ _ _ _ H) as (Hd & Rx & Ry).
  destruct (after_rows_spec bmp dib 54 54 Hd Rx Ry (fun _ => black) 1) as [Hc _].
  - vm_compute. intuition discriminate.
  - rewrite Hc. reflexivity.
Qed.

(** * Further properties of the code *)

(** ** pixel_blend: no overshoot *)

Lemma lerp_between (d s a : Z) :
  0 <= d < 256 -> 0 <= s < 256 -> 0 <= a < 256 ->
  Z.min d s <= lerp d s a <= Z.max d s.
Proof.
  intros Hd Hs Ha. unfold lerp. change 0x80 with 128.
  destruct (Z.le_gt_cases d s) as [Hle | Hgt].
  - assert (0 <= (s - d) * a <= (s - d) * 255) by nia.
    generalize dependent ((s - d) * a). intros p Hp.
    Z.div_mod_to_equations. lia.
  - assert ((s - d) * 255 <= (s - d) * a <= 0) by nia.
    generalize dependent ((s - d) * a). intros p Hp.
    Z.div_mod_to_equations. lia.
Qed.

Lemma lerp_opaque (d s : Z) :
  0 <= d < 256 -> 0 <= s < 256 ->
  lerp d s 255 = (if s - d >? 128 then s - 1 else if d - s >=? 128 then s + 1 else s).
Proof.
  intros Hd Hs. unfold lerp. change 0x80 with 128.
  destruct (Z.gtb_spec (s - d) 128); [|destruct (Z.geb_spec (d - s) 128)];
    Z.div_mod_to_equations; lia.
Qed.

(** Every channel that [pixel_blend] stores lies between the destination's
    and the source's value of that channel, whatever the alpha: no
    overshoot and no carry from a neighbouring channel.  With alpha 255 the
    result is the source channel up to one unit, and not always the source
    itself: it is one short when the source exceeds the destination by
    more than 128, one over when it is below it by 128 or more. *)
Theorem pixel_blend_between (dst source : Z) :
  let out := pixel_blend dst source in
  (forall k, k = 0 \/ k = 8 \/ k = 16 ->
     Z.min (channel dst k) (channel source (k + 8)) <= channel out k
     <= Z.max (channel dst k) (channel source (k + 8)))
  /\ (Z.land source 0xff = 255 ->
      forall k, k = 0 \/ k = 8 \/ k = 16 ->
        let d := channel dst k in
        let s := channel source (k + 8) in
        channel out k = (if s - d >? 128 then s - 1 else if d - s >=? 128 then s + 1 else s)).
Proof.
  intros out.
  destruct (pixel_blend_channels dst source) as (Cb & Cg & Cr & _).
  pose proof (channel_range source 0) as Ha.
  split.
  - intros k [-> | [-> | ->]]; cbn [Z.add Pos.add Pos.succ]; unfold out;
      rewrite ?Cb, ?Cg, ?Cr; apply lerp_between; auto using channel_range.
  - intros A k Hk d s.
    assert (Ea : channel source 0 = 255)
      by (unfold channel; now rewrite Z.shiftr_0_r).
    rewrite Ea in Cb, Cg, Cr. unfold d, s, out.
    destruct Hk as [-> | [-> | ->]]; cbn [Z.add Pos.add Pos.succ];
      rewrite ?Cb, ?Cg, ?Cr; apply lerp_opaque; apply channel_range.
Qed.

Lemma pixel_blend_between_witness :
  channel (pixel_blend 0x000000 0xffffffff) 16 = 254.
Proof.
  destruct (pixel_blend_between 0x000000 0xffffffff) as [_ H].
  exact (H eq_refl 16 (or_intror (or_intror eq_refl))).
Defined.

(** ** graphics_splash: the placement *)

(** An image that is not larger than the screen is placed inside it, and
    the margin after it is the margin before it or one pixel more. *)
Theorem placement_inside (scr : screen) (dib : bmp_dib) :
  0 <= HorizontalResolution scr < 2 ^ 32 ->
  0 <= VerticalResolution scr < 2 ^ 32 ->
  0 <= dib_x dib <= HorizontalResolution scr ->
  0 <= dib_y dib <= VerticalResolution scr ->
  let x_pos := x_pos_of scr dib in
  let y_pos := y_pos_of scr dib in
  0 <= x_pos /\ x_pos + dib_x dib <= HorizontalResolution scr
  /\ 0 <= y_pos /\ y_pos + dib_y dib <= VerticalResolution scr
  /\ 0 <= HorizontalResolution scr - (x_pos + dib_x dib) - x_pos <= 1
  /\ 0 <= VerticalResolution scr - (y_pos + dib_y dib) - y_pos <= 1.
Proof.
  intros HW HH Hx Hy x_pos y_pos. unfold x_pos, y_pos, x_pos_of, y_pos_of, uint32.
  change (2 ^ 32) with 4294967296 in *.
  destruct (Z.ltb_spec (dib_x dib) (HorizontalResolution scr));
    destruct (Z.ltb_spec (dib_y dib) (VerticalResolution scr));
    repeat split; Z.div_mod_to_equations; lia.
Qed.

Lemma placement_inside_witness :
  let dib := bmp_dib_at (load image_3x2_16) 14 in
  x_pos_of screen_10x10 dib + dib_x dib <= 10
  /\ 0 <= 10 - (x_pos_of screen_10x10 dib + dib_x dib) - x_pos_of screen_10x10 dib <= 1.
Proof.
  intros dib.
  assert (H1 : 0 <= HorizontalResolution screen_10x10 < 2 ^ 32)
    by (vm_compute; intuition discriminate).
  assert (H2 : 0 <= VerticalResolution screen_10x10 < 2 ^ 32)
    by (vm_compute; intuition discriminate).
  assert (H3 : 0 <= dib_x dib <= HorizontalResolution screen_10x10)
    by (vm_compute; intuition discriminate).
  assert (H4 : 0 <= dib_y dib <= VerticalResolution screen_10x10)
    by (vm_compute; intuition discriminate).
  destruct (placement_inside screen_10x10 dib H1 H2 H3 H4) as (_ & A & _ & _ & B & _).
  split; [exact A | exact B].
Defined.

(** ** bmp_parse_header: what it reads and what it guarantees *)

Lemma rd8_ext (m1 m2 : memory) (a : Z) : m1 a = m2 a -> rd8 m1 a = rd8 m2 a.
Proof. unfold rd8. now intros ->. Qed.

(** The validator looks at nothing but [size] and the 54 bytes of the two
    headers: two memories that agree there get the same answer; and when
    [size] is below 54 it looks at no byte at all. *)
Theorem bmp_parse_header_reads_headers_only (m1 m2 : memory) (size : Z) :
  (54 <= size -> forall a, 0 <= a < 54 -> m1 a = m2 a) ->
  bmp_parse_header m1 size = bmp_parse_header m2 size.
Proof.
  intros H. unfold bmp_parse_header.
  destruct (Z.ltb_spec size (sizeof_bmp_file + sizeof_bmp_dib)) as [|Hs]; [reflexivity|].
  unfold sizeof_bmp_file, sizeof_bmp_dib in Hs.
  specialize (H ltac:(lia)).
  assert (E8 : forall a, 0 <= a < 54 -> rd8 m1 a = rd8 m2 a)
    by (intros; apply rd8_ext, H; assumption).
  assert (E16 : forall a, 0 <= a < 53 -> rd16 m1 a = rd16 m2 a)
    by (intros; unfold rd16; rewrite !E8 by lia; reflexivity).
  assert (E32 : forall a, 0 <= a < 51 -> rd32 m1 a = rd32 m2 a)
    by (intros; unfold rd32; rewrite !E8 by lia; reflexivity).
  assert (Ef : bmp_file_at m1 0 = bmp_file_at m2 0).
  { unfold bmp_file_at. rewrite !E8, !E16, !E32 by lia. reflexivity. }
  assert (Ed : bmp_dib_at m1 sizeof_bmp_file = bmp_dib_at m2 sizeof_bmp_file).
  { unfold bmp_dib_at, sizeof_bmp_file. rewrite !E16, !E32 by lia. reflexivity. }
  rewrite Ef, Ed. reflexivity.
Qed.

Lemma bmp_parse_header_reads_headers_only_witness :
  bmp_parse_header (load image_2x2) 70
  = bmp_parse_header (load (firstn 54 image_2x2 ++ repeat 255 16)) 70.
Proof.
  apply bmp_parse_header_reads_headers_only. intros _ a Ha.
  assert (Hc : a = 0 \/ 0 < a < 54) by lia.
  destruct Hc as [-> | Hc]; [reflexivity|].
  destruct a as [|p|p]; try lia.
  do 6 (destruct p as [p|p|]; try lia; try reflexivity).
Defined.

Lemma row_sizeof_stride (dib : bmp_dib) :
  supported_depth (dib_depth dib) -> 0 <= dib_x dib < 2 ^ 32 ->
  row_sizeof dib = stride dib.
Proof.
  intros Hd Rx.
  assert (Hdw : 0 <= dib_depth dib * dib_x dib < 2 ^ 37).
  { change (2 ^ 32) with 4294967296 in Rx. change (2 ^ 37) with 137438953472.
    destruct Hd as [D | [D | [D | [D | [D | D]]]]]; rewrite D; lia. }
  unfold row_sizeof, stride, UINTN.
  revert Hdw. generalize (dib_depth dib * dib_x dib). intros dw Hdw.
  change (2 ^ 37) with 137438953472 in Hdw. change (2 ^ 64) with 18446744073709551616.
  Z.div_mod_to_equations. lia.
Qed.

(* The facts the successive tests of the validator leave behind. *)
Lemma parsed_facts (bmp : memory) (size : Z) (dib : bmp_dib) (map pixmap : Z) :
  bmp_parse_header bmp size = Parsed dib map pixmap ->
  dib = bmp_dib_at bmp 14
  /\ map = 14 + rd32 bmp 14
  /\ pixmap = rd32 bmp 10
  /\ 54 <= size
  /\ rd8 bmp 0 = 66 /\ rd8 bmp 1 = 77
  /\ rd32 bmp 2 = size
  /\ rd32 bmp 10 <= rd32 bmp 2
  /\ 40 <= rd32 bmp 14
  /\ depth_switch dib = true
  /\ UINTN (dib_y dib * row_sizeof dib) <= uint32 (rd32 bmp 2 - rd32 bmp 10)
  /\ UINTN (row_sizeof dib * dib_y dib) <= 64 * 1024 * 1024
  /\ 14 + rd32 bmp 14 <= rd32 bmp 10
  /\ (rd32 bmp 10 = 14 + rd32 bmp 14
      \/ rd32 bmp 10 - (14 + rd32 bmp 14) = 4 * paletteEntryCount dib).
Proof.
  intros Hp.
  destruct (bmp_parse_header_Parsed _ _ _ _ _ Hp) as (Hdib & Hmap & Hpix & Hc).
  pose proof (rd32_range bmp 10) as R10.
  pose proof (rd32_range bmp 14) as R14.
  pose proof (rd32_range bmp (14 + 32)) as R46.
  change sizeof_bmp_file with 14 in *.
  assert (Hsw : depth_switch dib = true).
  { rewrite Hdib. unfold earlier_checks in Hc.
    repeat (apply andb_true_iff in Hc; destruct Hc as [Hc ?]). assumption. }
  destruct (map_count_of_spec dib Hsw ltac:(rewrite Hdib; exact R46)) as [Hcount Rcount].
  assert (Hct : 14 + rd32 bmp 14 <= rd32 bmp 10
                /\ (rd32 bmp 10 = 14 + rd32 bmp 14
                    \/ rd32 bmp 10 - (14 + rd32 bmp 14) = 4 * paletteEntryCount dib)).
  { revert Hp. unfold bmp_parse_header.
    repeat match goal with
           | |- context [if ?c then Rejected _ else _] =>
               let E := fresh "E" in destruct c eqn:E; [discriminate|]
           end.
    intros _. clear - E7 E8 R10 R14 Hcount Rcount Hdib.
    change sizeof_bmp_file with 14 in *. change sizeof_bmp_map with 4 in *.
    rewrite <- Hdib in *. rewrite Hcount in *.
    cbn [bmp_file_at file_offset] in *. change (0 + 10) with 10 in *.
    replace (dib_size dib) with (rd32 bmp 14) in * by (rewrite Hdib; reflexivity).
    unfold UINTN in *.
    change (2 ^ 64) with 18446744073709551616 in *. change (2 ^ 32) with 4294967296 in *.
    rewrite !(Z.mod_small (14 + rd32 bmp 14)) in * by lia.
    rewrite !(Z.mod_small (4 * paletteEntryCount dib)) in * by lia.
    split; [lia|].
    destruct (Z.eq_dec (rd32 bmp 10) (14 + rd32 bmp 14)) as [|Hne]; [now left|right].
    rewrite (Z.mod_small (rd32 bmp 10 - (14 + rd32 bmp 14))) in * by lia. lia. }
  unfold earlier_checks in Hc.
  repeat (apply andb_true_iff in Hc; destruct Hc as [Hc ?]).
  change sizeof_bmp_file with 14 in *.
  cbn [bmp_file_at file_signature0 file_signature1 file_size file_offset] in *.
  change (0 + 1) with 1 in *. change (0 + 2) with 2 in *. change (0 + 10) with 10 in *.
  change (dib_size (bmp_dib_at bmp 14)) with (rd32 bmp 14) in *.
  destruct Hct as [Hct1 Hct2]. subst dib.
  repeat match goal with |- _ /\ _ => split end; try assumption; try reflexivity; lia.
Qed.

(** What a caller may rely on once the validator has accepted: the two
    headers are inside the input, the signature and the size field are
    right, the colour table starts at the end of the DIB header and the
    pixel data not before it nor after the end of the input, the depth is
    one of the six with a compression that goes with it, and the gap before
    the pixel data is empty or exactly the announced colour table.  When
    the product of height and stride has not wrapped in 64 bits, the
    pixel rows end inside the input and take at most 64 MiB. *)
Theorem accepted_header_bounds (bmp : memory) (size : Z) (dib : bmp_dib) (map pixmap : Z) :
  bmp_parse_header bmp size = Parsed dib map pixmap ->
  dib = bmp_dib_at bmp 14
  /\ 54 <= size < 2 ^ 32
  /\ rd8 bmp 0 = 66 /\ rd8 bmp 1 = 77 /\ rd32 bmp 2 = size
  /\ pixmap = rd32 bmp 10
  /\ map = 14 + dib_size dib
  /\ 54 <= map <= pixmap /\ pixmap <= size
  /\ supported_depth (dib_depth dib)
  /\ (dib_compression dib = 0
      \/ dib_compression dib = 3 /\ (dib_depth dib = 16 \/ dib_depth dib = 32))
  /\ (pixmap = map \/ pixmap - map = 4 * paletteEntryCount dib)
  /\ (dib_y dib * stride dib < 2 ^ 64 ->
      pixmap + dib_y dib * stride dib <= size
      /\ dib_y dib * stride dib <= 64 * 1024 * 1024).
Proof.
  intros Hp.
  destruct (parsed_facts _ _ _ _ _ Hp)
    as (Hdib & Hmap & Hpix & Hs & Hb & Hm & Hsz & Hoff & Hds & Hsw & Hfit & Hcap & Hce & Hct).
  destruct (parsed_dimensions _ _ _ _ _ Hp) as (Hd & Rx & Ry).
  pose proof (rd32_range bmp 2) as R2. pose proof (rd32_range bmp 10) as R10.
  assert (Ds : dib_size dib = rd32 bmp 14) by (rewrite Hdib; reflexivity).
  rewrite (row_sizeof_stride dib Hd Rx) in Hfit, Hcap.
  repeat match goal with |- _ /\ _ => split end; try assumption; try lia.
  - unfold depth_switch in Hsw.
    destruct Hd as [D | [D | [D | [D | [D | D]]]]]; rewrite D in *; cbn in Hsw; lia.
  - intros Hw. unfold UINTN, uint32 in *.
    change (2 ^ 64) with 18446744073709551616 in *. change (2 ^ 32) with 4294967296 in *.
    assert (0 <= dib_y dib * stride dib).
    { apply Z.mul_nonneg_nonneg; [lia|]. unfold stride.
      assert (0 <= dib_depth dib * dib_x dib)
        by (destruct Hd as [D | [D | [D | [D | [D | D]]]]]; rewrite D; lia).
      Z.div_mod_to_equations. lia. }
    rewrite (Z.mul_comm (stride dib)) in Hcap.
    rewrite (Z.mod_small (dib_y dib * stride dib)) in * by lia.
    rewrite (Z.mod_small (rd32 bmp 2 - rd32 bmp 10)) in * by lia. lia.
Qed.

Lemma accepted_header_bounds_witness :
  let bmp := load image_10x2_1 in
  54 <= 62 <= 70 /\ 62 + dib_y (bmp_dib_at bmp 14) * stride (bmp_dib_at bmp 14) <= 70.
Proof.
  intros bmp.
  assert (H : bmp_parse_header bmp 70 = Parsed (bmp_dib_at bmp 14) 54 62)
    by (vm_compute; reflexivity).
  destruct (accepted_header_bounds bmp 70 _ 54 62 H)
    as (_ & _ & _ & _ & _ & _ & _ & A & B & _ & _ & _ & C).
  split; [lia|]. apply C. vm_compute. reflexivity.
Defined.

Lemma channel_rd32 (m : memory) (a : Z) :
  channel (rd32 m a) 0 = rd8 m a
  /\ channel (rd32 m a) 8 = rd8 m (a + 1)
  /\ channel (rd32 m a) 16 = rd8 m (a + 2)
  /\ channel (rd32 m a) 24 = rd8 m (a + 3).
Proof.
  pose proof (rd8_range m a). pose proof (rd8_range m (a + 1)).
  pose proof (rd8_range m (a + 2)). pose proof (rd8_range m (a + 3)).
  rewrite !channel_div by lia. unfold rd32.
  change (2 ^ 0) with 1. change (2 ^ 8) with 256. change (2 ^ 16) with 65536.
  change (2 ^ 24) with 16777216.
  repeat split; Z.div_mod_to_equations; lia.
Qed.

Lemma unsigned_of_shiftr (v k : Z) :
  0 <= k -> byte.unsigned (byte.of_Z (Z.shiftr v k)) = channel v k.
Proof.
  intros Hk. rewrite byte_of_channel by assumption.
  apply unsigned_of_Z_small, channel_range.
Qed.

(** Depth 24: every pixel of an accepted image gets the three bytes of its
    place in the mirrored stored row, in the order blue, green, red, with
    no scaling, and keeps its reserved byte. *)
Theorem decode_24_bit (bmp : memory) (size : Z) (dib : bmp_dib) (map pixmap : Z)
        (buf : blt_buffer) (x y : Z) :
  bmp_parse_header bmp size = Parsed dib map pixmap ->
  dib_depth dib = 24 ->
  0 <= x < dib_x dib -> 0 <= y < dib_y dib ->
  let a := pixmap + (dib_y dib - 1 - y) * stride dib + 3 * x in
  let p := snd (fst (bmp_to_blt bmp dib map pixmap buf)) (y * dib_x dib + x) in
  byte.unsigned (Blue p) = rd8 bmp a
  /\ byte.unsigned (Green p) = rd8 bmp (a + 1)
  /\ byte.unsigned (Red p) = rd8 bmp (a + 2)
  /\ Reserved p = Reserved (buf (y * dib_x dib + x)).
Proof.
  intros Hp D Hx0 Hy0 a p.
  destruct (parsed_dimensions _ _ _ _ _ Hp) as (Hd & Rx & Ry).
  unfold p. rewrite bmp_to_blt_pixel by assumption.
  unfold decoded_pixel. rewrite D. cbn [Z.eqb Pos.eqb Red Green Blue Reserved].
  fold a. rewrite !unsigned_of_Z_small by apply rd8_range. repeat split.
Qed.

Lemma decode_24_bit_witness :
  let bmp := load image_2x2 in
  let dib := bmp_dib_at bmp 14 in
  let p := snd (fst (bmp_to_blt bmp dib 54 54 (fun _ => black))) (1 * dib_x dib + 0) in
  let a := 54 + (dib_y dib - 1 - 1) * stride dib + 3 * 0 in
  byte.unsigned (Blue p) = rd8 bmp a
  /\ byte.unsigned (Green p) = rd8 bmp (a + 1)
  /\ byte.unsigned (Red p) = rd8 bmp (a + 2).
Proof.
  intros bmp dib p a.
  assert (H : bmp_parse_header bmp 70 = Parsed dib 54 54) by (vm_compute; reflexivity).
  assert (D : dib_depth dib = 24) by (vm_compute; reflexivity).
  assert (X : 0 <= 0 < dib_x dib) by (vm_compute; intuition discriminate).
  assert (Y : 0 <= 1 < dib_y dib) by (vm_compute; intuition discriminate).
  destruct (decode_24_bit bmp 70 dib 54 54 (fun _ => black) 0 1 H D X Y) as (B & G & R & _).
  split; [exact B | split; [exact G | exact R]].
Defined.

(** Depth 32: the four bytes of a pixel are alpha, blue, green, red; every
    channel of the result is the interpolation between what the buffer held
    and the source byte, with the pixel's own alpha, and the reserved byte
    becomes 0. *)
Theorem decode_32_bit (bmp : memory) (size : Z) (dib : bmp_dib) (map pixmap : Z)
        (buf : blt_buffer) (x y : Z) :
  bmp_parse_header bmp size = Parsed dib map pixmap ->
  dib_depth dib = 32 ->
  0 <= x < dib_x dib -> 0 <= y < dib_y dib ->
  let a := pixmap + (dib_y dib - 1 - y) * stride dib + 4 * x in
  let old := buf (y * dib_x dib + x) in
  let p := snd (fst (bmp_to_blt bmp dib map pixmap buf)) (y * dib_x dib + x) in
  let alpha := rd8 bmp a in
  byte.unsigned (Blue p) = lerp (byte.unsigned (Blue old)) (rd8 bmp (a + 1)) alpha
  /\ byte.unsigned (Green p) = lerp (byte.unsigned (Green old)) (rd8 bmp (a + 2)) alpha
  /\ byte.unsigned (Red p) = lerp (byte.unsigned (Red old)) (rd8 bmp (a + 3)) alpha
  /\ byte.unsigned (Reserved p) = 0.
Proof.
  intros Hp D Hx0 Hy0 a old p alpha.
  destruct (parsed_dimensions _ _ _ _ _ Hp) as (Hd & Rx & Ry).
  unfold p. rewrite bmp_to_blt_pixel by assumption.
  unfold decoded_pixel. rewrite D. cbn [Z.eqb Pos.eqb]. fold a old.
  destruct (pixel_blend_channels (pixel_word old) (rd32 bmp a)) as (Cb & Cg & Cr & Cx).
  destruct (channel_pixel_word old) as (Pb & Pg & Pr & _).
  destruct (channel_rd32 bmp a) as (Sa & Sb & Sg & Sr).
  rewrite Pb, Pg, Pr, Sa, Sb, Sg, Sr in *.
  cbn [Z.add Pos.add Pos.succ] in *.
  unfold word_pixel. cbn [Red Green Blue Reserved].
  rewrite <- (Z.shiftr_0_r (pixel_blend (pixel_word old) (rd32 bmp a))) at 1.
  rewrite !unsigned_of_shiftr by lia.
  repeat split; assumption.
Qed.

Lemma decode_32_bit_witness :
  let bmp := load image_2x1_32 in
  let dib := bmp_dib_at bmp 14 in
  let p := snd (fst (bmp_to_blt bmp dib 54 54 (fun _ => rgb 0 0 255))) (0 * dib_x dib + 0) in
  let a := 54 + (dib_y dib - 1 - 0) * stride dib + 4 * 0 in
  byte.unsigned (Blue p) = lerp (byte.unsigned (Blue (rgb 0 0 255))) (rd8 bmp (a + 1)) (rd8 bmp a)
  /\ byte.unsigned (Reserved p) = 0.
Proof.
  intros bmp dib p a.
  assert (H : bmp_parse_header bmp 62 = Parsed dib 54 54) by (vm_compute; reflexivity).
  assert (D : dib_depth dib = 32) by (vm_compute; reflexivity).
  assert (X : 0 <= 0 < dib_x dib) by (vm_compute; intuition discriminate).
  assert (Y : 0 <= 0 < dib_y dib) by (vm_compute; intuition discriminate).
  destruct (decode_32_bit bmp 62 dib 54 54 (fun _ => rgb 0 0 255) 0 0 H D X Y)
    as (B & _ & _ & R).
  split; [exact B | exact R].
Defined.

(** Depths 1, 4 and 8: the three code paths implement one packing.  Pixel
    [x] of a row is the group of [depth] bits number [x] of the stored
    row, the most significant bits of a byte first; the group is an index
    below [2 ^ depth] into the colour table at [map], whose entry gives
    blue, green and red; the reserved byte of the pixel stays. *)
Theorem decode_indexed (bmp : memory) (size : Z) (dib : bmp_dib) (map pixmap : Z)
        (buf : blt_buffer) (x y : Z) :
  bmp_parse_header bmp size = Parsed dib map pixmap ->
  dib_depth dib <= 8 ->
  0 <= x < dib_x dib -> 0 <= y < dib_y dib ->
  let d := dib_depth dib in
  let bit := d * x in
  let b := rd8 bmp (pixmap + (dib_y dib - 1 - y) * stride dib + bit / 8) in
  let i := (b / 2 ^ (8 - d - bit mod 8)) mod 2 ^ d in
  let p := snd (fst (bmp_to_blt bmp dib map pixmap buf)) (y * dib_x dib + x) in
  0 <= i < 2 ^ d
  /\ byte.unsigned (Blue p) = rd8 bmp (map + 4 * i)
  /\ byte.unsigned (Green p) = rd8 bmp (map + 4 * i + 1)
  /\ byte.unsigned (Red p) = rd8 bmp (map + 4 * i + 2)
  /\ Reserved p = Reserved (buf (y * dib_x dib + x)).
Proof.
  intros Hp D8 Hx0 Hy0 d bit b i p.
  destruct (parsed_dimensions _ _ _ _ _ Hp) as (Hd & Rx & Ry).
  assert (Hi : 0 <= i < 2 ^ d).
  { unfold i. apply Z.mod_pos_bound. apply Z.pow_pos_nonneg; [lia|].
    unfold d. destruct Hd as [D | [D | [D | [D | [D | D]]]]]; lia. }
  split; [exact Hi|].
  assert (Ep : p = palette_pixel bmp map i (buf (y * dib_x dib + x))).
  { unfold p. rewrite bmp_to_blt_pixel by assumption.
    pose proof (rd8_range bmp (pixmap + (dib_y dib - 1 - y) * stride dib + bit / 8)) as Rb.
    fold b in Rb. unfold decoded_pixel.
    destruct Hd as [D | [D | [D | [D | [D | D]]]]]; try lia;
      unfold i, b, bit, d in *; rewrite D in *; cbn [Z.eqb Pos.eqb]; f_equal.
    - rewrite !Z.mul_1_l.
      rewrite Z.shiftr_div_pow2 by (Z.div_mod_to_equations; lia).
      replace (8 - 1 - x mod 8) with (7 - x mod 8) by lia.
      apply (Z.land_ones _ 1). lia.
    - replace (4 * x / 8) with (x / 2) in * by (Z.div_mod_to_equations; lia).
      destruct (Z.eqb_spec (x mod 2) 0) as [E | E].
      + replace ((4 * x) mod 8) with 0 by (Z.div_mod_to_equations; lia).
        rewrite Z.shiftr_div_pow2 by lia. change (8 - 4 - 0) with 4.
        change (2 ^ 4) with 16 in *. Z.div_mod_to_equations. lia.
      + replace ((4 * x) mod 8) with 4 by (Z.div_mod_to_equations; lia).
        change 0x0f with (Z.ones 4). rewrite Z.land_ones by lia.
        change (8 - 4 - 4) with 0. change (2 ^ 0) with 1. rewrite Z.div_1_r. reflexivity.
    - replace (8 * x / 8) with x in * by (Z.div_mod_to_equations; lia).
      replace ((8 * x) mod 8) with 0 by (Z.div_mod_to_equations; lia).
      change (8 - 8 - 0) with 0. change (2 ^ 0) with 1. change (2 ^ 8) with 256.
      rewrite Z.div_1_r. symmetry. apply Z.mod_small. lia. }
  rewrite Ep. unfold palette_pixel, map_blue, map_green, map_red, sizeof_bmp_map.
  cbn [Red Green Blue Reserved].
  rewrite !unsigned_of_Z_small by apply rd8_range. repeat split.
Qed.

Lemma decode_indexed_witness :
  let bmp := load image_10x2_1 in
  let dib := bmp_dib_at bmp 14 in
  let p := snd (fst (bmp_to_blt bmp dib 54 62 (fun _ => black))) (1 * dib_x dib + 9) in
  let bit := dib_depth dib * 9 in
  let b := rd8 bmp (62 + (dib_y dib - 1 - 1) * stride dib + bit / 8) in
  let i := (b / 2 ^ (8 - dib_depth dib - bit mod 8)) mod 2 ^ dib_depth dib in
  byte.unsigned (Red p) = rd8 bmp (54 + 4 * i + 2).
Proof.
  intros bmp dib p bit b i.
  assert (H : bmp_parse_header bmp 70 = Parsed dib 54 62) by (vm_compute; reflexivity).
  assert (D : dib_depth dib <= 8) by (vm_compute; discriminate).
  assert (X : 0 <= 9 < dib_x dib) by (vm_compute; intuition discriminate).
  assert (Y : 0 <= 1 < dib_y dib) by (vm_compute; intuition discriminate).
  destruct (decode_indexed bmp 70 dib 54 62 (fun _ => black) 9 1 H D X Y)
    as (_ & _ & _ & R & _).
  exact R.
Defined.

(** ** bmp_to_blt: the addresses it reads through [in] and [map] *)

Lemma cur_reads_set_x v s : cur_reads (set_x v s) = cur_reads s. Proof. reflexivity. Qed.
Lemma cur_reads_set_in v s : cur_reads (set_in v s) = cur_reads s. Proof. reflexivity. Qed.
Lemma cur_reads_set_out v s : cur_reads (set_out v s) = cur_reads s. Proof. reflexivity. Qed.
Lemma cur_reads_touch a s : cur_reads (touch a s) = a :: cur_reads s. Proof. reflexivity. Qed.
Lemma cur_reads_store_rgb cr cg cb s : cur_reads (store_rgb cr cg cb s) = cur_reads s.
Proof. reflexivity. Qed.
Lemma cur_reads_store_blend i s : cur_reads (store_blend i s) = cur_reads s.
Proof. reflexivity. Qed.
Lemma cur_reads_store_map bmp map i s :
  cur_reads (store_map bmp map i s)
  = map_blue map i :: cur_in s :: map_green map i :: cur_in s
    :: map_red map i :: cur_in s :: cur_reads s.
Proof. reflexivity. Qed.
Lemma cur_reads_store_index bmp map i s :
  cur_reads (store_index bmp map i s)
  = map_blue map i :: map_green map i :: map_red map i :: cur_reads s.
Proof. reflexivity. Qed.

Section ConverterReads.

Variable bmp : memory.
Variable dib : bmp_dib.
Variable map : Z.
Variable pixmap : Z.

Hypothesis Hdepth : supported_depth (dib_depth dib).
Hypothesis Hx : 0 <= dib_x dib < 2 ^ 32.
Hypothesis Hy : 0 <= dib_y dib < 2 ^ 32.

Local Abbreviation w := (dib_x dib).
Local Abbreviation h := (dib_y dib).
Local Abbreviation Q := (fun a => pixel_byte dib pixmap a \/ table_byte dib map a).

Lemma Q_row (k j : Z) :
  0 <= k < h -> 0 <= j < row_bytes dib w -> Q (pixmap + k * stride dib + j).
Proof. intros Hk Hj. left. exists k. split; [exact Hk | lia]. Qed.

Lemma Q_table (i c : Z) :
  dib_depth dib <= 8 -> 0 <= i < 2 ^ dib_depth dib -> 0 <= c < 3 ->
  Q (map + 4 * i + c).
Proof. intros Hd Hi Hc. right. split; [exact Hd|]. exists i, c. auto. Qed.

Lemma reads_store_map (i : Z) (s : cursor) :
  dib_depth dib <= 8 -> 0 <= i < 2 ^ dib_depth dib ->
  Q (cur_in s) -> Forall Q (cur_reads s) ->
  Forall Q (cur_reads (store_map bmp map i s)).
Proof.
  intros Hd Hi Hin Hr. rewrite cur_reads_store_map.
  unfold map_blue, map_green, map_red, sizeof_bmp_map.
  repeat apply Forall_cons; try assumption.
  - replace (map + 4 * i) with (map + 4 * i + 0) by lia. apply Q_table; auto; lia.
  - apply Q_table; auto; lia.
  - apply Q_table; auto; lia.
Qed.

Lemma reads_store_index (i : Z) (s : cursor) :
  dib_depth dib <= 8 -> 0 <= i < 2 ^ dib_depth dib ->
  Forall Q (cur_reads s) ->
  Forall Q (cur_reads (store_index bmp map i s)).
Proof.
  intros Hd Hi Hr. rewrite cur_reads_store_index.
  unfold map_blue, map_green, map_red, sizeof_bmp_map.
  repeat apply Forall_cons; try assumption.
  - replace (map + 4 * i) with (map + 4 * i + 0) by lia. apply Q_table; auto; lia.
  - apply Q_table; auto; lia.
  - apply Q_table; auto; lia.
Qed.

Lemma index_1_range (v n : Z) : 0 <= Z.land (Z.shiftr v n) 1 < 2 ^ 1.
Proof.
  rewrite (Z.land_ones _ 1) by lia.
  apply Z.mod_pos_bound. reflexivity.
Qed.

Lemma index_4_range (v : Z) :
  0 <= v < 256 -> 0 <= Z.shiftr v 4 < 2 ^ 4 /\ 0 <= Z.land v 0x0f < 2 ^ 4.
Proof.
  intros Hv. rewrite Z.shiftr_div_pow2 by lia.
  change 0x0f with (Z.ones 4). rewrite Z.land_ones by lia.
  change (2 ^ 4) with 16. Z.div_mod_to_equations. lia.
Qed.

Lemma reads_case_1_loop :
  dib_depth dib = 1 ->
  forall (fuel : nat) (i : Z) (s : cursor),
    Q (cur_in s) -> Forall Q (cur_reads s) ->
    Forall Q (cur_reads (case_1_loop bmp dib map fuel i s)).
Proof.
  intros D. induction fuel as [|fuel IH]; intros i s Hin Hr.
  - exact Hr.
  - rewrite case_1_loop_S.
    destruct ((i <? 8) && (cur_x s <? w)); [|exact Hr].
    apply IH.
    + exact Hin.
    + rewrite cur_reads_set_x, cur_reads_set_out.
      apply reads_store_map; try assumption; [lia|].
      rewrite D. apply index_1_range.
Qed.

(* One pass of the inner loop reads pixel bytes of the current row and
   colour table bytes only. *)
Lemma reads_x_next (k : Z) (o : Z) (b : blt_buffer) (x0 : Z) (s : cursor) :
  0 <= k < h ->
  row_inv bmp dib map (pixmap + k * stride dib) o b x0 s -> 0 <= x0 < w ->
  Forall Q (cur_reads s) ->
  Forall Q (cur_reads (x_next bmp dib map s)).
Proof.
  intros Hk [Ix Iin Iout Ibuf Iw] Hx0 Hr.
  unfold x_next. cbv zeta.
  rewrite cur_reads_set_out, cur_reads_set_in, cur_reads_set_x.
  unfold row_bytes in Iin.
  pose proof (rd8_range bmp (cur_in s)) as Rb.
  assert (Hq : forall j, 0 <= j -> (dib_depth dib * x0 + 7) / 8 + j < row_bytes dib w ->
                         Q (cur_in s + j)).
  { intros j Hj Hlt. rewrite Iin.
    replace (pixmap + k * stride dib + (dib_depth dib * x0 + 7) / 8 + j)
      with (pixmap + k * stride dib + ((dib_depth dib * x0 + 7) / 8 + j)) by lia.
    apply Q_row; [exact Hk|]. split; [|exact Hlt].
    assert (0 <= dib_depth dib * x0)
      by (destruct Hdepth as [D | [D | [D | [D | [D | D]]]]]; rewrite D; lia).
    Z.div_mod_to_equations. lia. }
  unfold row_bytes in Hq.
  destruct Hdepth as [D | [D | [D | [D | [D | D]]]]];
    rewrite (switch_depth_eq bmp dib map _ D); cbn [Z.eqb Pos.eqb]; rewrite D in *.
  - unfold case_1. cbv zeta. rewrite cur_reads_set_x, cur_reads_set_out.
    apply reads_case_1_loop; [exact D | | exact Hr].
    rewrite <- (Z.add_0_r (cur_in s)). apply Hq; [lia|].
    Z.div_mod_to_equations. lia.
  - assert (Hin : Q (cur_in s)).
    { rewrite <- (Z.add_0_r (cur_in s)). apply Hq; [lia|]. Z.div_mod_to_equations. lia. }
    destruct (index_4_range _ Rb) as [R1 R2].
    assert (First : Forall Q (cur_reads
                                (store_index bmp map (Z.shiftr (rd8 bmp (cur_in s)) 4)
                                             (touch (cur_in s) s)))).
    { apply reads_store_index; [lia | rewrite D; exact R1 |].
      rewrite cur_reads_touch. apply Forall_cons; assumption. }
    destruct (Z.lt_ge_cases (cur_x s) (uint32 (w - 1))) as [Hlt | Hge].
    + rewrite case_4_two by exact Hlt.
      apply reads_store_index; [lia | rewrite D; exact R2 |].
      rewrite cur_reads_touch, cur_reads_set_x, cur_reads_set_out.
      apply Forall_cons; assumption.
    + rewrite case_4_one by exact Hge. exact First.
  - unfold case_8. apply reads_store_map; try (rewrite ?D; assumption); try lia.
    rewrite <- (Z.add_0_r (cur_in s)). apply Hq; [lia|]. Z.div_mod_to_equations. lia.
  - unfold case_16. cbv zeta.
    rewrite cur_reads_set_in, cur_reads_store_rgb, !cur_reads_touch.
    repeat apply Forall_cons; try assumption.
    + apply Hq; [lia|]. Z.div_mod_to_equations. lia.
    + rewrite <- (Z.add_0_r (cur_in s)). apply Hq; [lia|]. Z.div_mod_to_equations. lia.
  - unfold case_24. cbv zeta.
    rewrite cur_reads_set_in, cur_reads_store_rgb, !cur_reads_touch.
    repeat apply Forall_cons; try assumption.
    + rewrite <- (Z.add_0_r (cur_in s)). apply Hq; [lia|]. Z.div_mod_to_equations. lia.
    + apply Hq; [lia|]. Z.div_mod_to_equations. lia.
    + apply Hq; [lia|]. Z.div_mod_to_equations. lia.
  - unfold case_32. cbv zeta.
    rewrite cur_reads_set_in, cur_reads_store_blend, !cur_reads_touch.
    repeat apply Forall_cons; try assumption.
    + apply Hq; [lia|]. Z.div_mod_to_equations. lia.
    + apply Hq; [lia|]. Z.div_mod_to_equations. lia.
    + apply Hq; [lia|]. Z.div_mod_to_equations. lia.
    + rewrite <- (Z.add_0_r (cur_in s)). apply Hq; [lia|]. Z.div_mod_to_equations. lia.
Qed.

Lemma reads_x_loop (k o : Z) (b : blt_buffer) :
  0 <= k < h ->
  forall (fuel : nat) (x0 : Z) (s : cursor),
    row_inv bmp dib map (pixmap + k * stride dib) o b x0 s -> 0 <= x0 <= w ->
    Forall Q (cur_reads s) ->
    Forall Q (cur_reads (x_loop bmp dib map fuel s)).
Proof.
  intros Hk. induction fuel as [|fuel IH]; intros x0 s I Hx0 Hr.
  - exact Hr.
  - rewrite x_loop_unfold. rewrite (inv_x _ _ _ _ _ _ _ _ I).
    destruct (Z.ltb_spec x0 w) as [Hlt | Hge]; [|exact Hr].
    destruct (x_step bmp dib map Hdepth Hx Hy _ o b x0 s I ltac:(lia)) as (x1 & Hx1 & I1).
    apply (IH x1); [exact I1 | lia |].
    apply (reads_x_next k o b x0); [exact Hk | exact I | lia | exact Hr].
Qed.

(* The cursor at the head of the inner loop, for the stored row [y]. *)
Lemma row_start_inv (y : Z) (s : cursor) :
  0 <= y < h ->
  row_inv bmp dib map (cur_in s) ((h - 1 - y) * w) (cur_buf s) 0
          (set_x 0 (set_out (UINTN (UINTN (UINTN (h - y) - 1) * w)) s)).
Proof.
  intros Hy0. constructor.
  - reflexivity.
  - rewrite cur_in_set_x, cur_in_set_out. unfold row_bytes. rewrite Z.mul_0_r.
    change ((0 + 7) / 8) with 0. lia.
  - rewrite cur_out_set_x, cur_out_set_out.
    assert (E1 : UINTN (UINTN (h - y) - 1) = h - 1 - y).
    { unfold UINTN. change (2 ^ 32) with 4294967296 in *.
      change (2 ^ 64) with 18446744073709551616. Z.div_mod_to_equations. lia. }
    rewrite E1. unfold UINTN. rewrite Z.mod_small; [lia|].
    change (2 ^ 32) with 4294967296 in *. change (2 ^ 64) with 18446744073709551616. nia.
  - intros i. rewrite cur_buf_set_x, cur_buf_set_out. unfold filled.
    replace ((h - 1 - y) * w + 0) with ((h - 1 - y) * w) by lia.
    replace (((h - 1 - y) * w <=? i) && (i <? (h - 1 - y) * w)) with false by lia.
    reflexivity.
  - right. rewrite Z.mul_0_r. reflexivity.
Qed.

Lemma reads_y_body (y : Z) (s : cursor) :
  0 <= y < h -> cur_in s = pixmap + y * stride dib ->
  Forall Q (cur_reads s) ->
  Forall Q (cur_reads (y_body bmp dib map pixmap y s)).
Proof.
  intros Hy0 Hin Hr. unfold y_body. cbv zeta. rewrite cur_reads_set_in.
  pose proof (row_start_inv y s Hy0) as I0. rewrite Hin in I0.
  apply (reads_x_loop y _ _ Hy0 _ 0 _ I0); [lia|].
  rewrite cur_reads_set_x, cur_reads_set_out. exact Hr.
Qed.

Lemma reads_y_loop :
  forall (fuel : nat) (y : Z) (s : cursor),
    0 <= y -> y + Z.of_nat fuel <= h ->
    cur_in s = pixmap + y * stride dib ->
    Forall Q (cur_reads s) ->
    Forall Q (cur_reads (y_loop bmp dib map pixmap fuel y s)).
Proof.
  induction fuel as [|fuel IH]; intros y s Hy0 Hf Hin Hr.
  - exact Hr.
  - cbn [y_loop]. replace (y <? h) with true by lia.
    destruct (y_body_spec bmp dib map pixmap Hdepth Hx Hy y s ltac:(lia) Hin) as [Bin _].
    assert (Ey : UINTN (y + 1) = y + 1).
    { unfold UINTN. change (2 ^ 32) with 4294967296 in *.
      change (2 ^ 64) with 18446744073709551616. Z.div_mod_to_equations. lia. }
    rewrite Ey. apply IH; [lia | lia | exact Bin |].
    apply reads_y_body; [lia | exact Hin | exact Hr].
Qed.

Lemma reads_bmp_to_blt (buf : blt_buffer) :
  Forall Q (snd (bmp_to_blt bmp dib map pixmap buf)).
Proof.
  unfold bmp_to_blt, after_rows. cbn [snd].
  apply reads_y_loop.
  - lia.
  - lia.
  - cbn [cur_in bmp_to_blt_start]. lia.
  - constructor.
Qed.

(* The inner loop has nothing left to do once [x] has reached the width. *)
Lemma x_loop_done (fuel : nat) (s : cursor) :
  w <= cur_x s -> x_loop bmp dib map fuel s = s.
Proof.
  intros Hs. destruct fuel as [|fuel]; [reflexivity|].
  rewrite x_loop_unfold. replace (cur_x s <? w) with false by lia. reflexivity.
Qed.

Lemma x_loop_more_fuel (r o : Z) (b : blt_buffer) (extra : nat) :
  forall (fuel : nat) (x0 : Z) (s : cursor),
    row_inv bmp dib map r o b x0 s -> 0 <= x0 <= w -> w - x0 <= Z.of_nat fuel ->
    x_loop bmp dib map (fuel + extra) s = x_loop bmp dib map fuel s.
Proof.
  induction fuel as [|fuel IH]; intros x0 s I Hx0 Hf.
  - cbn [Nat.add x_loop]. apply x_loop_done. rewrite (inv_x _ _ _ _ _ _ _ _ I). lia.
  - cbn [Nat.add]. rewrite !x_loop_unfold. rewrite (inv_x _ _ _ _ _ _ _ _ I).
    destruct (Z.ltb_spec x0 w) as [Hlt | Hge]; [|reflexivity].
    destruct (x_step bmp dib map Hdepth Hx Hy r o b x0 s I ltac:(lia)) as (x1 & Hx1 & I1).
    apply (IH x1); [exact I1 | lia | lia].
Qed.

Lemma y_loop_more_fuel (extra : nat) :
  forall (fuel : nat) (y : Z) (s : cursor),
    0 <= y -> h - y <= Z.of_nat fuel ->
    y_loop bmp dib map pixmap (fuel + extra) y s = y_loop bmp dib map pixmap fuel y s.
Proof.
  induction fuel as [|fuel IH]; intros y s Hy0 Hf.
  - cbn [Nat.add y_loop]. destruct extra as [|extra]; [reflexivity|].
    cbn [y_loop]. replace (y <? h) with false by lia. reflexivity.
  - cbn [Nat.add y_loop]. destruct (Z.ltb_spec y h) as [Hlt | Hge]; [|reflexivity].
    assert (Ey : UINTN (y + 1) = y + 1).
    { unfold UINTN. change (2 ^ 32) with 4294967296 in *.
      change (2 ^ 64) with 18446744073709551616. Z.div_mod_to_equations. lia. }
    rewrite Ey. apply IH; lia.
Qed.

End ConverterReads.

(** Every address the converter reads through its pointers [in] and [map]
    for an accepted image is a byte of a pixel row proper, never of the
    padding behind it, or, at depths 1, 4 and 8, a colour byte of one of
    the first [2 ^ depth] entries of the colour table.  The loads of the
    header fields [dib->x], [dib->y] and [dib->depth], the only other loads
    of the function from the image, are not among the addresses meant. *)
Theorem reads_confined (bmp : memory) (size : Z) (dib : bmp_dib) (map pixmap : Z)
        (buf : blt_buffer) :
  bmp_parse_header bmp size = Parsed dib map pixmap ->
  forall a, In a (snd (bmp_to_blt bmp dib map pixmap buf)) ->
            pixel_byte dib pixmap a \/ table_byte dib map a.
Proof.
  intros Hp. destruct (parsed_dimensions _ _ _ _ _ Hp) as (Hd & Rx & Ry).
  apply Forall_forall. apply reads_bmp_to_blt; assumption.
Qed.

Lemma reads_confined_witness :
  let bmp := load image_10x2_1 in
  let dib := bmp_dib_at bmp 14 in
  pixel_byte dib 62 67 \/ table_byte dib 54 67.
Proof.
  intros bmp dib.
  assert (H : bmp_parse_header bmp 70 = Parsed dib 54 62) by (vm_compute; reflexivity).
  apply (reads_confined bmp 70 dib 54 62 (fun _ => black) H).
  vm_compute. auto.
Defined.

(** The reads of the converter stay inside the input when the image was
    accepted, the height times the stride has not wrapped in 64 bits, and
    either the depth is 16 or more or the colour table in front of the
    pixel data has all its [2 ^ depth] entries. *)
Theorem reads_inside_input (bmp : memory) (size : Z) (dib : bmp_dib) (map pixmap : Z)
        (buf : blt_buffer) :
  bmp_parse_header bmp size = Parsed dib map pixmap ->
  dib_y dib * stride dib < 2 ^ 64 ->
  16 <= dib_depth dib \/ pixmap - map = 4 * 2 ^ dib_depth dib ->
  forall a, In a (snd (bmp_to_blt bmp dib map pixmap buf)) -> 0 <= a < size.
Proof.
  intros Hp Hw Hfull a Ha.
  destruct (parsed_dimensions _ _ _ _ _ Hp) as (Hd & Rx & Ry).
  destruct (parsed_facts _ _ _ _ _ Hp)
    as (Hdib & Hmap & Hpix & Hs & _ & _ & Hsz & Hoff & Hds & _ & Hfit & _ & Hce & _).
  pose proof (rd32_range bmp 2) as R2. pose proof (rd32_range bmp 10) as R10.
  rewrite (row_sizeof_stride dib Hd Rx) in Hfit.
  pose proof (stride_row_bytes dib) as Hsr.
  assert (Hdw : 0 <= dib_depth dib * dib_x dib)
    by (destruct Hd as [D | [D | [D | [D | [D | D]]]]]; rewrite D; lia).
  assert (Hrb : 0 <= row_bytes dib (dib_x dib) <= stride dib).
  { split; [unfold row_bytes|]; Z.div_mod_to_equations; lia. }
  assert (Hrows : pixmap + dib_y dib * stride dib <= size).
  { unfold UINTN, uint32 in Hfit.
    change (2 ^ 64) with 18446744073709551616 in *. change (2 ^ 32) with 4294967296 in *.
    assert (0 <= dib_y dib * stride dib) by nia.
    rewrite (Z.mod_small (dib_y dib * stride dib)) in Hfit by lia.
    rewrite (Z.mod_small (rd32 bmp 2 - rd32 bmp 10)) in Hfit by lia. lia. }
  pose proof (reads_bmp_to_blt bmp dib map pixmap Hd Rx Ry buf) as Hr.
  rewrite Forall_forall in Hr. destruct (Hr a Ha) as [(k & Hk & Hlo) | (Hd8 & i & c & Hi & Hc & ->)].
  - assert (k * stride dib + stride dib <= dib_y dib * stride dib) by nia.
    assert (0 <= k * stride dib) by nia. lia.
  - destruct Hfull as [Hf | Hf]; [lia|]. lia.
Qed.

Lemma reads_inside_input_witness :
  let bmp := load image_3x2_16 in
  let dib := bmp_dib_at bmp 14 in
  Forall (fun a => 0 <= a < 70) (snd (bmp_to_blt bmp dib 54 54 (fun _ => black))).
Proof.
  intros bmp dib.
  assert (H : bmp_parse_header bmp 70 = Parsed dib 54 54) by (vm_compute; reflexivity).
  assert (W : dib_y dib * stride dib < 2 ^ 64) by (vm_compute; reflexivity).
  assert (D : 16 <= dib_depth dib \/ 54 - 54 = 4 * 2 ^ dib_depth dib)
    by (left; vm_compute; discriminate).
  apply Forall_forall.
  exact (reads_inside_input bmp 70 dib 54 54 (fun _ => black) H W D).
Defined.

(** The loops of the converter leave through their tests.  For an accepted
    image the column loop ends with [x] equal to the width, also at depths
    1 and 4 where a pass moves [x] by up to 8 or 2, and the passes the
    model grants beyond the width, or beyond the height for the row loop,
    change nothing. *)
Theorem loops_exit_by_test (bmp : memory) (size : Z) (dib : bmp_dib) (map pixmap : Z)
        (buf : blt_buffer) :
  bmp_parse_header bmp size = Parsed dib map pixmap ->
  (forall y s, 0 <= y < dib_y dib ->
     let s0 := set_x 0 (set_out (UINTN (UINTN (UINTN (dib_y dib - y) - 1) * dib_x dib)) s) in
     cur_x (x_loop bmp dib map (Z.to_nat (dib_x dib)) s0) = dib_x dib
     /\ forall extra, x_loop bmp dib map (Z.to_nat (dib_x dib) + extra) s0
                      = x_loop bmp dib map (Z.to_nat (dib_x dib)) s0)
  /\ (forall extra,
        y_loop bmp dib map pixmap (Z.to_nat (dib_y dib) + extra) 0 (bmp_to_blt_start pixmap buf)
        = after_rows bmp dib map pixmap (Z.to_nat (dib_y dib)) buf).
Proof.
  intros Hp. destruct (parsed_dimensions _ _ _ _ _ Hp) as (Hd & Rx & Ry).
  split.
  - intros y s Hy0 s0.
    pose proof (row_start_inv bmp dib map Rx Ry y s Hy0) as I0. fold s0 in I0.
    split.
    + apply (inv_x _ _ _ _ _ _ _ _
               (x_loop_exits bmp dib map Hd Rx Ry _ _ _ (Z.to_nat (dib_x dib)) 0 s0
                             I0 ltac:(lia) ltac:(lia))).
    + intros extra.
      apply (x_loop_more_fuel bmp dib map Hd Rx Ry _ _ _ extra _ 0 s0 I0); lia.
  - intros extra. unfold after_rows.
    apply y_loop_more_fuel; try assumption; lia.
Qed.

Lemma loops_exit_by_test_witness :
  let bmp := load image_10x2_1 in
  let dib := bmp_dib_at bmp 14 in
  y_loop bmp dib 54 62 (Z.to_nat (dib_y dib) + 5) 0 (bmp_to_blt_start 62 (fun _ => black))
  = after_rows bmp dib 54 62 (Z.to_nat (dib_y dib)) (fun _ => black).
Proof.
  intros bmp dib.
  assert (H : bmp_parse_header bmp 70 = Parsed dib 54 62) by (vm_compute; reflexivity).
  destruct (loops_exit_by_test bmp 70 dib 54 62 (fun _ => black) H) as [_ A].
  exact (A 5%nat).
Defined.

(** ** graphics_splash: the whole run *)

Lemma bmp_to_blt_triple (bmp : memory) (dib : bmp_dib) (map pixmap : Z) (buf : blt_buffer) :
  bmp_to_blt bmp dib map pixmap buf
  = (EFI_SUCCESS, snd (fst (bmp_to_blt bmp dib map pixmap buf)),
     snd (bmp_to_blt bmp dib map pixmap buf)).
Proof. reflexivity. Qed.

(** When the display is there and answers every call, an accepted image
    that is not larger than the screen ends up as follows: the call
    succeeds, graphics mode is on, and every pixel of the screen shows the
    background colour, except inside the centred rectangle of the image,
    where it shows the image pixel decoded over the background colour.
    What the screen showed before is gone everywhere. *)
Theorem splash_on_screen (fw : firmware) (scr : screen) (content : memory) (len : Z)
        (background : option EFI_GRAPHICS_OUTPUT_BLT_PIXEL)
        (dib : bmp_dib) (map pixmap : Z) :
  0 <= HorizontalResolution scr < 2 ^ 32 ->
  0 <= VerticalResolution scr < 2 ^ 32 ->
  bmp_parse_header content len = Parsed dib map pixmap ->
  dib_x dib <= HorizontalResolution scr ->
  dib_y dib <= VerticalResolution scr ->
  LocateProtocol fw = EFI_SUCCESS ->
  (forall op, Blt_status fw op = EFI_SUCCESS) ->
  graphics_mode_status fw = EFI_SUCCESS ->
  let bg := resolved_background fw background in
  let x_pos := x_pos_of scr dib in
  let y_pos := y_pos_of scr dib in
  let out := graphics_splash fw scr content len background in
  fst out = EFI_SUCCESS
  /\ graphics (snd out) = true
  /\ forall i j, 0 <= i < HorizontalResolution scr -> 0 <= j < VerticalResolution scr ->
       video (snd out) i j
       = if in_rect i j x_pos y_pos (dib_x dib) (dib_y dib)
         then decoded_pixel content dib map
                (pixmap + (dib_y dib - 1 - (j - y_pos)) * stride dib) (i - x_pos) bg
         else bg.
Proof.
  intros HW HH Hp Hfx Hfy HL HB HG bg x_pos y_pos out.
  destruct (parsed_dimensions _ _ _ _ _ Hp) as (Hd & Rx & Ry).
  destruct (parsed_facts _ _ _ _ _ Hp) as (_ & _ & _ & Hs & _).
  assert (Hlen : (len =? 0) = false) by lia.
  assert (Px : 0 <= x_pos /\ x_pos + dib_x dib <= HorizontalResolution scr).
  { unfold x_pos, x_pos_of, uint32. change (2 ^ 32) with 4294967296 in *.
    destruct (Z.ltb_spec (dib_x dib) (HorizontalResolution scr));
      split; Z.div_mod_to_equations; lia. }
  assert (Py : 0 <= y_pos /\ y_pos + dib_y dib <= VerticalResolution scr).
  { unfold y_pos, y_pos_of, uint32. change (2 ^ 32) with 4294967296 in *.
    destruct (Z.ltb_spec (dib_y dib) (VerticalResolution scr));
      split; Z.div_mod_to_equations; lia. }
  unfold out, graphics_splash. rewrite Hlen, HL, Hp. cbn [is_error].
  fold bg. unfold resolved_background in bg. fold bg. fold x_pos y_pos.
  unfold Blt, graphics_mode. rewrite !HB, HG. cbn [is_error].
  match goal with
  | |- context [bmp_to_blt content dib map pixmap ?B] => set (blt0 := B)
  end.
  rewrite (bmp_to_blt_triple content dib map pixmap blt0).
  cbn [is_error fst snd graphics video set_video record_call].
  split; [reflexivity|]. split; [reflexivity|].
  intros i j Hi Hj.
  destruct (in_rect i j x_pos y_pos (dib_x dib) (dib_y dib)) eqn:Hin.
  - unfold in_rect in Hin.
    assert (Hx0 : 0 <= i - x_pos < dib_x dib) by lia.
    assert (Hy0 : 0 <= j - y_pos < dib_y dib) by lia.
    replace ((j - y_pos + 0) * dib_x dib + (i - x_pos + 0))
      with ((j - y_pos) * dib_x dib + (i - x_pos)) by lia.
    rewrite bmp_to_blt_pixel by assumption. f_equal.
    unfold blt0.
    assert (Em : ((j - y_pos) * dib_x dib + (i - x_pos)) mod dib_x dib = i - x_pos)
      by (symmetry; apply Z.mod_unique with (q := j - y_pos); [lia | ring]).
    assert (Ed : ((j - y_pos) * dib_x dib + (i - x_pos)) / dib_x dib = j - y_pos)
      by (symmetry; apply Z.div_unique with (r := i - x_pos); [lia | ring]).
    rewrite Em, Ed. unfold in_rect.
    replace ((0 <=? i - x_pos) && (i - x_pos <? 0 + dib_x dib)
             && (0 <=? j - y_pos) && (j - y_pos <? 0 + dib_y dib)) with true by lia.
    cbn [video set_video record_call].
    replace ((0 <=? i - x_pos - 0 + x_pos)
             && (i - x_pos - 0 + x_pos <? 0 + HorizontalResolution scr)
             && (0 <=? j - y_pos - 0 + y_pos)
             && (j - y_pos - 0 + y_pos <? 0 + VerticalResolution scr)) with true by lia.
    reflexivity.
  - unfold in_rect.
    replace ((0 <=? i) && (i <? 0 + HorizontalResolution scr)
             && (0 <=? j) && (j <? 0 + VerticalResolution scr)) with true by lia.
    reflexivity.
Qed.

Lemma splash_on_screen_witness :
  let out := graphics_splash firmware_ok screen_10x10 (load image_2x2) 70 None in
  fst out = EFI_SUCCESS /\ graphics (snd out) = true.
Proof.
  intros out.
  assert (H : bmp_parse_header (load image_2x2) 70
              = Parsed (bmp_dib_at (load image_2x2) 14) 54 54)
    by (vm_compute; reflexivity).
  destruct (splash_on_screen firmware_ok screen_10x10 (load image_2x2) 70 None _ _ _
              ltac:(vm_compute; intuition discriminate)
              ltac:(vm_compute; intuition discriminate) H
              ltac:(vm_compute; discriminate) ltac:(vm_compute; discriminate)
              eq_refl (fun _ => eq_refl) eq_refl) as (A & B & _).
  split; [exact A | exact B].
Defined.

(** For an accepted image, [graphics_splash] returns the status of the
    first step that fails and makes no call after it: nothing reaches the
    display when it cannot be located; after a failed fill, read or mode
    switch the later calls are missing; and when only the final write
    fails, the screen is left filled with the background colour, without
    the image but with graphics mode on. *)
Theorem first_failure_stops (fw : firmware) (scr : screen) (content : memory) (len : Z)
        (background : option EFI_GRAPHICS_OUTPUT_BLT_PIXEL)
        (dib : bmp_dib) (map pixmap : Z) :
  bmp_parse_header content len = Parsed dib map pixmap ->
  let W := HorizontalResolution scr in
  let H := VerticalResolution scr in
  let fill := CallBlt EfiBltVideoFill 0 0 0 0 W H in
  let read := CallBlt EfiBltVideoToBltBuffer (x_pos_of scr dib) (y_pos_of scr dib) 0 0
                      (dib_x dib) (dib_y dib) in
  let write := CallBlt EfiBltBufferToVideo 0 0 (x_pos_of scr dib) (y_pos_of scr dib)
                       (dib_x dib) (dib_y dib) in
  let out := graphics_splash fw scr content len background in
  (is_error (LocateProtocol fw) = true -> out = (LocateProtocol fw, scr))
  /\ (is_error (LocateProtocol fw) = false ->
      (is_error (Blt_status fw EfiBltVideoFill) = true ->
         fst out = Blt_status fw EfiBltVideoFill
         /\ calls (snd out) = calls scr ++ [fill]
         /\ video (snd out) = video scr /\ graphics (snd out) = graphics scr)
      /\ (is_error (Blt_status fw EfiBltVideoFill) = false ->
          (is_error (Blt_status fw EfiBltVideoToBltBuffer) = true ->
             fst out = Blt_status fw EfiBltVideoToBltBuffer
             /\ calls (snd out) = calls scr ++ [fill; read]
             /\ graphics (snd out) = graphics scr)
          /\ (is_error (Blt_status fw EfiBltVideoToBltBuffer) = false ->
              (is_error (graphics_mode_status fw) = true ->
                 fst out = graphics_mode_status fw
                 /\ calls (snd out) = calls scr ++ [fill; read; CallGraphicsMode]
                 /\ graphics (snd out) = graphics scr)
              /\ (is_error (graphics_mode_status fw) = false ->
                  is_error (Blt_status fw EfiBltBufferToVideo) = true ->
                  fst out = Blt_status fw EfiBltBufferToVideo
                  /\ calls (snd out)
                     = calls scr ++ [fill; read; CallGraphicsMode; write]
                  /\ graphics (snd out) = true
                  /\ forall i j, 0 <= i < W -> 0 <= j < H ->
                       video (snd out) i j = resolved_background fw background)))).
Proof.
  intros Hp W H fill read write out.
  destruct (parsed_facts _ _ _ _ _ Hp) as (_ & _ & _ & Hs & _).
  assert (Hlen : (len =? 0) = false) by lia.
  unfold out, graphics_splash. rewrite Hlen, Hp.
  fold (resolved_background fw background).
  unfold Blt, graphics_mode.
  split; [intros E; rewrite E; reflexivity|]. intros E0. rewrite E0.
  split; [intros E; rewrite E; cbv beta iota zeta; rewrite E;
          cbn [fst snd calls video graphics record_call]; repeat split|].
  intros E1. rewrite E1. cbv beta iota zeta. cbn [is_error].
  split; [intros E; rewrite E; cbv beta iota zeta; rewrite E;
          cbn [fst snd calls video graphics record_call set_video];
          rewrite <- app_assoc; repeat split|].
  intros E2. rewrite E2. cbv beta iota zeta. cbn [is_error].
  rewrite bmp_to_blt_triple. cbn [is_error]. cbv beta iota zeta.
  split; [intros E; rewrite E; cbv beta iota zeta; rewrite E;
          cbn [fst snd calls video graphics record_call set_video];
          rewrite <- !app_assoc; repeat split|].
  intros E3 E4. rewrite E3, E4. cbv beta iota zeta. cbn [is_error].
  cbn [fst snd calls video graphics record_call set_video].
  rewrite <- !app_assoc. repeat split.
  intros i j Hi Hj. unfold in_rect. fold W H.
  replace ((0 <=? i) && (i <? 0 + W) && (0 <=? j) && (j <? 0 + H)) with true by lia.
  reflexivity.
Qed.

Lemma first_failure_stops_witness :
  let out := graphics_splash firmware_write_fails screen_10x10 (load image_2x2) 70 None in
  fst out = EFI_DEVICE_ERROR /\ graphics (snd out) = true
  /\ forall i j, 0 <= i < 10 -> 0 <= j < 10 -> video (snd out) i j = black.
Proof.
  intros out.
  assert (H : bmp_parse_header (load image_2x2) 70
              = Parsed (bmp_dib_at (load image_2x2) 14) 54 54)
    by (vm_compute; reflexivity).
  destruct (first_failure_stops firmware_write_fails screen_10x10 (load image_2x2) 70 None
                                _ _ _ H) as [_ A].
  destruct (A eq_refl) as [_ B]. destruct (B eq_refl) as [_ C].
  destruct (C eq_refl) as [_ D]. destruct (D eq_refl eq_refl) as (E1 & _ & E2 & E3).
  split; [exact E1 | split; [exact E2 | exact E3]].
Defined.

(** ** A round trip through the format *)

Lemma rd8_load (l : list Z) (a : Z) :
  0 <= a -> rd8 (load l) a = nth (Z.to_nat a) l 0 mod 256.
Proof.
  intros Ha. unfold rd8, load. replace (a <? 0) with false by lia.
  rewrite byte.unsigned_of_Z. reflexivity.
Qed.

Lemma le32_sum (v : Z) :
  0 <= v < 2 ^ 32 ->
  (v mod 256) mod 256 + 2 ^ 8 * ((v / 2 ^ 8 mod 256) mod 256)
  + 2 ^ 16 * ((v / 2 ^ 16 mod 256) mod 256) + 2 ^ 24 * ((v / 2 ^ 24 mod 256) mod 256) = v.
Proof.
  intros Hv. change (2 ^ 8) with 256. change (2 ^ 16) with 65536.
  change (2 ^ 24) with 16777216. change (2 ^ 32) with 4294967296 in Hv.
  Z.div_mod_to_equations. lia.
Qed.

Lemma le16_sum (v : Z) :
  0 <= v < 2 ^ 16 ->
  (v mod 256) mod 256 + 2 ^ 8 * ((v / 2 ^ 8 mod 256) mod 256) = v.
Proof.
  intros Hv. change (2 ^ 8) with 256. change (2 ^ 16) with 65536 in Hv.
  Z.div_mod_to_equations. lia.
Qed.

(* The headers written by [bmp_bytes], read back. *)
Lemma headers_of_bmp_bytes (fsize off w h bpp compr used : Z) (body : list Z) :
  0 <= fsize < 2 ^ 32 -> 0 <= off < 2 ^ 32 -> 0 <= w < 2 ^ 32 -> 0 <= h < 2 ^ 32 ->
  0 <= bpp < 2 ^ 16 -> 0 <= compr < 2 ^ 32 -> 0 <= used < 2 ^ 32 ->
  let bmp := load (bmp_bytes 66 77 fsize off w h bpp compr used body) in
  rd8 bmp 0 = 66 /\ rd8 bmp 1 = 77
  /\ rd32 bmp 2 = fsize /\ rd32 bmp 10 = off
  /\ rd32 bmp 14 = 40 /\ rd32 bmp 18 = w /\ rd32 bmp 22 = h
  /\ rd16 bmp 28 = bpp /\ rd32 bmp 30 = compr /\ rd32 bmp 46 = used.
Proof.
  intros Hf Ho Hw Hh Hb Hc Hu bmp. unfold bmp, rd32, rd16.
  rewrite !rd8_load by lia.
  repeat match goal with
         | |- context [Z.to_nat ?n] =>
             let m := eval vm_compute in (Z.to_nat n) in change (Z.to_nat n) with m
         end.
  cbn [bmp_bytes app nth le32 le16].
  rewrite (le32_sum fsize), (le32_sum off), (le32_sum w), (le32_sum h),
    (le32_sum compr), (le32_sum used), (le16_sum bpp) by assumption.
  repeat split; reflexivity.
Qed.

Lemma length_flat_map_const {A B : Type} (f : A -> list B) (n : nat) (l : list A) :
  (forall a, length (f a) = n) -> length (flat_map f l) = (length l * n)%nat.
Proof.
  intros Hf. induction l as [|a l IH]; [reflexivity|].
  cbn [flat_map length]. rewrite length_app, Hf, IH. lia.
Qed.

Lemma nth_flat_map_const {A B : Type} (f : A -> list B) (n : nat) (d : B) (da : A) :
  (forall a, length (f a) = n) ->
  forall (l : list A) (k j : nat),
    (k < length l)%nat -> (j < n)%nat ->
    nth (k * n + j) (flat_map f l) d = nth j (f (nth k l da)) d.
Proof.
  intros Hf. induction l as [|a l IH]; intros k j Hk Hj; [cbn in Hk; lia|].
  cbn [flat_map]. destruct k as [|k].
  - cbn [Nat.mul Nat.add nth]. apply app_nth1. rewrite Hf. exact Hj.
  - rewrite app_nth2 by (rewrite Hf; lia). rewrite Hf.
    replace (S k * n + j - n)%nat with (k * n + j)%nat by lia.
    cbn [nth]. apply IH; [cbn in Hk; lia | exact Hj].
Qed.

Lemma length_columns (n : Z) : length (columns n) = Z.to_nat n.
Proof. unfold columns. now rewrite length_map, length_seq. Qed.

Lemma nth_columns (n : Z) (k : nat) :
  (k < Z.to_nat n)%nat -> nth k (columns n) 0 = Z.of_nat k.
Proof.
  intros Hk. unfold columns.
  change 0 with (Z.of_nat 0). rewrite map_nth. now rewrite seq_nth.
Qed.

Lemma stride_24_bounds (w : Z) :
  0 <= w -> 3 * w <= stride_24 w < 3 * w + 4 /\ stride_24 w mod 4 = 0.
Proof. intros Hw. unfold stride_24. Z.div_mod_to_equations. lia. Qed.

Lemma length_row_24 (w : Z) line :
  0 <= w -> length (row_24 w line) = Z.to_nat (stride_24 w).
Proof.
  intros Hw. destruct (stride_24_bounds w Hw) as [Hs _]. unfold row_24.
  rewrite length_app, repeat_length.
  rewrite (length_flat_map_const _ 3%nat) by reflexivity.
  rewrite length_columns. lia.
Qed.

Lemma nth_row_24 (w : Z) line (x : Z) (c : nat) :
  0 <= x < w -> (c < 3)%nat ->
  nth (Z.to_nat x * 3 + c) (row_24 w line) 0 = nth c (bgr (line x)) 0.
Proof.
  intros Hx Hc. unfold row_24.
  rewrite app_nth1
    by (rewrite (length_flat_map_const _ 3%nat) by reflexivity; rewrite length_columns; lia).
  rewrite (nth_flat_map_const _ 3%nat 0 0) by (try reflexivity; rewrite ?length_columns; lia).
  rewrite nth_columns by lia. rewrite Z2Nat.id by lia. reflexivity.
Qed.

Lemma nth_after_headers (fsize off w h bpp compr used : Z) (body : list Z) (m : nat) :
  nth (54 + m) (bmp_bytes 66 77 fsize off w h bpp compr used body) 0 = nth m body 0.
Proof. reflexivity. Qed.

Lemma length_bmp_bytes (s0 s1 fsize off w h bpp compr used : Z) (body : list Z) :
  length (bmp_bytes s0 s1 fsize off w h bpp compr used body) = (54 + length body)%nat.
Proof. reflexivity. Qed.

(* A byte of a pixel in the file written by [encode_24]. *)
Lemma byte_of_encode_24 (w h : Z) image (x k : Z) (c : nat) :
  0 <= x < w -> 0 <= k < h -> (c < 3)%nat ->
  rd8 (load (encode_24 w h image)) (54 + k * stride_24 w + 3 * x + Z.of_nat c)
  = nth c (bgr (image x (h - 1 - k))) 0.
Proof.
  intros Hx Hk Hc.
  destruct (stride_24_bounds w ltac:(lia)) as [Hs _].
  assert (0 <= k * stride_24 w) by nia.
  rewrite rd8_load by lia.
  replace (Z.to_nat (54 + k * stride_24 w + 3 * x + Z.of_nat c))
    with (54 + (Z.to_nat k * Z.to_nat (stride_24 w) + (Z.to_nat x * 3 + c)))%nat
    by (rewrite !Z2Nat.inj_add, Z2Nat.inj_mul, Z2Nat.inj_mul, Nat2Z.id by lia;
        change (Z.to_nat 54) with 54%nat; change (Z.to_nat 3) with 3%nat; lia).
  unfold encode_24. rewrite nth_after_headers.
  rewrite (nth_flat_map_const _ (Z.to_nat (stride_24 w)) 0 0).
  - rewrite nth_columns by lia. rewrite Z2Nat.id by lia.
    rewrite nth_row_24 by assumption.
    apply Z.mod_small.
    destruct c as [|[|[|c]]]; [| | |lia]; cbn [nth bgr]; apply byte.unsigned_range.
  - intros a. apply length_row_24. lia.
  - rewrite length_columns. lia.
  - lia.
Qed.

(* The validator on the file written by [encode_24], while the length of
   the file fits the 32 bits of the size field. *)
Lemma parse_encode_24 (w h : Z) (image : Z -> Z -> EFI_GRAPHICS_OUTPUT_BLT_PIXEL) :
  0 <= w < 2 ^ 32 -> 0 <= h < 2 ^ 32 -> 54 + h * stride_24 w < 2 ^ 32 ->
  let bytes := encode_24 w h image in
  let dib := bmp_dib_at (load bytes) 14 in
  dib_x dib = w /\ dib_y dib = h /\ dib_depth dib = 24 /\ stride dib = stride_24 w
  /\ bmp_parse_header (load bytes) (54 + h * stride_24 w)
     = if h * stride_24 w >? 64 * 1024 * 1024
       then Rejected EFI_INVALID_PARAMETER else Parsed dib 54 54.
Proof.
  intros Hw Hh Hfits bytes dib.
  destruct (stride_24_bounds w ltac:(lia)) as [Hs Hs4].
  assert (Hrows : 0 <= h * stride_24 w) by nia.
  destruct (headers_of_bmp_bytes (54 + h * stride_24 w) 54 w h 24 0 0
              (flat_map (fun k => row_24 w (fun x => image x (h - 1 - k))) (columns h)))
    as (Hb & Hm & Hfs & Hoff & Hds & Hdx & Hdy & Hbpp & Hcomp & Hused);
    try (change (2 ^ 32) with 4294967296 in *; change (2 ^ 16) with 65536; lia).
  fold (encode_24 w h image) in Hb, Hm, Hfs, Hoff, Hds, Hdx, Hdy, Hbpp, Hcomp, Hused.
  fold bytes in Hb, Hm, Hfs, Hoff, Hds, Hdx, Hdy, Hbpp, Hcomp, Hused.
  assert (Dx : dib_x dib = w) by exact Hdx.
  assert (Dy : dib_y dib = h) by exact Hdy.
  assert (Dd : dib_depth dib = 24) by exact Hbpp.
  assert (Dc : dib_compression dib = 0) by exact Hcomp.
  assert (Dsz : dib_size dib = 40) by exact Hds.
  assert (Hsd : supported_depth (dib_depth dib)) by (rewrite Dd; unfold supported_depth; lia).
  assert (Hstride : stride dib = stride_24 w)
    by (unfold stride, stride_24; rewrite Dd, Dx; reflexivity).
  assert (Hrs : row_sizeof dib = stride_24 w)
    by (rewrite row_sizeof_stride by (rewrite ?Dx; assumption); exact Hstride).
  split; [exact Dx|]. split; [exact Dy|]. split; [exact Dd|]. split; [exact Hstride|].
  unfold bmp_parse_header. cbv zeta.
  unfold sizeof_bmp_file, sizeof_bmp_dib, sizeof_bmp_map. fold dib.
  cbn [bmp_file_at file_signature0 file_signature1 file_size file_offset].
  change (0 + 1) with 1. change (0 + 2) with 2. change (0 + 10) with 10.
  rewrite Hb, Hm, Hfs, Hoff, Hrs, Dsz, Dy.
  unfold depth_switch, map_count_of. rewrite Dd, Dc.
  unfold UINTN, uint32.
  change (2 ^ 32) with 4294967296 in *. change (2 ^ 64) with 18446744073709551616.
  cbn [Z.eqb Pos.eqb orb negb andb].
  replace (stride_24 w * h) with (h * stride_24 w) by lia.
  replace (54 + h * stride_24 w - 54) with (h * stride_24 w) by lia.
  rewrite !(Z.mod_small (h * stride_24 w)) by lia.
  replace (54 + h * stride_24 w <? 14 + 40) with false by lia.
  replace (54 + h * stride_24 w =? 54 + h * stride_24 w) with true by lia.
  replace (54 + h * stride_24 w <? 54) with false by lia.
  replace (h * stride_24 w <? h * stride_24 w) with false by lia.
  cbn [negb]. destruct (h * stride_24 w >? 64 * 1024 * 1024); reflexivity.
Qed.

(* A file too long for the size field: the field cannot hold the length,
   and the validator stops at the comparison of the two. *)
Lemma parse_too_long (fsize off w h bpp compr used : Z) (body : list Z) (size : Z) :
  2 ^ 32 <= size ->
  bmp_parse_header (load (bmp_bytes 66 77 fsize off w h bpp compr used body)) size
  = Rejected EFI_INVALID_PARAMETER.
Proof.
  intros Hsize. set (bmp := load _).
  assert (Hb : rd8 bmp 0 = 66) by (unfold bmp; rewrite rd8_load by lia; reflexivity).
  assert (Hm : rd8 bmp 1 = 77) by (unfold bmp; rewrite rd8_load by lia; reflexivity).
  pose proof (rd32_range bmp 2) as R.
  unfold bmp_parse_header. cbv zeta.
  unfold sizeof_bmp_file, sizeof_bmp_dib.
  cbn [bmp_file_at file_signature0 file_signature1 file_size file_offset].
  change (0 + 1) with 1. change (0 + 2) with 2. change (0 + 10) with 10.
  rewrite Hb, Hm. cbn [Z.eqb Pos.eqb orb negb].
  change (2 ^ 32) with 4294967296 in *.
  replace (size <? 14 + 40) with false by lia.
  replace (rd32 bmp 2 =? size) with false by lia.
  reflexivity.
Qed.

(** Round trip at depth 24, for a picture of [w] by [h] pixels, both below
    [2 ^ 32].  When the rows of the picture take at most 64 MiB ([h] times
    the row length rounded up to a multiple of 4), writing the picture as
    a file and giving the file to the validator and the converter yields
    the picture again: the file is accepted at its own length, with the
    dimensions of the picture, and every pixel of the buffer gets the red,
    green and blue of the picture's pixel at that place, the bottom-up
    order of the stored rows undone; the reserved bytes of the buffer
    stay.  When the rows take more than 64 MiB the validator refuses the
    file with EFI_INVALID_PARAMETER. *)
Theorem round_trip_24 (w h : Z) (image : Z -> Z -> EFI_GRAPHICS_OUTPUT_BLT_PIXEL)
        (buf : blt_buffer) :
  0 <= w < 2 ^ 32 -> 0 <= h < 2 ^ 32 ->
  let bytes := encode_24 w h image in
  let size := Z.of_nat (length bytes) in
  let dib := bmp_dib_at (load bytes) 14 in
  size = 54 + h * stride_24 w
  /\ (h * stride_24 w <= 64 * 1024 * 1024 ->
      bmp_parse_header (load bytes) size = Parsed dib 54 54
      /\ dib_x dib = w /\ dib_y dib = h
      /\ forall x y, 0 <= x < w -> 0 <= y < h ->
           let p := snd (fst (bmp_to_blt (load bytes) dib 54 54 buf)) (y * w + x) in
           Red p = Red (image x y) /\ Green p = Green (image x y)
           /\ Blue p = Blue (image x y) /\ Reserved p = Reserved (buf (y * w + x)))
  /\ (64 * 1024 * 1024 < h * stride_24 w ->
      bmp_parse_header (load bytes) size = Rejected EFI_INVALID_PARAMETER).
Proof.
  intros Hw Hh bytes size dib.
  destruct (stride_24_bounds w ltac:(lia)) as [Hs Hs4].
  assert (Hrows : 0 <= h * stride_24 w) by nia.
  assert (Hsize : size = 54 + h * stride_24 w).
  { unfold size, bytes, encode_24. rewrite length_bmp_bytes.
    rewrite (length_flat_map_const _ (Z.to_nat (stride_24 w)))
      by (intros; apply length_row_24; lia).
    rewrite length_columns. rewrite Nat2Z.inj_add, Nat2Z.inj_mul, !Z2Nat.id by lia. lia. }
  split; [exact Hsize|]. split.
  - intros Hcap.
    destruct (parse_encode_24 w h image Hw Hh) as (Dx & Dy & Dd & Hstride & Hparse);
      [change (2 ^ 32) with 4294967296; lia|].
    fold bytes in Dx, Dy, Dd, Hstride, Hparse. fold dib in Dx, Dy, Dd, Hstride, Hparse.
    replace (h * stride_24 w >? 64 * 1024 * 1024) with false in Hparse by lia.
    rewrite <- Hsize in Hparse.
    assert (Hsd : supported_depth (dib_depth dib))
      by (rewrite Dd; unfold supported_depth; lia).
    split; [exact Hparse|]. split; [exact Dx|]. split; [exact Dy|].
    intros x y Hx0 Hy0 p. unfold p.
    replace (y * w + x) with (y * dib_x dib + x) by (rewrite Dx; reflexivity).
    rewrite bmp_to_blt_pixel by (rewrite ?Dx, ?Dy; assumption).
    unfold decoded_pixel. rewrite Dd. cbn [Z.eqb Pos.eqb Red Green Blue Reserved].
    rewrite Hstride, Dy, Dx.
    pose proof (byte_of_encode_24 w h image x (h - 1 - y) 0 Hx0 ltac:(lia) ltac:(lia)) as B0.
    pose proof (byte_of_encode_24 w h image x (h - 1 - y) 1 Hx0 ltac:(lia) ltac:(lia)) as B1.
    pose proof (byte_of_encode_24 w h image x (h - 1 - y) 2 Hx0 ltac:(lia) ltac:(lia)) as B2.
    fold bytes in B0, B1, B2.
    replace (h - 1 - (h - 1 - y)) with y in B0, B1, B2 by lia.
    change (Z.of_nat 0) with 0 in B0. change (Z.of_nat 1) with 1 in B1.
    change (Z.of_nat 2) with 2 in B2. rewrite Z.add_0_r in B0.
    rewrite B0, B1, B2. cbn [nth bgr]. rewrite !byte.of_Z_unsigned. repeat split.
  - intros Hbig.
    destruct (Z.lt_ge_cases (54 + h * stride_24 w) (2 ^ 32)) as [Hfits | Hlong].
    + destruct (parse_encode_24 w h image Hw Hh Hfits) as (_ & _ & _ & _ & Hparse).
      fold bytes in Hparse.
      replace (h * stride_24 w >? 64 * 1024 * 1024) with true in Hparse by lia.
      rewrite Hsize. exact Hparse.
    + unfold bytes, encode_24. apply parse_too_long. lia.
Qed.

Lemma round_trip_24_witness :
  let image := fun x y => rgb (10 * x + y) (20 + x) (30 + y) in
  let bytes := encode_24 3 2 image in
  let large := encode_24 5000 5000 image in
  Red (snd (fst (bmp_to_blt (load bytes) (bmp_dib_at (load bytes) 14) 54 54
                            (fun _ => black))) (1 * 3 + 2))
  = Red (image 2 1)
  /\ bmp_parse_header (load large) (Z.of_nat (length large))
     = Rejected EFI_INVALID_PARAMETER.
Proof.
  intros image bytes large.
  assert (H1 : 0 <= 3 < 2 ^ 32) by (vm_compute; intuition discriminate).
  assert (H2 : 0 <= 2 < 2 ^ 32) by (vm_compute; intuition discriminate).
  assert (H3 : 2 * stride_24 3 <= 64 * 1024 * 1024) by (vm_compute; discriminate).
  assert (L1 : 0 <= 5000 < 2 ^ 32) by (vm_compute; intuition discriminate).
  assert (L3 : 64 * 1024 * 1024 < 5000 * stride_24 5000) by (vm_compute; reflexivity).
  split.
  - destruct (round_trip_24 3 2 image (fun _ => black) H1 H2) as (_ & A & _).
    destruct (A H3) as (_ & _ & _ & H).
    assert (X : 0 <= 2 < 3) by lia.
    assert (Y : 0 <= 1 < 2) by lia.
    destruct (H 2 1 X Y) as (R & _).
    exact R.
  - destruct (round_trip_24 5000 5000 image (fun _ => black) L1 L1) as (_ & _ & B).
    exact (B L3).
Defined.

(** ** bmp_parse_header: the two kinds of rejection *)

(** EFI_UNSUPPORTED is the answer exactly for an input whose file header is
    in order (long enough, signature, size field, pixel data offset within
    the size) and whose DIB header is shorter than 40 bytes or announces a
    depth and compression the decoder does not handle; every other
    rejection is EFI_INVALID_PARAMETER. *)
Theorem unsupported_iff (bmp : memory) (size : Z) :
  let dib := bmp_dib_at bmp 14 in
  let file_header_ok :=
    54 <= size /\ rd8 bmp 0 = 66 /\ rd8 bmp 1 = 77
    /\ rd32 bmp 2 = size /\ rd32 bmp 10 <= rd32 bmp 2 in
  let handled :=
    (dib_depth dib = 1 \/ dib_depth dib = 4 \/ dib_depth dib = 8 \/ dib_depth dib = 24)
    /\ dib_compression dib = 0
    \/ (dib_depth dib = 16 \/ dib_depth dib = 32)
       /\ (dib_compression dib = 0 \/ dib_compression dib = 3) in
  (bmp_parse_header bmp size = Rejected EFI_UNSUPPORTED
   <-> file_header_ok /\ (dib_size dib < 40 \/ ~ handled))
  /\ (forall err, bmp_parse_header bmp size = Rejected err -> err <> EFI_UNSUPPORTED ->
                  err = EFI_INVALID_PARAMETER).
Proof.
  intros dib file_header_ok handled.
  split.
  - unfold bmp_parse_header. cbv zeta.
    unfold sizeof_bmp_file, sizeof_bmp_dib. fold dib.
    cbn [bmp_file_at file_signature0 file_signature1 file_size file_offset].
    change (0 + 1) with 1. change (0 + 2) with 2. change (0 + 10) with 10.
    assert (Hh : depth_switch dib = true <-> handled).
    { unfold depth_switch, handled.
      destruct (Z.eqb_spec (dib_depth dib) 1); destruct (Z.eqb_spec (dib_depth dib) 4);
        destruct (Z.eqb_spec (dib_depth dib) 8); destruct (Z.eqb_spec (dib_depth dib) 24);
        destruct (Z.eqb_spec (dib_depth dib) 16); destruct (Z.eqb_spec (dib_depth dib) 32);
        cbn [orb]; lia. }
    unfold file_header_ok.
    destruct (Z.ltb_spec size (14 + 40)); [split; [discriminate | lia]|].
    destruct (Z.eqb_spec (rd8 bmp 0) 66); cbn [negb orb]; [|split; [discriminate | lia]].
    destruct (Z.eqb_spec (rd8 bmp 1) 77); cbn [negb orb]; [|split; [discriminate | lia]].
    destruct (Z.eqb_spec (rd32 bmp 2) size); cbn [negb]; [|split; [discriminate | lia]].
    destruct (Z.ltb_spec (rd32 bmp 2) (rd32 bmp 10)); [split; [discriminate | lia]|].
    destruct (Z.ltb_spec (dib_size dib) 40); [split; [intros _; repeat split; lia | reflexivity]|].
    destruct (depth_switch dib) eqn:Es; cbn [negb].
    + assert (handled) by (apply Hh; reflexivity).
      split; [|intros (_ & [? | Hn]); [lia | contradiction]].
      repeat match goal with
             | |- context [if ?c then Rejected _ else _] => destruct c
             end; discriminate.
    + split; [intros _|reflexivity].
      repeat split; try lia. right. intros Hn. apply Hh in Hn. discriminate.
  - intros err Hr Hne. destruct (bmp_parse_header_status bmp size err Hr); [assumption|contradiction].
Qed.

Lemma unsupported_iff_witness :
  bmp_parse_header (load input_rle_8) 66 = Rejected EFI_UNSUPPORTED
  /\ bmp_parse_header (load input_BZ) 70 <> Rejected EFI_UNSUPPORTED.
Proof.
  pose proof (unsupported_iff (load input_rle_8) 66) as [U _].
  pose proof (unsupported_iff (load input_BZ) 70) as [V _].
  cbv zeta in U, V. split.
  - apply U. split.
    + vm_compute. repeat split; intros H; discriminate H.
    + right. vm_compute. intuition discriminate.
  - intros H. apply V in H. destruct H as ((_ & _ & H & _) & _).
    vm_compute in H. discriminate H.
Defined.

(** ** bmp_to_blt: what it depends on *)

Lemma case_1_loop_fields (bmp : memory) (dib1 dib2 : bmp_dib) (map : Z) :
  dib_x dib1 = dib_x dib2 ->
  forall fuel i s, case_1_loop bmp dib1 map fuel i s = case_1_loop bmp dib2 map fuel i s.
Proof.
  intros Ex. induction fuel as [|fuel IH]; intros i s; [reflexivity|].
  rewrite !case_1_loop_S, Ex. destruct (_ && _); [apply IH | reflexivity].
Qed.

Lemma switch_depth_fields (bmp : memory) (dib1 dib2 : bmp_dib) (map : Z) (s : cursor) :
  dib_x dib1 = dib_x dib2 -> dib_depth dib1 = dib_depth dib2 ->
  switch_depth bmp dib1 map s = switch_depth bmp dib2 map s.
Proof.
  intros Ex Ed. unfold switch_depth, case_1, case_4. cbv zeta.
  rewrite Ed, Ex, (case_1_loop_fields bmp dib1 dib2 map Ex). reflexivity.
Qed.

Lemma x_loop_fields (bmp : memory) (dib1 dib2 : bmp_dib) (map : Z) :
  dib_x dib1 = dib_x dib2 -> dib_depth dib1 = dib_depth dib2 ->
  forall fuel s, x_loop bmp dib1 map fuel s = x_loop bmp dib2 map fuel s.
Proof.
  intros Ex Ed. induction fuel as [|fuel IH]; intros s; [reflexivity|].
  rewrite !x_loop_unfold, Ex. unfold x_next. cbv zeta.
  rewrite (switch_depth_fields bmp dib1 dib2 map s Ex Ed).
  destruct (_ <? _); [apply IH | reflexivity].
Qed.

Lemma y_loop_fields (bmp : memory) (dib1 dib2 : bmp_dib) (map pixmap : Z) :
  dib_x dib1 = dib_x dib2 -> dib_y dib1 = dib_y dib2 -> dib_depth dib1 = dib_depth dib2 ->
  forall fuel y s, y_loop bmp dib1 map pixmap fuel y s = y_loop bmp dib2 map pixmap fuel y s.
Proof.
  intros Ex Ey Ed. induction fuel as [|fuel IH]; intros y s; [reflexivity|].
  cbn [y_loop]. rewrite Ey. destruct (_ <? _); [|reflexivity].
  rewrite IH. f_equal. unfold y_body. cbv zeta.
  rewrite Ex, Ey, (x_loop_fields bmp dib1 dib2 map Ex Ed). reflexivity.
Qed.

(** Of the DIB header the converter uses the width, the height and the
    depth, and nothing else: the compression mode, with it the bit masks
    of a bitfields image, and the colour counts have no influence on what
    it reads or stores. *)
Theorem bmp_to_blt_uses_three_fields (bmp : memory) (dib1 dib2 : bmp_dib) (map pixmap : Z)
        (buf : blt_buffer) :
  dib_x dib1 = dib_x dib2 -> dib_y dib1 = dib_y dib2 -> dib_depth dib1 = dib_depth dib2 ->
  bmp_to_blt bmp dib1 map pixmap buf = bmp_to_blt bmp dib2 map pixmap buf.
Proof.
  intros Ex Ey Ed. unfold bmp_to_blt, after_rows. cbv zeta.
  rewrite Ey, (y_loop_fields bmp dib1 dib2 map pixmap Ex Ey Ed). reflexivity.
Qed.

Lemma bmp_to_blt_uses_three_fields_witness :
  let bmp := load image_3x2_16 in
  let dib := bmp_dib_at bmp 14 in
  let bitfields :=
    {| dib_size := 56; dib_x := 3; dib_y := 2; dib_planes := 1; dib_depth := 16;
       dib_compression := 3; dib_image_size := 16; dib_x_pixel_meter := 0;
       dib_y_pixel_meter := 0; dib_colors_used := 0; dib_colors_important := 0 |} in
  bmp_to_blt bmp dib 54 54 (fun _ => black) = bmp_to_blt bmp bitfields 54 54 (fun _ => black).
Proof.
  intros bmp dib bitfields.
  apply bmp_to_blt_uses_three_fields; vm_compute; reflexivity.
Defined.

Lemma palette_pixel_ext (m1 m2 : memory) (dib : bmp_dib) (map i : Z)
      (old : EFI_GRAPHICS_OUTPUT_BLT_PIXEL) :
  dib_depth dib <= 8 -> 0 <= i < 2 ^ dib_depth dib ->
  (forall a, table_byte dib map a -> m1 a = m2 a) ->
  palette_pixel m1 map i old = palette_pixel m2 map i old.
Proof.
  intros Hd Hi Ht. unfold palette_pixel, map_blue, map_green, map_red, sizeof_bmp_map.
  assert (T : forall c, 0 <= c < 3 -> m1 (map + 4 * i + c) = m2 (map + 4 * i + c)).
  { intros c Hc. apply Ht. split; [exact Hd|]. exists i, c. auto. }
  pose proof (T 0 ltac:(lia)) as T0. rewrite Z.add_0_r in T0.
  rewrite (rd8_ext m1 m2 _ T0), (rd8_ext m1 m2 _ (T 1 ltac:(lia))),
    (rd8_ext m1 m2 _ (T 2 ltac:(lia))).
  reflexivity.
Qed.

Lemma decoded_pixel_ext (m1 m2 : memory) (dib : bmp_dib) (map r x : Z)
      (old : EFI_GRAPHICS_OUTPUT_BLT_PIXEL) :
  supported_depth (dib_depth dib) -> 0 <= x < dib_x dib ->
  (forall j, 0 <= j < row_bytes dib (dib_x dib) -> m1 (r + j) = m2 (r + j)) ->
  (forall a, table_byte dib map a -> m1 a = m2 a) ->
  decoded_pixel m1 dib map r x old = decoded_pixel m2 dib map r x old.
Proof.
  intros Hd Hx Hr Ht. unfold decoded_pixel. unfold row_bytes in Hr.
  destruct Hd as [D | [D | [D | [D | [D | D]]]]]; rewrite D in *; cbn [Z.eqb Pos.eqb].
  - assert (E : m1 (r + x / 8) = m2 (r + x / 8))
      by (apply Hr; Z.div_mod_to_equations; lia).
    rewrite (rd8_ext _ _ _ E).
    apply (palette_pixel_ext m1 m2 dib); [lia | rewrite D | exact Ht].
    rewrite (Z.land_ones _ 1) by lia. apply Z.mod_pos_bound. reflexivity.
  - assert (E : m1 (r + x / 2) = m2 (r + x / 2))
      by (apply Hr; Z.div_mod_to_equations; lia).
    rewrite (rd8_ext _ _ _ E).
    assert (I : 0 <= Z.shiftr (rd8 m2 (r + x / 2)) 4 < 2 ^ 4
                 /\ 0 <= Z.land (rd8 m2 (r + x / 2)) 0x0f < 2 ^ 4).
    { pose proof (rd8_range m2 (r + x / 2)).
      rewrite Z.shiftr_div_pow2 by lia.
      change 0x0f with (Z.ones 4). rewrite Z.land_ones by lia.
      change (2 ^ 4) with 16. Z.div_mod_to_equations. lia. }
    destruct I as [I1 I2].
    apply (palette_pixel_ext m1 m2 dib); [lia | rewrite D | exact Ht].
    destruct (x mod 2 =? 0); assumption.
  - assert (E : m1 (r + x) = m2 (r + x))
      by (apply Hr; Z.div_mod_to_equations; lia).
    rewrite (rd8_ext _ _ _ E).
    apply (palette_pixel_ext m1 m2 dib); [lia | rewrite D | exact Ht].
    pose proof (rd8_range m2 (r + x)). change (2 ^ 8) with 256. lia.
  - assert (E0 : m1 (r + 2 * x) = m2 (r + 2 * x))
      by (apply Hr; Z.div_mod_to_equations; lia).
    assert (E1 : m1 (r + (2 * x + 1)) = m2 (r + (2 * x + 1)))
      by (apply Hr; Z.div_mod_to_equations; lia).
    rewrite Z.add_assoc in E1.
    unfold rd16. rewrite (rd8_ext _ _ _ E0), (rd8_ext _ _ _ E1). reflexivity.
  - assert (E0 : m1 (r + 3 * x) = m2 (r + 3 * x))
      by (apply Hr; Z.div_mod_to_equations; lia).
    assert (E1 : m1 (r + (3 * x + 1)) = m2 (r + (3 * x + 1)))
      by (apply Hr; Z.div_mod_to_equations; lia).
    assert (E2 : m1 (r + (3 * x + 2)) = m2 (r + (3 * x + 2)))
      by (apply Hr; Z.div_mod_to_equations; lia).
    rewrite Z.add_assoc in E1, E2.
    rewrite (rd8_ext _ _ _ E0), (rd8_ext _ _ _ E1), (rd8_ext _ _ _ E2). reflexivity.
  - assert (E0 : m1 (r + 4 * x) = m2 (r + 4 * x))
      by (apply Hr; Z.div_mod_to_equations; lia).
    assert (E1 : m1 (r + (4 * x + 1)) = m2 (r + (4 * x + 1)))
      by (apply Hr; Z.div_mod_to_equations; lia).
    assert (E2 : m1 (r + (4 * x + 2)) = m2 (r + (4 * x + 2)))
      by (apply Hr; Z.div_mod_to_equations; lia).
    assert (E3 : m1 (r + (4 * x + 3)) = m2 (r + (4 * x + 3)))
      by (apply Hr; Z.div_mod_to_equations; lia).
    rewrite Z.add_assoc in E1, E2, E3.
    unfold rd32.
    rewrite (rd8_ext _ _ _ E0), (rd8_ext _ _ _ E1), (rd8_ext _ _ _ E2), (rd8_ext _ _ _ E3).
    reflexivity.
Qed.



(** An image of width 0 or of height 0 is converted without one load
    through [in] or [map], so that no byte of the pixel data or of the
    colour table is read, and with the buffer left as it was.  (The loop
    tests still load [dib->y] and [dib->x].) *)
Theorem empty_image_untouched (bmp : memory) (dib : bmp_dib) (map pixmap : Z)
        (buf : blt_buffer) :
  dib_x dib = 0 \/ dib_y dib = 0 ->
  bmp_to_blt bmp dib map pixmap buf = (EFI_SUCCESS, buf, []).
Proof.
  intros Hz. unfold bmp_to_blt, after_rows. cbv zeta.
  assert (L : forall fuel y s,
             dib_x dib = 0 ->
             cur_buf (y_loop bmp dib map pixmap fuel y s) = cur_buf s
             /\ cur_reads (y_loop bmp dib map pixmap fuel y s) = cur_reads s).
  { intros fuel y0 s Ex. revert y0 s.
    induction fuel as [|fuel IH]; intros y0 s; [split; reflexivity|].
    cbn [y_loop]. destruct (y0 <? dib_y dib); [|split; reflexivity].
    destruct (IH (UINTN (y0 + 1)) (y_body bmp dib map pixmap y0 s)) as [Ib Ir].
    rewrite Ib, Ir. unfold y_body. cbv zeta. rewrite Ex. cbn [Z.to_nat x_loop].
    split; reflexivity. }
  destruct Hz as [Ex | Ey].
  - destruct (L (Z.to_nat (dib_y dib)) 0 (bmp_to_blt_start pixmap buf) Ex) as [Lb Lr].
    rewrite Lb, Lr. reflexivity.
  - rewrite Ey. reflexivity.
Qed.

Lemma empty_image_untouched_witness :
  let bmp := load (bmp_bytes 66 77 54 54 0 3 24 0 0 []) in
  bmp_parse_header bmp 54 = Parsed (bmp_dib_at bmp 14) 54 54
  /\ bmp_to_blt bmp (bmp_dib_at bmp 14) 54 54 (fun _ => apple_grey)
     = (EFI_SUCCESS, fun _ => apple_grey, []).
Proof.
  intros bmp. split; [vm_compute; reflexivity|].
  apply empty_image_untouched. left. vm_compute. reflexivity.
Defined.
